(** * Event-booking server: a relational model of the route handlers

    The development embeds the route handlers of [server.js] (and, for the
    comparison of the two variants, the booking handler of the second,
    simpler route file) as functions over an explicit store holding the
    three tables [users], [events] and [bookings].

    Conventions of the embedding:
    - a table is the list of its rows, in insertion order; [SELECT] is
      [filter], [UPDATE] is [map], [DELETE] is [filter] on the negated
      predicate, [INSERT] appends a row whose [id] is drawn from the table's
      [SERIAL] sequence;
    - an [INTEGER] column holds a number between -2147483648 and
      2147483647, a [VARCHAR(100)] column a text of at most a hundred
      characters (a longer text is taken, cut to a hundred characters, when
      all that is cut are spaces), the [TIMESTAMP] column what the store
      reads from the text of the request.  A statement given a parameter
      that its column cannot take throws before it reads or writes a row and
      before it draws an id, an [UPDATE] whose arithmetic leaves [INTEGER]
      throws and changes no row, and an [INSERT] throws once the [SERIAL]
      sequence of its table has given out 2147483647;
    - a request holds every field that its handler reads, and its texts are
      texts of the store's encoding, each [ascii] of a [string] standing for
      one character.  Its ids and numbers are integers [Z], those outside
      [INTEGER] included; for an id, which reaches the handler as a text,
      this is the number that the store reads from it.  A seat count is a
      number or a text that is no number to JavaScript; [req.user.id], which
      comes out of a token signed from a stored row, is not tested again; the
      [created_at] columns, which no handler reads to take a decision, are
      left out;
    - each [pool.query] is one statement, atomic on its own; a handler is a
      sequence of statements in a small state-and-exception monad, and the
      handler's [try { } catch] turns a thrown error into its response.
      Nothing is rolled back when a later statement throws: the source opens
      no transaction;
    - the constraints of [initializeDatabase] that a statement can violate
      are checked by the statement that would violate them: [UNIQUE (email)],
      [UNIQUE (event_id, user_id)] and the three foreign keys. *)

From Stdlib Require Import ZArith List Ascii String Bool Lia.
Import ListNotations.

Local Open Scope string_scope.
Local Open Scope list_scope.
Local Open Scope Z_scope.

(** ** Rows of the three tables *)

Module Users.
Record row : Type := mk
  { id : Z;
    name : string;
    email : string;
    password : string (* the bcrypt hash, never the plaintext *) }.
End Users.

Module Events.
Record row : Type := mk
  { id : Z;
    title : string;
    description : option string;
    date : string;
    location : string;
    available_seats : Z;
    user_id : Z }.

Definition set_available_seats (n : Z) (e : row) : row :=
  mk (id e) (title e) (description e) (date e) (location e) n (user_id e).

Definition set_location (l : string) (e : row) : row :=
  mk (id e) (title e) (description e) (date e) l (available_seats e) (user_id e).
End Events.

Module Bookings.
Record row : Type := mk
  { id : Z;
    event_id : Z;
    user_id : Z;
    seats : Z }.

Definition set_seats (n : Z) (b : row) : row :=
  mk (id b) (event_id b) (user_id b) n.
End Bookings.

(** ** The store: three tables and their [SERIAL] sequences *)

Record Store : Type := mkStore
  { users : list Users.row;
    events : list Events.row;
    bookings : list Bookings.row;
    users_id_seq : Z;
    events_id_seq : Z;
    bookings_id_seq : Z }.

(** The store right after [initializeDatabase] on a fresh database. *)
Definition empty_store : Store := mkStore [] [] [] 0 0 0.

Definition with_users (us : list Users.row) (seq : Z) (s : Store) : Store :=
  mkStore us (events s) (bookings s) seq (events_id_seq s) (bookings_id_seq s).

Definition with_events (es : list Events.row) (seq : Z) (s : Store) : Store :=
  mkStore (users s) es (bookings s) (users_id_seq s) seq (bookings_id_seq s).

Definition with_bookings (bs : list Bookings.row) (seq : Z) (s : Store) : Store :=
  mkStore (users s) (events s) bs (users_id_seq s) (events_id_seq s) seq.

(** ** Errors, queries and responses *)

(** What a handler's [catch (err)] can receive: a database error with its
    SQLSTATE in [err.code], or the [TypeError] of reading a field of
    [rows[0]] when [rows] is empty. *)
Inductive error : Type :=
| PgError (code : string)
| TypeError.

Definition unique_violation : string := "23505".
Definition foreign_key_violation : string := "23503".
Definition numeric_value_out_of_range : string := "22003".
Definition string_data_right_truncation : string := "22001".
Definition invalid_datetime_format : string := "22007".
Definition invalid_text_representation : string := "22P02".
Definition sequence_generator_limit_exceeded : string := "2200H".

(** [err.code === c] *)
Definition code_is (c : string) (err : error) : bool :=
  match err with
  | PgError code => String.eqb code c
  | TypeError => false
  end.

Definition Query (A : Type) : Type := Store -> (A + error) * Store.

Definition ret {A : Type} (a : A) : Query A := fun s => (inl a, s).

Definition throw {A : Type} (e : error) : Query A := fun s => (inr e, s).

Definition bind {A B : Type} (q : Query A) (k : A -> Query B) : Query B :=
  fun s =>
    match q s with
    | (inl a, s') => k a s'
    | (inr e, s') => (inr e, s')
    end.

Notation "x <- q ;; k" := (bind q (fun x => k))
  (at level 61, q at next level, right associativity).
Notation "q ;;; k" := (bind q (fun _ => k))
  (at level 61, right associativity).

(** Bodies of the JSON responses the handlers send. *)
Inductive json : Type :=
| JUndefined
| JError (error : string)
| JMessage (message : string)
| JRoomUpdated (message newName : string)
| JUser (id : Z) (name email : string)
| JLogin (token : string) (id : Z) (name email : string)
| JEvent (row : Events.row)
| JBooking (row : Bookings.row).

Record response : Type := mkResponse { status : Z; body : json }.

(** [res.status(c).json({ error: msg })] *)
Definition error_json (c : Z) (msg : string) : response := mkResponse c (JError msg).

(** [try { body } catch (err) { on_error(err) }] *)
Definition try_catch (body : Query response) (on_error : error -> response)
  : Store -> response * Store :=
  fun s =>
    match body s with
    | (inl r, s') => (r, s')
    | (inr e, s') => (on_error e, s')
    end.

(** The result names of the specification, as the responses the handlers send. *)
Definition InvalidSeatCount : response := error_json 400 "Number of seats must be positive".
Definition AlreadyBooked : response := error_json 400 "You have already booked this event".
Definition EventNotFound : response := error_json 404 "Event not found".
Definition InsufficientSeats : response := error_json 400 "Not enough seats available".
Definition BookingNotFoundOrForbidden : response :=
  error_json 404 "Booking not found or not authorized".
Definition EventNotFoundOrForbidden : response :=
  error_json 404 "Event not found or not authorized".
Definition InvalidCredentials : response := error_json 401 "Invalid credentials".
Definition DuplicateEmail : response := error_json 400 "Email already exists".

(** ** The column types of [initializeDatabase] *)

Definition INTEGER_MIN : Z := -2147483648.
Definition INTEGER_MAX : Z := 2147483647.

(** [n] is a value of an [INTEGER] column. *)
Definition integer (n : Z) : bool := (INTEGER_MIN <=? n) && (n <=? INTEGER_MAX).

(** [t] is a value of a [VARCHAR(100)] column; a string is the list of its
    characters. *)
Definition fits_100 (t : string) : bool := (String.length t <=? 100)%nat.

Fixpoint all_spaces (t : string) : bool :=
  match t with
  | EmptyString => true
  | String c r => Ascii.eqb c " "%char && all_spaces r
  end.

(** The first [n] characters of [t], and those after them. *)
Fixpoint first_characters (n : nat) (t : string) {struct t} : string :=
  match t, n with
  | String c r, S m => String c (first_characters m r)
  | _, _ => EmptyString
  end.

Fixpoint after_characters (n : nat) (t : string) {struct t} : string :=
  match t, n with
  | String c r, S m => after_characters m r
  | _, _ => t
  end.

(** A [VARCHAR(100)] column takes a text whose characters after the
    hundredth, if it has any, are all spaces, and stores its first hundred
    characters; a statement that assigns it any other text throws. *)
Definition varchar_100 (t : string) : bool := all_spaces (after_characters 100 t).

Definition stored_100 (t : string) : string := first_characters 100 t.

(** A statement whose parameters the store cannot read as the types of their
    columns throws with [code] and touches no row. *)
Definition parameters {A : Type} (ok : bool) (code : string) (q : Query A) : Query A :=
  fun s => if ok then q s else (inr (PgError code), s).

(** ** The SQL statements of the handlers

    One definition per statement text.  A statement that throws leaves the
    tables as they were; an [INSERT] draws its [id] from the sequence before
    the keys are checked, so an [INSERT] refused by a key still advances the
    sequence. *)

Definition booking_of (event_id user_id : Z) (b : Bookings.row) : bool :=
  (Bookings.event_id b =? event_id) && (Bookings.user_id b =? user_id).

Definition booking_is (id user_id : Z) (b : Bookings.row) : bool :=
  (Bookings.id b =? id) && (Bookings.user_id b =? user_id).

Definition event_owned (id user_id : Z) (e : Events.row) : bool :=
  (Events.id e =? id) && (Events.user_id e =? user_id).

Definition event_in_room (room : string) (user_id : Z) (e : Events.row) : bool :=
  String.eqb (Events.location e) room && (Events.user_id e =? user_id).

Definition user_exists (user_id : Z) (s : Store) : bool :=
  existsb (fun u => Users.id u =? user_id) (users s).

Definition event_exists (event_id : Z) (s : Store) : bool :=
  existsb (fun e => Events.id e =? event_id) (events s).

(** [SELECT * FROM users WHERE email = $1] *)
Definition select_users_by_email (email : string) : Query (list Users.row) :=
  fun s => (inl (filter (fun u => String.eqb (Users.email u) email) (users s)), s).

(** [INSERT INTO users (name, email, password) VALUES ($1, $2, $3) RETURNING id, name, email] *)
Definition insert_user (name email password : string) : Query Users.row :=
  parameters (varchar_100 name && varchar_100 email && varchar_100 password)
    string_data_right_truncation
    (fun s =>
       if INTEGER_MAX <=? users_id_seq s
       then (inr (PgError sequence_generator_limit_exceeded), s)
       else
         let id := users_id_seq s + 1 in
         let row := Users.mk id (stored_100 name) (stored_100 email) (stored_100 password) in
         if existsb (fun u => String.eqb (Users.email u) (Users.email row)) (users s)
         then (inr (PgError unique_violation), with_users (users s) id s)
         else (inl row, with_users (users s ++ [row]) id s)).

(** [UPDATE users SET name = $1, email = $2 [, password = $3] WHERE id = $n
    RETURNING id, name, email]; [password] is [None] when the statement has no
    [password = $3] part. *)
Definition update_user (name email : string) (password : option string) (id : Z)
  : Query (list Users.row) :=
  parameters
    (varchar_100 name && varchar_100 email
     && match password with Some h => varchar_100 h | None => true end)
    string_data_right_truncation
    (fun s =>
       let change u :=
         Users.mk (Users.id u) (stored_100 name) (stored_100 email)
           (match password with Some h => stored_100 h | None => Users.password u end) in
       if user_exists id s
          && existsb (fun u => negb (Users.id u =? id)
                               && String.eqb (Users.email u) (stored_100 email))
               (users s)
       then (inr (PgError unique_violation), s)
       else
         (inl (map change (filter (fun u => Users.id u =? id) (users s))),
          with_users (map (fun u => if Users.id u =? id then change u else u) (users s))
            (users_id_seq s) s)).

(** The parameters of a statement that writes the columns of an event.  The
    [date] is the timestamp that the store reads from the text of the
    request, [None] when it reads none. *)
Definition event_parameters {A : Type} (title : string) (date : option string)
  (location : string) (available_seats : Z) (q : string -> Query A) : Query A :=
  match date with
  | None => throw (PgError invalid_datetime_format)
  | Some date =>
      parameters (integer available_seats) numeric_value_out_of_range
        (parameters (varchar_100 title && varchar_100 location) string_data_right_truncation
           (q date))
  end.

(** [INSERT INTO events (title, description, date, location, available_seats, user_id)
    VALUES ($1, $2, $3, $4, $5, $6) RETURNING *] *)
Definition insert_event (title : string) (description : option string)
  (date : option string) (location : string) (available_seats user_id : Z)
  : Query Events.row :=
  event_parameters title date location available_seats
    (fun date s =>
       if INTEGER_MAX <=? events_id_seq s
       then (inr (PgError sequence_generator_limit_exceeded), s)
       else
         let id := events_id_seq s + 1 in
         if user_exists user_id s
         then
           let row :=
             Events.mk id (stored_100 title) description date (stored_100 location)
               available_seats user_id in
           (inl row, with_events (events s ++ [row]) id s)
         else (inr (PgError foreign_key_violation), with_events (events s) id s)).

(** [SELECT * FROM events WHERE id = $1] *)
Definition select_event (id : Z) : Query (list Events.row) :=
  parameters (integer id) numeric_value_out_of_range
    (fun s => (inl (filter (fun e => Events.id e =? id) (events s)), s)).

(** The [available_seats] of the event [id], as
    [SELECT available_seats FROM events WHERE id = $1] returns it: one number
    per row that holds the id. *)
Definition available_seats_of (id : Z) (s : Store) : list Z :=
  map Events.available_seats (filter (fun e => Events.id e =? id) (events s)).

(** [SELECT available_seats FROM events WHERE id = $1] *)
Definition select_available_seats (id : Z) : Query (list Z) :=
  parameters (integer id) numeric_value_out_of_range
    (fun s => (inl (available_seats_of id s), s)).

(** [UPDATE events SET title = $1, description = $2, date = $3, location = $4,
    available_seats = $5 WHERE id = $6 AND user_id = $7 RETURNING *] *)
Definition update_event (title : string) (description : option string)
  (date : option string) (location : string) (available_seats id user_id : Z)
  : Query (list Events.row) :=
  event_parameters title date location available_seats
    (fun date =>
       parameters (integer id) numeric_value_out_of_range
         (fun s =>
            let change e :=
              Events.mk (Events.id e) (stored_100 title) description date
                (stored_100 location) available_seats (Events.user_id e) in
            (inl (map change (filter (event_owned id user_id) (events s))),
             with_events
               (map (fun e => if event_owned id user_id e then change e else e) (events s))
               (events_id_seq s) s))).

(** The store in which the event [id] has [f available_seats] seats. *)
Definition with_available_seats (f : Z -> Z) (id : Z) (s : Store) : Store :=
  with_events
    (map (fun e => if Events.id e =? id
                   then Events.set_available_seats (f (Events.available_seats e)) e
                   else e) (events s))
    (events_id_seq s) s.

(** [UPDATE events SET available_seats = f(available_seats) WHERE id = $2]:
    the statement throws when the new number of a row it changes is no
    [INTEGER]. *)
Definition update_available_seats (f : Z -> Z) (id : Z) : Query unit :=
  fun s =>
    if forallb (fun e => negb (Events.id e =? id) || integer (f (Events.available_seats e)))
         (events s)
    then (inl tt, with_available_seats f id s)
    else (inr (PgError numeric_value_out_of_range), s).

(** [UPDATE events SET available_seats = available_seats - $1 WHERE id = $2] *)
Definition take_seats (n id : Z) : Query unit :=
  parameters (integer n && integer id) numeric_value_out_of_range
    (update_available_seats (fun available_seats => available_seats - n) id).

(** [UPDATE events SET available_seats = available_seats + $1 WHERE id = $2] *)
Definition return_seats (n id : Z) : Query unit :=
  parameters (integer n && integer id) numeric_value_out_of_range
    (update_available_seats (fun available_seats => available_seats + n) id).

(** [UPDATE events SET location = $1 WHERE location = $2 AND user_id = $3
    RETURNING location] *)
Definition rename_room (newName oldName : string) (user_id : Z) : Query (list Events.row) :=
  parameters (varchar_100 newName) string_data_right_truncation
    (fun s =>
       (inl (map (Events.set_location (stored_100 newName))
               (filter (event_in_room oldName user_id) (events s))),
        with_events
          (map (fun e => if event_in_room oldName user_id e
                         then Events.set_location (stored_100 newName) e else e) (events s))
          (events_id_seq s) s)).

(** The foreign key [bookings.event_id REFERENCES events(id)] refuses a
    [DELETE FROM events] while a booking still references a row it removes. *)
Definition referenced (victims : list Events.row) (s : Store) : bool :=
  existsb
    (fun b => existsb (fun e => Events.id e =? Bookings.event_id b) victims)
    (bookings s).

Definition delete_events_where (p : Events.row -> bool) : Query (list Events.row) :=
  fun s =>
    let victims := filter p (events s) in
    if referenced victims s
    then (inr (PgError foreign_key_violation), s)
    else (inl victims,
          with_events (filter (fun e => negb (p e)) (events s)) (events_id_seq s) s).

(** [DELETE FROM events WHERE id = $1 AND user_id = $2 RETURNING *] *)
Definition delete_event (id user_id : Z) : Query (list Events.row) :=
  parameters (integer id) numeric_value_out_of_range
    (delete_events_where (event_owned id user_id)).

(** [DELETE FROM events WHERE location = $1 AND user_id = $2 RETURNING *] *)
Definition delete_events_in_room (room : string) (user_id : Z) : Query (list Events.row) :=
  delete_events_where (event_in_room room user_id).

(** [SELECT id FROM bookings WHERE event_id = $1 AND user_id = $2] *)
Definition select_bookings_of (event_id user_id : Z) : Query (list Z) :=
  parameters (integer event_id) numeric_value_out_of_range
    (fun s =>
       (inl (map Bookings.id (filter (booking_of event_id user_id) (bookings s))), s)).

(** [SELECT * FROM bookings WHERE id = $1 AND user_id = $2] *)
Definition select_booking (id user_id : Z) : Query (list Bookings.row) :=
  parameters (integer id) numeric_value_out_of_range
    (fun s => (inl (filter (booking_is id user_id) (bookings s)), s)).

(** [INSERT INTO bookings (event_id, user_id, seats) VALUES ($1, $2, $3) RETURNING *].
    The unique index on [(event_id, user_id)] is probed when the row is
    inserted, the two foreign keys when the statement ends. *)
Definition insert_booking (event_id user_id seats : Z) : Query Bookings.row :=
  parameters (integer event_id && integer seats) numeric_value_out_of_range
    (fun s =>
       if INTEGER_MAX <=? bookings_id_seq s
       then (inr (PgError sequence_generator_limit_exceeded), s)
       else
         let id := bookings_id_seq s + 1 in
         if existsb (booking_of event_id user_id) (bookings s)
         then (inr (PgError unique_violation), with_bookings (bookings s) id s)
         else if event_exists event_id s && user_exists user_id s
         then
           let row := Bookings.mk id event_id user_id seats in
           (inl row, with_bookings (bookings s ++ [row]) id s)
         else (inr (PgError foreign_key_violation), with_bookings (bookings s) id s)).

(** [UPDATE bookings SET seats = $1 WHERE id = $2 RETURNING *] *)
Definition update_booking_seats (seats id : Z) : Query (list Bookings.row) :=
  parameters (integer seats && integer id) numeric_value_out_of_range
    (fun s =>
       (inl (map (Bookings.set_seats seats)
               (filter (fun b => Bookings.id b =? id) (bookings s))),
        with_bookings
          (map (fun b => if Bookings.id b =? id then Bookings.set_seats seats b else b)
             (bookings s))
          (bookings_id_seq s) s)).

(** [DELETE FROM bookings WHERE id = $1 AND user_id = $2] *)
Definition delete_booking (id user_id : Z) : Query unit :=
  parameters (integer id) numeric_value_out_of_range
    (fun s =>
       (inl tt,
        with_bookings (filter (fun b => negb (booking_is id user_id b)) (bookings s))
          (bookings_id_seq s) s)).

(** [DELETE FROM bookings WHERE event_id = $1] *)
Definition delete_bookings_of_event (event_id : Z) : Query unit :=
  parameters (integer event_id) numeric_value_out_of_range
    (fun s =>
       (inl tt,
        with_bookings (filter (fun b => negb (Bookings.event_id b =? event_id)) (bookings s))
          (bookings_id_seq s) s)).

(** [DELETE FROM bookings WHERE event_id IN
      (SELECT id FROM events WHERE location = $1 AND user_id = $2)] *)
Definition delete_bookings_in_room (room : string) (user_id : Z) : Query unit :=
  fun s =>
    let ids := map Events.id (filter (event_in_room room user_id) (events s)) in
    (inl tt,
     with_bookings
       (filter (fun b => negb (existsb (Z.eqb (Bookings.event_id b)) ids)) (bookings s))
       (bookings_id_seq s) s).

(** ** The route handlers of [server.js]

    The argument [req_user_id] is [req.user.id], the id in the claims of the
    token that [authenticateToken] verified. *)

(** [!seats]: of a number, true for zero only. *)
Definition falsy_number (n : Z) : bool := n =? 0.

(** [!text]: of a string, true for the empty one only. *)
Definition falsy_string (t : string) : bool := String.eqb t "".

(** [if (password)]: an absent field and the empty string are both falsy. *)
Definition truthy_field (f : option string) : bool :=
  match f with
  | Some t => negb (falsy_string t)
  | None => false
  end.

(** [POST /api/register]; [hashedPassword] is what [bcrypt.hash(password, 10)]
    returned, a salted hash drawn outside the handler. *)
Definition post_api_register (name email hashedPassword : string)
  : Store -> response * Store :=
  try_catch
    (row <- insert_user name email hashedPassword ;;
     ret (mkResponse 201 (JUser (Users.id row) (Users.name row) (Users.email row))))
    (fun err =>
       if code_is "23505" err then error_json 400 "Email already exists"
       else error_json 500 "Registration failed").

(** [PUT /api/profile] (the same text in both route files); [hashedPassword]
    is what [bcrypt.hash(password, 10)] returns, computed only when a password
    is supplied. *)
Definition put_api_profile (req_user_id : Z) (name email : string)
  (password : option string) (hashedPassword : string) : Store -> response * Store :=
  try_catch
    (rows <- update_user name email
               (if truthy_field password then Some hashedPassword else None)
               req_user_id ;;
     match rows with
     | [] => ret (error_json 404 "User not found")
     | row :: _ => ret (mkResponse 200 (JUser (Users.id row) (Users.name row) (Users.email row)))
     end)
    (fun err =>
       if code_is "23505" err then error_json 400 "Email already exists"
       else error_json 500 "Failed to update profile").

(** [POST /api/rooms] *)
Definition post_api_rooms (req_user_id : Z) (oldName newName : string)
  : Store -> response * Store :=
  try_catch
    (if falsy_string oldName || falsy_string newName
     then ret (error_json 400 "Both oldName and newName are required")
     else
       rows <- rename_room newName oldName req_user_id ;;
       match rows with
       | [] => ret (error_json 404 "No rooms found with that name or not authorized")
       | _ :: _ => ret (mkResponse 200 (JRoomUpdated "Room updated successfully" newName))
       end)
    (fun _ => error_json 500 "Failed to update room").

(** [DELETE /api/rooms/:name] *)
Definition delete_api_rooms (req_user_id : Z) (roomName : string)
  : Store -> response * Store :=
  try_catch
    (delete_bookings_in_room roomName req_user_id ;;;
     rows <- delete_events_in_room roomName req_user_id ;;
     match rows with
     | [] => ret (error_json 404 "Room not found or not authorized")
     | _ :: _ =>
         ret (mkResponse 200 (JMessage "Room and all associated events deleted successfully"))
     end)
    (fun _ => error_json 500 "Failed to delete room").

(** [POST /api/events] *)
Definition post_api_events (req_user_id : Z) (title : string) (description : option string)
  (date : option string) (location : string) (available_seats : Z)
  : Store -> response * Store :=
  try_catch
    (row <- insert_event title description date location available_seats req_user_id ;;
     ret (mkResponse 201 (JEvent row)))
    (fun _ => error_json 500 "Failed to create event").

(** [PUT /api/events/:id] *)
Definition put_api_events (id req_user_id : Z) (title : string) (description : option string)
  (date : option string) (location : string) (available_seats : Z)
  : Store -> response * Store :=
  try_catch
    (rows <- update_event title description date location available_seats id req_user_id ;;
     match rows with
     | [] => ret (error_json 404 "Event not found or not authorized")
     | row :: _ => ret (mkResponse 200 (JEvent row))
     end)
    (fun _ => error_json 500 "Failed to update event").

(** [DELETE /api/events/:id] *)
Definition delete_api_events (id req_user_id : Z) : Store -> response * Store :=
  try_catch
    (delete_bookings_of_event id ;;;
     rows <- delete_event id req_user_id ;;
     match rows with
     | [] => ret (error_json 404 "Event not found or not authorized")
     | _ :: _ =>
         ret (mkResponse 200 (JMessage "Event and associated bookings deleted successfully"))
     end)
    (fun _ => error_json 500 "Failed to delete event").

(** [POST /api/bookings] *)
Definition post_api_bookings (req_user_id event_id seats : Z) : Store -> response * Store :=
  try_catch
    (if falsy_number seats || (seats <=? 0)
     then ret (error_json 400 "Number of seats must be positive")
     else
       existingBooking <- select_bookings_of event_id req_user_id ;;
       match existingBooking with
       | _ :: _ => ret (error_json 400 "You have already booked this event")
       | [] =>
           event <- select_event event_id ;;
           match event with
           | [] => ret (error_json 404 "Event not found")
           | event0 :: _ =>
               if Events.available_seats event0 <? seats
               then ret (error_json 400 "Not enough seats available")
               else
                 bookingResult <- insert_booking event_id req_user_id seats ;;
                 take_seats seats event_id ;;;
                 ret (mkResponse 201 (JBooking bookingResult))
           end
       end)
    (fun _ => error_json 500 "Failed to create booking").

(** [PUT /api/bookings/:id] *)
Definition put_api_bookings (id req_user_id seats : Z) : Store -> response * Store :=
  try_catch
    (if falsy_number seats || (seats <=? 0)
     then ret (error_json 400 "Number of seats must be positive")
     else
       booking <- select_booking id req_user_id ;;
       match booking with
       | [] => ret (error_json 404 "Booking not found or not authorized")
       | booking0 :: _ =>
           let currentSeats := Bookings.seats booking0 in
           let eventId := Bookings.event_id booking0 in
           let seatDifference := seats - currentSeats in
           event <- select_available_seats eventId ;;
           match event with
           | [] => throw TypeError
           | available_seats0 :: _ =>
               if available_seats0 <? seatDifference
               then ret (error_json 400 "Not enough seats available")
               else
                 result <- update_booking_seats seats id ;;
                 take_seats seatDifference eventId ;;;
                 match result with
                 | [] => ret (mkResponse 200 JUndefined)
                 | result0 :: _ => ret (mkResponse 200 (JBooking result0))
                 end
           end
       end)
    (fun _ => error_json 500 "Failed to update booking").

(** [DELETE /api/bookings/:id] *)
Definition delete_api_bookings (id req_user_id : Z) : Store -> response * Store :=
  try_catch
    (booking <- select_booking id req_user_id ;;
     match booking with
     | [] => ret (error_json 404 "Booking not found or not authorized")
     | booking0 :: _ =>
         delete_booking id req_user_id ;;;
         return_seats (Bookings.seats booking0) (Bookings.event_id booking0) ;;;
         ret (mkResponse 200 (JMessage "Booking cancelled successfully"))
     end)
    (fun _ => error_json 500 "Failed to cancel booking").

(** ** A seat count that is no number

    [req.body.seats] can be a text that JavaScript does not read as a number
    and that the store does read as an [INTEGER], such as ['1_000'] or
    ['-1_0'].  Such a text is not empty, so [!seats] is false; in a
    comparison or a subtraction it counts as [NaN], so [seats <= 0] and
    [available_seats < seats] are false and [seats - currentSeats] is [NaN];
    as a parameter it is the number [reading] that the store reads from it.
    A text that the store does not read as an [INTEGER] either makes the
    first statement that writes throw, and changes nothing. *)

(** [POST /api/bookings], given such a text *)
Definition post_api_bookings_text (req_user_id event_id reading : Z)
  : Store -> response * Store :=
  try_catch
    (existingBooking <- select_bookings_of event_id req_user_id ;;
     match existingBooking with
     | _ :: _ => ret (error_json 400 "You have already booked this event")
     | [] =>
         event <- select_event event_id ;;
         match event with
         | [] => ret (error_json 404 "Event not found")
         | _ :: _ =>
             bookingResult <- insert_booking event_id req_user_id reading ;;
             take_seats reading event_id ;;;
             ret (mkResponse 201 (JBooking bookingResult))
         end
     end)
    (fun _ => error_json 500 "Failed to create booking").

(** [PUT /api/bookings/:id], given such a text: the [UPDATE] of the booking
    takes the reading, the [UPDATE] of the event is given [NaN] and throws. *)
Definition put_api_bookings_text (id req_user_id reading : Z) : Store -> response * Store :=
  try_catch
    (booking <- select_booking id req_user_id ;;
     match booking with
     | [] => ret (error_json 404 "Booking not found or not authorized")
     | booking0 :: _ =>
         let eventId := Bookings.event_id booking0 in
         event <- select_available_seats eventId ;;
         match event with
         | [] => throw TypeError
         | _ :: _ =>
             update_booking_seats reading id ;;;
             throw (PgError invalid_text_representation)
         end
     end)
    (fun _ => error_json 500 "Failed to update booking").

(** ** The booking handler of the second route file

    [POST /api/bookings] of the simpler variant: the same statements, without
    the check of [seats] at the start. *)
Definition post_api_bookings_simple (req_user_id event_id seats : Z)
  : Store -> response * Store :=
  try_catch
    (existingBooking <- select_bookings_of event_id req_user_id ;;
     match existingBooking with
     | _ :: _ => ret (error_json 400 "You have already booked this event")
     | [] =>
         event <- select_event event_id ;;
         match event with
         | [] => ret (error_json 404 "Event not found")
         | event0 :: _ =>
             if Events.available_seats event0 <? seats
             then ret (error_json 400 "Not enough seats available")
             else
               bookingResult <- insert_booking event_id req_user_id seats ;;
               take_seats seats event_id ;;;
               ret (mkResponse 201 (JBooking bookingResult))
         end
     end)
    (fun _ => error_json 500 "Failed to create booking").

(** ** Login

    The password check and the token primitives are external: the handler is
    stated over any [bcrypt.compare], [jwt.sign] and [jwt.verify], the last
    two related by the one law the handlers rely on (a token the server
    signed verifies, under the same secret, to the payload that was signed;
    the one-hour expiry is a matter of wall-clock time and is left out). *)

Record claims : Type := mkClaims { claim_id : Z; claim_email : string }.

Section Auth.

Variable JWT_SECRET : string.
Variable bcrypt_compare : string -> string -> bool.
Variable jwt_sign : claims -> string -> string -> string.

(** [POST /api/login] *)
Definition post_api_login (email password : string) : Store -> response * Store :=
  try_catch
    (user <- select_users_by_email email ;;
     match user with
     | [] => ret (error_json 401 "Invalid credentials")
     | user0 :: _ =>
         let isValidPassword := bcrypt_compare password (Users.password user0) in
         if negb isValidPassword
         then ret (error_json 401 "Invalid credentials")
         else
           let token :=
             jwt_sign (mkClaims (Users.id user0) (Users.email user0)) JWT_SECRET "1h" in
           ret (mkResponse 200
                  (JLogin token (Users.id user0) (Users.name user0) (Users.email user0)))
     end)
    (fun _ => error_json 500 "Login failed").

End Auth.

(** ** Requests and reachable stores

    The requests that can change the store, one constructor per mutating
    route of [server.js] (two for the routes that take a seat count, which
    can be a number or a text), and the stores that sequences of them,
    served one after the other, produce from the empty database.  The
    requester's id is any number: the ids that verified tokens carry are
    among them. *)

Inductive request : Type :=
| PostRegister (name email hashedPassword : string)
| PutProfile (req_user_id : Z) (name email : string) (password : option string)
    (hashedPassword : string)
| PostRooms (req_user_id : Z) (oldName newName : string)
| DeleteRooms (req_user_id : Z) (roomName : string)
| PostEvents (req_user_id : Z) (title : string) (description : option string)
    (date : option string) (location : string) (available_seats : Z)
| PutEvents (id req_user_id : Z) (title : string) (description : option string)
    (date : option string) (location : string) (available_seats : Z)
| DeleteEvents (id req_user_id : Z)
| PostBookings (req_user_id event_id seats : Z)
| PutBookings (id req_user_id seats : Z)
| DeleteBookings (id req_user_id : Z)
| PostBookingsText (req_user_id event_id reading : Z)
| PutBookingsText (id req_user_id reading : Z).

Definition handle (r : request) : Store -> response * Store :=
  match r with
  | PostRegister name email hashedPassword => post_api_register name email hashedPassword
  | PutProfile u name email password hashedPassword =>
      put_api_profile u name email password hashedPassword
  | PostRooms u oldName newName => post_api_rooms u oldName newName
  | DeleteRooms u roomName => delete_api_rooms u roomName
  | PostEvents u title description date location available_seats =>
      post_api_events u title description date location available_seats
  | PutEvents id u title description date location available_seats =>
      put_api_events id u title description date location available_seats
  | DeleteEvents id u => delete_api_events id u
  | PostBookings u event_id seats => post_api_bookings u event_id seats
  | PutBookings id u seats => put_api_bookings id u seats
  | DeleteBookings id u => delete_api_bookings id u
  | PostBookingsText u event_id reading => post_api_bookings_text u event_id reading
  | PutBookingsText id u reading => put_api_bookings_text id u reading
  end.

(** The operations of the booking service. *)
Definition is_booking_request (r : request) : bool :=
  match r with
  | PostBookings _ _ _ | PutBookings _ _ _ | DeleteBookings _ _ => true
  | PostBookingsText _ _ _ | PutBookingsText _ _ _ => true
  | _ => false
  end.

(** The requests whose seat count is a text that is no number. *)
Definition sends_text (r : request) : bool :=
  match r with
  | PostBookingsText _ _ _ | PutBookingsText _ _ _ => true
  | _ => false
  end.

(** The store after serving the requests [rs] one after the other. *)
Definition run (rs : list request) (s : Store) : Store :=
  fold_left (fun s r => snd (handle r s)) rs s.

Inductive reachable : Store -> Prop :=
| reachable_empty : reachable empty_store
| reachable_step (r : request) (s : Store) :
    reachable s -> reachable (snd (handle r s)).

(** The user a request acts for: [req.user.id], for the routes behind
    [authenticateToken]. *)
Definition requester (r : request) : option Z :=
  match r with
  | PostRegister _ _ _ => None
  | PutProfile u _ _ _ _ => Some u
  | PostRooms u _ _ => Some u
  | DeleteRooms u _ => Some u
  | PostEvents u _ _ _ _ _ => Some u
  | PutEvents _ u _ _ _ _ _ => Some u
  | DeleteEvents _ u => Some u
  | PostBookings u _ _ => Some u
  | PutBookings _ u _ => Some u
  | DeleteBookings _ u => Some u
  | PostBookingsText u _ _ => Some u
  | PutBookingsText _ u _ => Some u
  end.

(** ** Reference primitives

    A small implementation of the external primitives, to run the login
    handler on examples: a token is the id, written in binary, and the email
    of its payload; a password hash is the password behind a fixed prefix. *)

Fixpoint pos_bits (p : positive) : string :=
  match p with
  | xH => EmptyString
  | xO q => String "0"%char (pos_bits q)
  | xI q => String "1"%char (pos_bits q)
  end.

Fixpoint bits_pos (t : string) : positive :=
  match t with
  | EmptyString => xH
  | String c r => if Ascii.eqb c "1"%char then xI (bits_pos r) else xO (bits_pos r)
  end.

Definition encode_id (z : Z) : string :=
  match z with
  | Z0 => "z"
  | Zpos p => String "p"%char (pos_bits p)
  | Zneg p => String "n"%char (pos_bits p)
  end.

Definition decode_id (t : string) : option Z :=
  match t with
  | String c r =>
      if Ascii.eqb c "z"%char then Some Z0
      else if Ascii.eqb c "p"%char then Some (Zpos (bits_pos r))
      else if Ascii.eqb c "n"%char then Some (Zneg (bits_pos r))
      else None
  | EmptyString => None
  end.

(** Splits a token at its first dot. *)
Fixpoint split_dot (t : string) : option (string * string) :=
  match t with
  | EmptyString => None
  | String c r =>
      if Ascii.eqb c "."%char
      then Some (EmptyString, r)
      else match split_dot r with
           | Some (a, b) => Some (String c a, b)
           | None => None
           end
  end.

Definition demo_sign (payload : claims) (secret expiresIn : string) : string :=
  String.append (encode_id (claim_id payload)) (String "."%char (claim_email payload)).

Definition demo_verify (token secret : string) : option claims :=
  match split_dot token with
  | Some (a, b) =>
      match decode_id a with
      | Some z => Some (mkClaims z b)
      | None => None
      end
  | None => None
  end.

Definition demo_compare (password hash : string) : bool :=
  String.eqb hash (String.append "$2a$10$" password).

(** ** Scenario

    The scenario of the specification: Alice and Bob register, Alice creates
    an event with five seats and books three of them. *)

Definition scenario_trace : list request :=
  [ PostRegister "Alice" "alice@example.org" "$2a$10$alice";
    PostRegister "Bob" "bob@example.org" "$2a$10$bob";
    PostEvents 1 "Concert" None (Some "2030-01-01") "Main hall" 5 ].

Definition booked_trace : list request :=
  scenario_trace ++ [ PostBookings 1 1 3 ].

(** A user registers and creates an event with [available_seats = -1]:
    [POST /api/events] stores the number it is given. *)
Definition negative_trace : list request :=
  [ PostRegister "Alice" "alice@example.org" "$2a$10$alice";
    PostEvents 1 "Concert" None (Some "2030-01-01") "Main hall" (-1) ].


(** The scenario with Alice's booking, then the owner of the event sets it
    to 2147483647 available seats. *)
Definition full_trace : list request :=
  booked_trace
  ++ [ PutEvents 1 1 "Concert" None (Some "2030-01-01") "Main hall" 2147483647 ].

(** A text that no [VARCHAR(100)] column takes. *)
Definition text_of_101_characters : string :=
  "aaaaaaaaaaaaaaaaaaaaaaaaaaaaaaaaaaaaaaaaaaaaaaaaaaaaaaaaaaaaaaaaaaaaaaaaaaaaaaaaaaaaaaaaaaaaaaaaaaaaa".

(** A store whose sequence of booking ids has given out its last id: Alice,
    her event with five seats, and no booking left. *)
Definition exhausted_store : Store :=
  mkStore
    [ Users.mk 1 "Alice" "alice@example.org" "$2a$10$alice" ]
    [ Events.mk 1 "Concert" None "2030-01-01" "Main hall" 5 1 ]
    []
    1 1 2147483647.

(** ** The token check in front of the protected routes *)

(** [t.split(' ')]: the pieces of [t] between its spaces, empty pieces
    included. *)
Fixpoint split_space (t : string) : list string :=
  match t with
  | EmptyString => [EmptyString]
  | String c r =>
      if Ascii.eqb c " "%char
      then EmptyString :: split_space r
      else match split_space r with
           | w :: ws => String c w :: ws
           | [] => [String c EmptyString]
           end
  end.

(** [t] holds no space. *)
Fixpoint no_space (t : string) : bool :=
  match t with
  | EmptyString => true
  | String c r => negb (Ascii.eqb c " "%char) && no_space r
  end.

(** What [authenticateToken] does with a request: it answers with a bare
    status, or calls [next()] after setting [req.user]. *)
Inductive authentication : Type :=
| SendStatus (code : Z)
| Next (user : claims).

Section Middleware.

Variable JWT_SECRET : string.
Variable jwt_verify : string -> string -> option claims.

(** [authenticateToken]; [authorization] is [req.headers['authorization']],
    [None] when the request has no such header.  [jwt_verify] returns [None]
    where [jwt.verify] calls back with an error. *)
Definition authenticateToken (authorization : option string) : authentication :=
  let token :=
    match authorization with
    | None => None
    | Some authHeader =>
        if falsy_string authHeader then Some authHeader
        else nth_error (split_space authHeader) 1
    end in
  match token with
  | None => SendStatus 401
  | Some token =>
      if falsy_string token then SendStatus 401
      else
        match jwt_verify token JWT_SECRET with
        | None => SendStatus 403
        | Some user => Next user
        end
  end.

End Middleware.

(** ** One event with the requester's booking status *)








(** The seats booked on an event and the seats it still offers, added up. *)
Definition booked_seats (event_id : Z) (s : Store) : Z :=
  fold_right Z.add 0
    (map Bookings.seats (filter (fun b => Bookings.event_id b =? event_id) (bookings s))).

Definition seats_total (event_id : Z) (s : Store) : Z :=
  fold_right Z.add 0 (available_seats_of event_id s) + booked_seats event_id s.

(** ** The constraints of the schema *)

Definition booking_key (b : Bookings.row) : Z * Z :=
  (Bookings.event_id b, Bookings.user_id b).

(** A row fits the types of its columns.  ([users.id] is what
    [events.user_id] and [bookings.user_id] reference, so these are
    [INTEGER]s by the foreign keys.) *)
Definition typed_user (u : Users.row) : bool :=
  integer (Users.id u)
  && (fits_100 (Users.name u) && fits_100 (Users.email u)
      && fits_100 (Users.password u)).

Definition typed_event (e : Events.row) : bool :=
  integer (Events.id e)
  && (fits_100 (Events.title e) && fits_100 (Events.location e))
  && integer (Events.available_seats e).

Definition typed_booking (b : Bookings.row) : bool :=
  integer (Bookings.id b) && (integer (Bookings.event_id b) && integer (Bookings.seats b)).

(** The column types: every row fits the types of its columns, and a
    sequence has given out at most 2147483647. *)
Record column_types (s : Store) : Prop := mkColumnTypes
  { users_typed : Forall (fun u => typed_user u = true) (users s);
    users_id_seq_integer : 0 <= users_id_seq s <= INTEGER_MAX;
    events_typed : Forall (fun e => typed_event e = true) (events s);
    events_id_seq_integer : 0 <= events_id_seq s <= INTEGER_MAX;
    bookings_typed : Forall (fun b => typed_booking b = true) (bookings s);
    bookings_id_seq_integer : 0 <= bookings_id_seq s <= INTEGER_MAX }.

(** What [initializeDatabase] declares: the three primary keys (with ids
    drawn from the sequences), [UNIQUE] on [users.email] and on
    [bookings (event_id, user_id)], the three foreign keys, and the types of
    the columns. *)
Record constraints (s : Store) : Prop := mkConstraints
  { users_pkey : NoDup (map Users.id (users s));
    users_id_drawn : Forall (fun u => Users.id u <= users_id_seq s) (users s);
    users_email_key : NoDup (map Users.email (users s));
    events_pkey : NoDup (map Events.id (events s));
    events_id_drawn : Forall (fun e => Events.id e <= events_id_seq s) (events s);
    events_user_id_fkey :
      Forall (fun e => user_exists (Events.user_id e) s = true) (events s);
    bookings_pkey : NoDup (map Bookings.id (bookings s));
    bookings_id_drawn : Forall (fun b => Bookings.id b <= bookings_id_seq s) (bookings s);
    bookings_event_id_user_id_key : NoDup (map booking_key (bookings s));
    bookings_event_id_fkey :
      Forall (fun b => event_exists (Bookings.event_id b) s = true) (bookings s);
    bookings_user_id_fkey :
      Forall (fun b => user_exists (Bookings.user_id b) s = true) (bookings s);
    columns : column_types s }.

(** Every booking holds a positive number of seats. *)
Definition bookings_positive (s : Store) : Prop :=
  Forall (fun b => 0 < Bookings.seats b) (bookings s).

(** Every event has a non-negative number of available seats. *)
Definition seats_nonneg (s : Store) : Prop :=
  Forall (fun e => 0 <= Events.available_seats e) (events s).

(** The user [user_id] holds a booking on the event [event_id]. *)
Definition has_booking (event_id user_id : Z) (s : Store) : Prop :=
  exists b, In b (bookings s)
            /\ Bookings.event_id b = event_id /\ Bookings.user_id b = user_id.

(** The store after the [DELETE] of the booking [b]. *)
Definition without_booking (b : Bookings.row) (s : Store) : Store :=
  with_bookings
    (filter (fun x => negb (booking_is (Bookings.id b) (Bookings.user_id b) x)) (bookings s))
    (bookings_id_seq s) s.

(** The store after the [UPDATE] of the seats of the booking [id]. *)
Definition with_seats_of_booking (seats id : Z) (s : Store) : Store :=
  with_bookings
    (map (fun b => if Bookings.id b =? id then Bookings.set_seats seats b else b)
       (bookings s))
    (bookings_id_seq s) s.


(** A query keeps a property of the store, whatever it returns or throws. *)
Definition preserves {A : Type} (P : Store -> Prop) (q : Query A) : Prop :=
  forall s, P s -> P (snd (q s)).

(** ** Lists as tables *)

Section Tables.

Context {A K : Type}.
Variable key : A -> K.

Lemma map_key_update (p : A -> bool) (f : A -> A) (l : list A) :
  (forall a, key (f a) = key a) ->
  map key (map (fun a => if p a then f a else a) l) = map key l.
Proof.
  intros Hf. rewrite map_map. apply map_ext.
  intros a. destruct (p a); auto.
Qed.

Lemma In_map_filter (p : A -> bool) (l : list A) (k : K) :
  In k (map key (filter p l)) -> In k (map key l).
Proof.
  rewrite !in_map_iff. intros [a [Hk Ha]].
  apply filter_In in Ha. exists a. tauto.
Qed.

Lemma NoDup_map_filter (p : A -> bool) (l : list A) :
  NoDup (map key l) -> NoDup (map key (filter p l)).
Proof.
  induction l as [|a l IH]; simpl; intros H.
  - constructor.
  - inversion H as [|? ? Hnotin Hrest]; subst.
    destruct (p a); simpl; auto.
    constructor; auto.
    intros Hin. apply Hnotin. eapply In_map_filter; eauto.
Qed.

Lemma NoDup_map_snoc (l : list A) (a : A) :
  NoDup (map key l) -> ~ In (key a) (map key l) -> NoDup (map key (l ++ [a])).
Proof.
  intros Hl Ha. rewrite map_app. simpl.
  apply NoDup_app; auto.
  - repeat constructor. simpl. tauto.
  - intros k Hk [Heq | []]. subst. contradiction.
Qed.

Lemma filter_none (p : A -> bool) (l : list A) :
  (forall b, In b l -> p b = false) -> filter p l = [].
Proof.
  induction l as [|x l IH]; simpl; intros H; auto.
  rewrite (H x) by auto. apply IH. intros b Hb. apply H. auto.
Qed.

(** A [SELECT] on a key returns the one row that holds it. *)
Lemma filter_key (p : A -> bool) (l : list A) (a : A) :
  NoDup (map key l) -> In a l -> p a = true ->
  (forall b, In b l -> p b = true -> key b = key a) ->
  filter p l = [a].
Proof.
  induction l as [|x l IH]; simpl; intros Hnd Hin Hpa Hsame.
  - contradiction.
  - inversion Hnd as [|? ? Hnotin Hrest]; subst.
    destruct Hin as [-> | Hin].
    + rewrite Hpa. f_equal. apply filter_none.
      intros b Hb. destruct (p b) eqn:Hpb; auto.
      exfalso. apply Hnotin. rewrite <- (Hsame b); auto using in_map.
    + destruct (p x) eqn:Hx.
      * exfalso. apply Hnotin. rewrite (Hsame x); auto using in_map.
      * apply IH; auto.
Qed.

End Tables.

(** ** Every statement keeps the constraints *)

Lemma Forall_update {A : Type} (P : A -> Prop) (p : A -> bool) (f : A -> A) (l : list A) :
  (forall a, P a -> P (f a)) ->
  Forall P l -> Forall P (map (fun a => if p a then f a else a) l).
Proof.
  intros Hf Hl. apply Forall_map. eapply Forall_impl; [|exact Hl].
  intros a Ha. simpl. destruct (p a); auto.
Qed.

Lemma Forall_update_where {A : Type} (P : A -> Prop) (p : A -> bool) (f : A -> A)
  (l : list A) :
  (forall a, In a l -> p a = true -> P a -> P (f a)) ->
  Forall P l -> Forall P (map (fun a => if p a then f a else a) l).
Proof.
  intros Hf Hl. apply Forall_map. rewrite Forall_forall in *.
  intros a Ha. destruct (p a) eqn:Hp; auto.
Qed.

Lemma Forall_filter {A : Type} (P : A -> Prop) (p : A -> bool) (l : list A) :
  Forall P l -> Forall P (filter p l).
Proof.
  rewrite !Forall_forall. intros H a Ha. apply filter_In in Ha. apply H. tauto.
Qed.

Lemma Forall_snoc {A : Type} (P : A -> Prop) (l : list A) (a : A) :
  Forall P l -> P a -> Forall P (l ++ [a]).
Proof. intros Hl Ha. apply Forall_app. split; auto. Qed.

Lemma Forall_weaken {A : Type} (P Q : A -> Prop) (l : list A) :
  (forall a, In a l -> P a -> Q a) -> Forall P l -> Forall Q l.
Proof.
  rewrite !Forall_forall. intros H HP a Ha. auto.
Qed.

Lemma drawn_fresh {A : Type} (id : A -> Z) (seq : Z) (l : list A) :
  Forall (fun a => id a <= seq) l -> ~ In (seq + 1) (map id l).
Proof.
  rewrite Forall_forall. intros H Hin.
  apply in_map_iff in Hin. destruct Hin as [a [Heq Ha]].
  apply H in Ha. lia.
Qed.

Lemma existsb_update {A : Type} (q p : A -> bool) (f : A -> A) (l : list A) :
  (forall a, q (f a) = q a) ->
  existsb q (map (fun a => if p a then f a else a) l) = existsb q l.
Proof.
  intros Hf. induction l as [|a l IH]; simpl; auto.
  rewrite IH. destruct (p a); rewrite ?Hf; reflexivity.
Qed.

Lemma existsb_snoc {A : Type} (q : A -> bool) (l : list A) (a : A) :
  existsb q l = true -> existsb q (l ++ [a]) = true.
Proof. intros H. rewrite existsb_app, H. reflexivity. Qed.

Lemma existsb_false {A : Type} (q : A -> bool) (l : list A) :
  existsb q l = false -> forall a, In a l -> q a = false.
Proof.
  intros H a Ha. destruct (q a) eqn:Hq; auto.
  rewrite <- H. symmetry. apply existsb_exists. exists a. auto.
Qed.

Lemma existsb_false_notin {A K : Type} (key : A -> K) (q : A -> bool) (k : K) (l : list A) :
  (forall a, key a = k -> q a = true) ->
  existsb q l = false -> ~ In k (map key l).
Proof.
  intros Hq Hex Hin. apply in_map_iff in Hin. destruct Hin as [a [Hk Ha]].
  assert (existsb q l = true) by (apply existsb_exists; exists a; auto).
  congruence.
Qed.

Lemma integer_range (n : Z) :
  integer n = true <-> -2147483648 <= n <= 2147483647.
Proof.
  unfold integer, INTEGER_MIN, INTEGER_MAX.
  rewrite andb_true_iff, !Z.leb_le. tauto.
Qed.

(** The next id of a sequence that has not run out is an [INTEGER]. *)
Lemma integer_nextval (seq : Z) :
  0 <= seq <= INTEGER_MAX -> (INTEGER_MAX <=? seq) = false ->
  integer (seq + 1) = true /\ 0 <= seq + 1 <= INTEGER_MAX.
Proof.
  intros Hseq Hroom. apply Z.leb_gt in Hroom.
  rewrite integer_range. unfold INTEGER_MAX in *. lia.
Qed.

Lemma first_characters_length (n : nat) (t : string) :
  (String.length (first_characters n t) <= n)%nat.
Proof.
  revert n. induction t as [|c r IH]; intros [|m]; simpl; try lia.
  specialize (IH m). lia.
Qed.

(** What a [VARCHAR(100)] column stores has at most a hundred characters. *)
Lemma fits_stored (t : string) : fits_100 (stored_100 t) = true.
Proof. apply Nat.leb_le. apply first_characters_length. Qed.

Lemma short_characters (n : nat) (t : string) :
  (String.length t <= n)%nat ->
  first_characters n t = t /\ after_characters n t = EmptyString.
Proof.
  revert n. induction t as [|c r IH]; intros [|m]; simpl; auto; try lia.
  intros H. destruct (IH m) as [H1 H2]; [lia|]. rewrite H1, H2. auto.
Qed.

(** A text of at most a hundred characters is stored as it is. *)
Lemma fits_varchar (t : string) :
  fits_100 t = true -> varchar_100 t = true /\ stored_100 t = t.
Proof.
  intros H. apply Nat.leb_le in H.
  destruct (short_characters 100 t H) as [H1 H2].
  unfold varchar_100, stored_100. rewrite H1, H2. auto.
Qed.

Section Preservation.

Variable P : Store -> Prop.

Lemma preserves_ret {A : Type} (a : A) : preserves P (ret a).
Proof. intros s H. exact H. Qed.

Lemma preserves_throw {A : Type} (e : error) : preserves P (@throw A e).
Proof. intros s H. exact H. Qed.

Lemma preserves_bind {A B : Type} (q : Query A) (k : A -> Query B) :
  preserves P q -> (forall a, preserves P (k a)) -> preserves P (bind q k).
Proof.
  intros Hq Hk s H. unfold bind.
  specialize (Hq s H).
  destruct (q s) as [[a | e] s']; simpl in *.
  - apply Hk. exact Hq.
  - exact Hq.
Qed.

Lemma preserves_try_catch (body : Query response) (on_error : error -> response) :
  preserves P body -> forall s, P s -> P (snd (try_catch body on_error s)).
Proof.
  intros Hbody s H. unfold try_catch.
  specialize (Hbody s H).
  destruct (body s) as [[r | e] s']; exact Hbody.
Qed.

(** A statement keeps what it keeps when its parameters are accepted. *)
Lemma preserves_parameters {A : Type} (ok : bool) (code : string) (q : Query A) :
  (ok = true -> preserves P q) -> preserves P (parameters ok code q).
Proof.
  intros Hq s H. unfold parameters. destruct ok; [apply Hq; auto | exact H].
Qed.

Lemma preserves_event_parameters {A : Type} (title : string) (date : option string)
  (location : string) (available_seats : Z) (q : string -> Query A) :
  (forall d, integer available_seats = true ->
             varchar_100 title && varchar_100 location = true -> preserves P (q d)) ->
  preserves P (event_parameters title date location available_seats q).
Proof.
  intros Hq. unfold event_parameters. destruct date as [d|].
  - apply preserves_parameters. intros Hn.
    apply preserves_parameters. intros Ht. auto.
  - apply preserves_throw.
Qed.

End Preservation.

(** [UPDATE events] on columns other than [id] and [user_id], to values that
    the columns take. *)
Lemma constraints_update_events (p : Events.row -> bool) (f : Events.row -> Events.row)
  (s : Store) :
  (forall e, Events.id (f e) = Events.id e) ->
  (forall e, Events.user_id (f e) = Events.user_id e) ->
  (forall e, In e (events s) -> p e = true -> typed_event e = true ->
             typed_event (f e) = true) ->
  constraints s ->
  constraints
    (with_events (map (fun e => if p e then f e else e) (events s)) (events_id_seq s) s).
Proof.
  intros Hid Huser Hty [Hup Hud Hue Hep Hed Heu Hbp Hbd Hbk Hbe Hbu []].
  constructor; simpl; auto.
  - rewrite map_key_update; auto.
  - apply Forall_update; auto. intros e. rewrite Hid. auto.
  - apply Forall_update; auto. intros e. rewrite Huser. auto.
  - eapply Forall_impl; [|exact Hbe].
    intros b Hb. unfold event_exists in *. simpl.
    rewrite existsb_update; auto. intros e. rewrite Hid. reflexivity.
  - constructor; simpl; auto. apply Forall_update_where; auto.
Qed.

(** [DELETE FROM bookings] and [UPDATE bookings SET seats]. *)
Lemma constraints_filter_bookings (p : Bookings.row -> bool) (s : Store) :
  constraints s ->
  constraints (with_bookings (filter p (bookings s)) (bookings_id_seq s) s).
Proof.
  intros [? ? ? ? ? ? ? ? ? ? ? []].
  constructor; simpl; auto using NoDup_map_filter, Forall_filter.
  constructor; simpl; auto using Forall_filter.
Qed.

Lemma constraints_update_bookings (p : Bookings.row -> bool) (n : Z) (s : Store) :
  integer n = true ->
  constraints s ->
  constraints
    (with_bookings (map (fun b => if p b then Bookings.set_seats n b else b) (bookings s))
       (bookings_id_seq s) s).
Proof.
  intros Hn [? ? ? ? ? ? ? ? ? ? ? []].
  constructor; simpl; auto; try (rewrite map_key_update; auto);
    try (apply Forall_update; auto).
  constructor; simpl; auto. apply Forall_update; auto.
  intros b. unfold typed_booking. simpl. rewrite Hn, !andb_true_iff. tauto.
Qed.

Lemma constraints_insert_user (name email password : string) :
  preserves constraints (insert_user name email password).
Proof.
  apply preserves_parameters.
  intros Hok s Hc. pose proof Hc as [Hup Hud Hue Hep Hed Heu Hbp Hbd Hbk Hbe Hbu []].
  cbv beta zeta. cbn [Users.email].
  destruct (INTEGER_MAX <=? users_id_seq s) eqn:Hroom; [exact Hc|].
  destruct (integer_nextval (users_id_seq s)) as [Hid Hseq]; auto.
  destruct (existsb _ (users s)) eqn:Hemail; simpl.
  - constructor; simpl; auto.
    + eapply Forall_impl; [|exact Hud]. simpl. intros u Hu. lia.
    + constructor; simpl; auto.
  - constructor; simpl; auto.
    + apply NoDup_map_snoc; auto. eapply drawn_fresh. exact Hud.
    + apply Forall_snoc; simpl; [|lia].
      eapply Forall_impl; [|exact Hud]. simpl. intros u Hu. lia.
    + apply NoDup_map_snoc; auto. simpl.
      eapply existsb_false_notin; [|exact Hemail].
      intros u Hu. apply String.eqb_eq. exact Hu.
    + eapply Forall_impl; [|exact Heu].
      intros e He. apply existsb_snoc. exact He.
    + eapply Forall_impl; [|exact Hbu].
      intros b Hb. apply existsb_snoc. exact Hb.
    + constructor; simpl; auto. apply Forall_snoc; auto.
      unfold typed_user. simpl. rewrite Hid, !fits_stored. reflexivity.
Qed.

(** Changing the email of the row [id] keeps the emails distinct when no
    other row holds the new one. *)
Lemma update_email_key (id : Z) (f : Users.row -> Users.row) (email : string)
  (l : list Users.row) :
  (forall u, Users.email (f u) = email) ->
  NoDup (map Users.id l) ->
  NoDup (map Users.email l) ->
  existsb (fun u => negb (Users.id u =? id) && String.eqb (Users.email u) email) l = false ->
  NoDup (map Users.email (map (fun u => if Users.id u =? id then f u else u) l)).
Proof.
  intros Hf. induction l as [|x l IH]; simpl; intros Hid Hemail Hother.
  - constructor.
  - inversion Hid as [|? ? Hxid Hids]; subst.
    inversion Hemail as [|? ? Hxemail Hemails]; subst.
    apply orb_false_iff in Hother. destruct Hother as [Hx Hl].
    constructor; [|auto].
    rewrite map_map. intros Hin. apply in_map_iff in Hin.
    destruct Hin as [u [Hu Hinu]].
    assert (Hu_other :
      negb (Users.id u =? id) && String.eqb (Users.email u) email = false).
    { exact (existsb_false _ _ Hl u Hinu). }
    destruct (Users.id x =? id) eqn:Hxeq; destruct (Users.id u =? id) eqn:Hueq;
      simpl in *.
    + apply Hxid. apply Z.eqb_eq in Hxeq, Hueq. rewrite Hxeq, <- Hueq.
      apply in_map. exact Hinu.
    + rewrite Hf in Hu. apply String.eqb_neq in Hu_other. congruence.
    + rewrite Hf in Hu. apply String.eqb_neq in Hx. congruence.
    + apply Hxemail. rewrite <- Hu. apply in_map. exact Hinu.
Qed.

Lemma update_absent {A : Type} (p : A -> bool) (f : A -> A) (l : list A) :
  existsb p l = false -> map (fun a => if p a then f a else a) l = l.
Proof.
  induction l as [|a l IH]; simpl; intros H; auto.
  apply orb_false_iff in H. destruct H as [Ha Hl].
  rewrite Ha, IH; auto.
Qed.

Lemma constraints_update_user (name email : string) (password : option string) (id : Z) :
  preserves constraints (update_user name email password id).
Proof.
  apply preserves_parameters.
  intros Hok s Hc. pose proof Hc as [Hup Hud Hue Hep Hed Heu Hbp Hbd Hbk Hbe Hbu []].
  cbv beta zeta.
  destruct (user_exists id s && _) eqn:Hclash; simpl.
  - exact Hc.
  - constructor; simpl; auto.
    + rewrite map_key_update; auto.
    + apply Forall_update; auto.
    + apply andb_false_iff in Hclash. destruct Hclash as [Habsent | Hfree].
      * unfold user_exists in Habsent. rewrite update_absent; auto.
      * apply (update_email_key id _ (stored_100 email)); auto.
    + eapply Forall_impl; [|exact Heu].
      intros e He. unfold user_exists in *. simpl.
      rewrite existsb_update; auto.
    + eapply Forall_impl; [|exact Hbu].
      intros b Hb. unfold user_exists in *. simpl.
      rewrite existsb_update; auto.
    + constructor; simpl; auto. apply Forall_update; auto.
      intros u. unfold typed_user. simpl. rewrite !fits_stored.
      rewrite !andb_true_iff. intros [Hi [_ Hp]].
      destruct password; rewrite ?fits_stored; auto.
Qed.

Lemma constraints_insert_event (title : string) (description : option string)
  (date : option string) (location : string) (available_seats user_id : Z) :
  preserves constraints
    (insert_event title description date location available_seats user_id).
Proof.
  apply preserves_event_parameters.
  intros d Hn Ht s Hc. pose proof Hc as [Hup Hud Hue Hep Hed Heu Hbp Hbd Hbk Hbe Hbu []].
  cbv beta.
  destruct (INTEGER_MAX <=? events_id_seq s) eqn:Hroom; [exact Hc|].
  destruct (integer_nextval (events_id_seq s)) as [Hid Hseq]; auto.
  destruct (user_exists user_id s) eqn:Huser; simpl.
  - constructor; simpl; auto.
    + apply NoDup_map_snoc; auto. eapply drawn_fresh. exact Hed.
    + apply Forall_snoc; simpl; [|lia].
      eapply Forall_impl; [|exact Hed]. simpl. intros e He. lia.
    + apply Forall_snoc; auto.
    + eapply Forall_impl; [|exact Hbe].
      intros b Hb. apply existsb_snoc. exact Hb.
    + constructor; simpl; auto. apply Forall_snoc; auto.
      unfold typed_event. simpl. rewrite Hid, !fits_stored, Hn. reflexivity.
  - constructor; simpl; auto.
    + eapply Forall_impl; [|exact Hed]. simpl. intros e He. lia.
    + constructor; simpl; auto.
Qed.

Lemma constraints_delete_events_where (p : Events.row -> bool) :
  preserves constraints (delete_events_where p).
Proof.
  intros s Hc. pose proof Hc as [Hup Hud Hue Hep Hed Heu Hbp Hbd Hbk Hbe Hbu []].
  unfold delete_events_where.
  destruct (referenced _ s) eqn:Href; simpl.
  - exact Hc.
  - constructor; simpl; auto using NoDup_map_filter, Forall_filter.
    + eapply Forall_weaken; [|exact Hbe].
      intros b Hin Hb. unfold event_exists in *. simpl.
      apply existsb_exists in Hb. destruct Hb as [e [He Hid]].
      apply existsb_exists. exists e. split; auto.
      apply filter_In. split; auto.
      destruct (p e) eqn:Hp; auto.
      unfold referenced in Href.
      pose proof (existsb_false _ _ Href b Hin) as Hnone. simpl in Hnone.
      rewrite (existsb_false _ _ Hnone e) in Hid; [discriminate|].
      apply filter_In. auto.
    + constructor; simpl; auto using Forall_filter.
Qed.

Lemma constraints_insert_booking (event_id user_id seats : Z) :
  preserves constraints (insert_booking event_id user_id seats).
Proof.
  apply preserves_parameters.
  intros Hok s Hc. pose proof Hc as [Hup Hud Hue Hep Hed Heu Hbp Hbd Hbk Hbe Hbu []].
  assert (Hseq : Forall (fun b => Bookings.id b <= bookings_id_seq s + 1) (bookings s)).
  { eapply Forall_impl; [|exact Hbd]. simpl. intros b Hb. lia. }
  cbv beta.
  destruct (INTEGER_MAX <=? bookings_id_seq s) eqn:Hroom; [exact Hc|].
  destruct (integer_nextval (bookings_id_seq s)) as [Hid Hnext]; auto.
  destruct (existsb _ (bookings s)) eqn:Hdup; simpl.
  - constructor; simpl; auto. constructor; simpl; auto.
  - destruct (event_exists event_id s && user_exists user_id s) eqn:Hfk; simpl.
    + apply andb_true_iff in Hfk. destruct Hfk as [Hevent Huser].
      constructor; simpl; auto.
      * apply NoDup_map_snoc; auto. eapply drawn_fresh. exact Hbd.
      * apply Forall_snoc; simpl; auto. lia.
      * apply NoDup_map_snoc; auto. simpl.
        eapply existsb_false_notin; [|exact Hdup].
        intros b Hb. unfold booking_key in Hb. inversion Hb. unfold booking_of.
        rewrite !Z.eqb_refl. reflexivity.
      * apply Forall_snoc; auto.
      * apply Forall_snoc; auto.
      * constructor; simpl; auto. apply Forall_snoc; auto.
        unfold typed_booking. simpl. rewrite Hid, Hok. reflexivity.
    + constructor; simpl; auto. constructor; simpl; auto.
Qed.

(** ** Handlers keep what their statements keep *)

(** Splits a handler body into its statements, keeping what each test has
    established. *)
Ltac split_body :=
  repeat first
    [ apply preserves_ret
    | apply preserves_throw
    | apply preserves_bind; [|intros ?]
    | match goal with
      | |- preserves _ (if ?c then _ else _) => destruct c eqn:?
      | |- preserves _ (match ?x with _ => _ end) => destruct x eqn:?
      end ].

Ltac positive_seats :=
  match goal with
  | H : falsy_number ?k || (?k <=? 0) = false |- _ =>
      apply orb_false_iff in H; destruct H as [_ H]; apply Z.leb_gt in H
  end.

Create HintDb schema.

Lemma constraints_select_users_by_email (email : string) :
  preserves constraints (select_users_by_email email).
Proof. intros s H. exact H. Qed.

Lemma constraints_select_event (id : Z) : preserves constraints (select_event id).
Proof. apply preserves_parameters. intros _ s H. exact H. Qed.

Lemma constraints_select_available_seats (id : Z) :
  preserves constraints (select_available_seats id).
Proof. apply preserves_parameters. intros _ s H. exact H. Qed.

Lemma constraints_select_bookings_of (event_id user_id : Z) :
  preserves constraints (select_bookings_of event_id user_id).
Proof. apply preserves_parameters. intros _ s H. exact H. Qed.

Lemma constraints_select_booking (id user_id : Z) :
  preserves constraints (select_booking id user_id).
Proof. apply preserves_parameters. intros _ s H. exact H. Qed.

Lemma constraints_update_event (title : string) (description : option string)
  (date : option string) (location : string) (available_seats id user_id : Z) :
  preserves constraints
    (update_event title description date location available_seats id user_id).
Proof.
  apply preserves_event_parameters. intros d Hn Ht.
  apply preserves_parameters. intros _ s H.
  apply constraints_update_events; auto.
  intros e _ _. unfold typed_event. simpl. rewrite !fits_stored, Hn, !andb_true_iff. tauto.
Qed.

Lemma constraints_update_available_seats (f : Z -> Z) (id : Z) :
  preserves constraints (update_available_seats f id).
Proof.
  intros s H. unfold update_available_seats.
  destruct (forallb _ (events s)) eqn:Hfits; [|exact H].
  apply (constraints_update_events (fun e => Events.id e =? id)
           (fun e => Events.set_available_seats (f (Events.available_seats e)) e)); auto.
  intros e He Hid. rewrite forallb_forall in Hfits. specialize (Hfits e He).
  rewrite Hid in Hfits. simpl in Hfits.
  unfold typed_event. simpl. rewrite Hfits, !andb_true_iff. tauto.
Qed.

Lemma constraints_take_seats (n id : Z) : preserves constraints (take_seats n id).
Proof. apply preserves_parameters. intros _. apply constraints_update_available_seats. Qed.

Lemma constraints_return_seats (n id : Z) : preserves constraints (return_seats n id).
Proof. apply preserves_parameters. intros _. apply constraints_update_available_seats. Qed.

Lemma constraints_rename_room (newName oldName : string) (user_id : Z) :
  preserves constraints (rename_room newName oldName user_id).
Proof.
  apply preserves_parameters. intros Hok s H. apply constraints_update_events; auto.
  intros e _ _. unfold typed_event. simpl. rewrite fits_stored, !andb_true_iff. tauto.
Qed.

Lemma constraints_delete_event (id user_id : Z) :
  preserves constraints (delete_event id user_id).
Proof. apply preserves_parameters. intros _. apply constraints_delete_events_where. Qed.

Lemma constraints_delete_events_in_room (room : string) (user_id : Z) :
  preserves constraints (delete_events_in_room room user_id).
Proof. apply constraints_delete_events_where. Qed.

Lemma constraints_update_booking_seats (seats id : Z) :
  preserves constraints (update_booking_seats seats id).
Proof.
  apply preserves_parameters. intros Hok s H.
  apply andb_true_iff in Hok. apply constraints_update_bookings; tauto.
Qed.

Lemma constraints_delete_booking (id user_id : Z) :
  preserves constraints (delete_booking id user_id).
Proof.
  apply preserves_parameters. intros _ s H. apply constraints_filter_bookings. exact H.
Qed.

Lemma constraints_delete_bookings_of_event (event_id : Z) :
  preserves constraints (delete_bookings_of_event event_id).
Proof.
  apply preserves_parameters. intros _ s H. apply constraints_filter_bookings. exact H.
Qed.

Lemma constraints_delete_bookings_in_room (room : string) (user_id : Z) :
  preserves constraints (delete_bookings_in_room room user_id).
Proof. intros s H. apply constraints_filter_bookings. exact H. Qed.

#[export] Hint Resolve
  constraints_select_users_by_email constraints_select_event
  constraints_select_available_seats
  constraints_select_bookings_of constraints_select_booking
  constraints_insert_user constraints_update_user
  constraints_insert_event constraints_update_event
  constraints_take_seats constraints_return_seats constraints_rename_room
  constraints_delete_event constraints_delete_events_in_room
  constraints_insert_booking constraints_update_booking_seats
  constraints_delete_booking constraints_delete_bookings_of_event
  constraints_delete_bookings_in_room : schema.

Lemma constraints_empty_store : constraints empty_store.
Proof.
  constructor; simpl; try constructor; simpl; try constructor;
    unfold INTEGER_MAX; lia.
Qed.

(** Every handler keeps the constraints of the schema. *)
Lemma handle_constraints (r : request) (s : Store) :
  constraints s -> constraints (snd (handle r s)).
Proof.
  destruct r; simpl; apply preserves_try_catch; split_body; auto with schema.
Qed.

Lemma reachable_constraints (s : Store) : reachable s -> constraints s.
Proof.
  induction 1 as [|r s Hs IH].
  - apply constraints_empty_store.
  - apply handle_constraints. exact IH.
Qed.

(** ** Reading rows by key *)

Lemma parameters_accepted {A : Type} (ok : bool) (code : string) (q : Query A) (s : Store) :
  ok = true -> parameters ok code q s = q s.
Proof. intros ->. reflexivity. Qed.

Lemma parameters_refused {A : Type} (ok : bool) (code : string) (q : Query A) (s : Store) :
  ok = false -> parameters ok code q s = (inr (PgError code), s).
Proof. intros ->. reflexivity. Qed.

(** What a table holds is of the types of its columns. *)
Lemma event_typed (s : Store) (e : Events.row) :
  constraints s -> In e (events s) ->
  integer (Events.id e) = true
  /\ fits_100 (Events.title e) = true /\ fits_100 (Events.location e) = true
  /\ integer (Events.available_seats e) = true.
Proof.
  intros Hc He. pose proof (events_typed s (columns s Hc)) as H.
  rewrite Forall_forall in H. specialize (H e He).
  unfold typed_event in H. rewrite !andb_true_iff in H. tauto.
Qed.

Lemma booking_typed (s : Store) (b : Bookings.row) :
  constraints s -> In b (bookings s) ->
  integer (Bookings.id b) = true /\ integer (Bookings.event_id b) = true
  /\ integer (Bookings.seats b) = true.
Proof.
  intros Hc Hb. pose proof (bookings_typed s (columns s Hc)) as H.
  rewrite Forall_forall in H. specialize (H b Hb).
  unfold typed_booking in H. rewrite !andb_true_iff in H. tauto.
Qed.

Lemma user_typed (s : Store) (u : Users.row) :
  constraints s -> In u (users s) ->
  integer (Users.id u) = true
  /\ fits_100 (Users.name u) = true /\ fits_100 (Users.email u) = true
  /\ fits_100 (Users.password u) = true.
Proof.
  intros Hc Hu. pose proof (users_typed s (columns s Hc)) as H.
  rewrite Forall_forall in H. specialize (H u Hu).
  unfold typed_user in H. rewrite !andb_true_iff in H. tauto.
Qed.

Lemma has_booking_integer (s : Store) (event_id user_id : Z) :
  constraints s -> has_booking event_id user_id s -> integer event_id = true.
Proof.
  intros Hc [b [Hb [<- _]]]. apply (booking_typed s b); assumption.
Qed.

Lemma filter_nil {A : Type} (p : A -> bool) (l : list A) :
  filter p l = [] -> forall a, In a l -> p a = false.
Proof.
  intros H a Ha. destruct (p a) eqn:Hp; auto.
  assert (Hin : In a (filter p l)) by (apply filter_In; auto).
  rewrite H in Hin. contradiction.
Qed.

Lemma filter_head {A : Type} (p : A -> bool) (l : list A) (a : A) (rest : list A) :
  filter p l = a :: rest -> In a l /\ p a = true.
Proof.
  intros H. apply filter_In. rewrite H. left. reflexivity.
Qed.

Lemma booking_of_true (event_id user_id : Z) (b : Bookings.row) :
  booking_of event_id user_id b = true <->
  Bookings.event_id b = event_id /\ Bookings.user_id b = user_id.
Proof. unfold booking_of. rewrite andb_true_iff, !Z.eqb_eq. tauto. Qed.

Lemma booking_is_true (id user_id : Z) (b : Bookings.row) :
  booking_is id user_id b = true <->
  Bookings.id b = id /\ Bookings.user_id b = user_id.
Proof. unfold booking_is. rewrite andb_true_iff, !Z.eqb_eq. tauto. Qed.

Lemma no_booking_select (event_id user_id : Z) (s : Store) :
  ~ has_booking event_id user_id s ->
  filter (booking_of event_id user_id) (bookings s) = [].
Proof.
  intros H. apply filter_none. intros b Hb.
  destruct (booking_of event_id user_id b) eqn:Hp; auto.
  exfalso. apply H. exists b. apply booking_of_true in Hp. tauto.
Qed.

Lemma no_booking_insert (event_id user_id : Z) (s : Store) :
  ~ has_booking event_id user_id s ->
  existsb (booking_of event_id user_id) (bookings s) = false.
Proof.
  intros H. destruct (existsb _ _) eqn:Hex; auto.
  exfalso. apply H. apply existsb_exists in Hex. destruct Hex as [b [Hb Hp]].
  exists b. apply booking_of_true in Hp. tauto.
Qed.

Lemma has_booking_select (event_id user_id : Z) (s : Store) :
  has_booking event_id user_id s ->
  exists b rest, filter (booking_of event_id user_id) (bookings s) = b :: rest.
Proof.
  intros [b [Hb Hp]].
  destruct (filter _ (bookings s)) as [|b' rest] eqn:Hsel; eauto.
  apply booking_of_true in Hp.
  rewrite (filter_nil _ _ Hsel b Hb) in Hp. discriminate.
Qed.

(** Under the primary key, [SELECT * FROM events WHERE id = $1] returns the
    one event that holds the id. *)
Lemma select_event_row (s : Store) (e : Events.row) :
  constraints s -> In e (events s) ->
  filter (fun x => Events.id x =? Events.id e) (events s) = [e].
Proof.
  intros Hc He. apply (filter_key Events.id); auto using events_pkey.
  - apply Z.eqb_refl.
  - intros x _ Hx. apply Z.eqb_eq. exact Hx.
Qed.

Lemma select_booking_row (s : Store) (b : Bookings.row) :
  constraints s -> In b (bookings s) ->
  filter (booking_is (Bookings.id b) (Bookings.user_id b)) (bookings s) = [b].
Proof.
  intros Hc Hb. apply (filter_key Bookings.id); auto using bookings_pkey.
  - apply booking_is_true. auto.
  - intros x _ Hx. apply booking_is_true in Hx. tauto.
Qed.

Lemma available_seats_of_row (s : Store) (e : Events.row) :
  constraints s -> In e (events s) ->
  available_seats_of (Events.id e) s = [Events.available_seats e].
Proof.
  intros Hc He. unfold available_seats_of. rewrite select_event_row; auto.
Qed.

Lemma seats_check (seats : Z) :
  falsy_number seats || (seats <=? 0) = (seats <=? 0).
Proof.
  unfold falsy_number. destruct (Z.eqb_spec seats 0) as [-> | _]; reflexivity.
Qed.

(** [available_seats] after an [UPDATE events SET available_seats = ...]. *)
Lemma available_seats_of_update (f : Z -> Z) (id id' : Z) (l : list Events.row) :
  map Events.available_seats
    (filter (fun e => Events.id e =? id')
       (map (fun e => if Events.id e =? id
                      then Events.set_available_seats (f (Events.available_seats e)) e
                      else e) l))
  = map (fun n => if id' =? id then f n else n)
      (map Events.available_seats (filter (fun e => Events.id e =? id') l)).
Proof.
  induction l as [|e l IH]; simpl; auto.
  destruct (Events.id e =? id) eqn:Hid; simpl.
  - destruct (Events.id e =? id') eqn:Hid'; simpl; auto.
    apply Z.eqb_eq in Hid, Hid'. rewrite IH.
    replace (id' =? id) with true by (symmetry; apply Z.eqb_eq; congruence).
    reflexivity.
  - destruct (Events.id e =? id') eqn:Hid'; simpl; auto.
    rewrite IH. apply Z.eqb_eq in Hid'. apply Z.eqb_neq in Hid.
    replace (id' =? id) with false by (symmetry; apply Z.eqb_neq; congruence).
    reflexivity.
Qed.

(** An [UPDATE] of [available_seats] goes through when the number it gives
    the one row of the id is an [INTEGER]. *)
Lemma update_available_seats_row (f : Z -> Z) (s : Store) (e : Events.row) :
  NoDup (map Events.id (events s)) -> In e (events s) ->
  integer (f (Events.available_seats e)) = true ->
  update_available_seats f (Events.id e) s
  = (inl tt, with_available_seats f (Events.id e) s).
Proof.
  intros Hkey He Hfits. unfold update_available_seats.
  replace (forallb _ (events s)) with true; [reflexivity|].
  symmetry. apply forallb_forall. intros x Hx.
  destruct (Events.id x =? Events.id e) eqn:Hid; [|reflexivity].
  simpl. apply Z.eqb_eq in Hid.
  assert (Hsel : filter (fun y => Events.id y =? Events.id e) (events s) = [e]).
  { apply (filter_key Events.id); auto.
    - apply Z.eqb_refl.
    - intros y _ Hy. apply Z.eqb_eq. exact Hy. }
  assert (Hin : In x (filter (fun y => Events.id y =? Events.id e) (events s))).
  { apply filter_In. split; auto. apply Z.eqb_eq. exact Hid. }
  rewrite Hsel in Hin. destruct Hin as [<- | []]. exact Hfits.
Qed.


(** ** [POST /api/bookings], case by case *)

Section CreateBooking.

Variables (s : Store) (req_user_id event_id seats : Z).

Lemma create_invalid_seats :
  seats <= 0 ->
  post_api_bookings req_user_id event_id seats s = (InvalidSeatCount, s).
Proof.
  intros Hk. unfold post_api_bookings, try_catch.
  rewrite seats_check. apply Z.leb_le in Hk. rewrite Hk. reflexivity.
Qed.

Lemma create_already_booked :
  0 < seats -> integer event_id = true -> has_booking event_id req_user_id s ->
  post_api_bookings req_user_id event_id seats s = (AlreadyBooked, s).
Proof.
  intros Hk Hid Hb. unfold post_api_bookings, try_catch.
  rewrite seats_check. apply Z.leb_gt in Hk. rewrite Hk.
  destruct (has_booking_select _ _ _ Hb) as [b [rest Hsel]].
  unfold bind, select_bookings_of. rewrite parameters_accepted by exact Hid.
  rewrite Hsel. reflexivity.
Qed.

Lemma create_event_not_found :
  0 < seats -> integer event_id = true -> ~ has_booking event_id req_user_id s ->
  (forall e, In e (events s) -> Events.id e <> event_id) ->
  post_api_bookings req_user_id event_id seats s = (EventNotFound, s).
Proof.
  intros Hk Hid Hb He. unfold post_api_bookings, try_catch.
  rewrite seats_check. apply Z.leb_gt in Hk. rewrite Hk.
  unfold bind, select_bookings_of, select_event.
  rewrite parameters_accepted by exact Hid.
  rewrite no_booking_select by exact Hb. simpl.
  rewrite parameters_accepted by exact Hid.
  rewrite filter_none; [reflexivity|].
  intros e Hin. apply Z.eqb_neq. auto.
Qed.

(** An [event_id] that is no [INTEGER] makes the first statement throw. *)
Lemma create_event_id_refused :
  0 < seats -> integer event_id = false ->
  post_api_bookings req_user_id event_id seats s
  = (error_json 500 "Failed to create booking", s).
Proof.
  intros Hk Hid. unfold post_api_bookings, try_catch.
  rewrite seats_check. apply Z.leb_gt in Hk. rewrite Hk.
  unfold bind, select_bookings_of. rewrite parameters_refused by exact Hid.
  reflexivity.
Qed.

Lemma create_insufficient_seats (e : Events.row) :
  constraints s -> In e (events s) -> Events.id e = event_id ->
  0 < seats -> ~ has_booking event_id req_user_id s ->
  Events.available_seats e < seats ->
  post_api_bookings req_user_id event_id seats s = (InsufficientSeats, s).
Proof.
  intros Hc He <- Hk Hb Hn. unfold post_api_bookings, try_catch.
  destruct (event_typed s e Hc He) as [Hid _].
  rewrite seats_check. apply Z.leb_gt in Hk. rewrite Hk.
  unfold bind, select_bookings_of, select_event.
  rewrite parameters_accepted by exact Hid.
  rewrite no_booking_select by exact Hb. simpl.
  rewrite parameters_accepted by exact Hid.
  rewrite select_event_row by assumption.
  apply Z.ltb_lt in Hn. rewrite Hn. reflexivity.
Qed.

Lemma create_succeeds (e : Events.row) :
  constraints s -> In e (events s) -> Events.id e = event_id ->
  user_exists req_user_id s = true ->
  ~ has_booking event_id req_user_id s ->
  0 < seats <= Events.available_seats e ->
  bookings_id_seq s < 2147483647 ->
  let row := Bookings.mk (bookings_id_seq s + 1) event_id req_user_id seats in
  post_api_bookings req_user_id event_id seats s =
  (mkResponse 201 (JBooking row),
   with_available_seats (fun n => n - seats) event_id
     (with_bookings (bookings s ++ [row]) (bookings_id_seq s + 1) s)).
Proof.
  intros Hc He <- Hu Hb [Hk Hn] Hroom. unfold post_api_bookings, try_catch.
  destruct (event_typed s e Hc He) as [Hid [_ [_ Hseats]]].
  apply integer_range in Hseats.
  assert (Hkint : integer seats = true) by (apply integer_range; lia).
  rewrite seats_check. apply Z.leb_gt in Hk. rewrite Hk.
  unfold bind, select_bookings_of, select_event.
  rewrite parameters_accepted by exact Hid.
  rewrite no_booking_select by exact Hb. simpl.
  rewrite parameters_accepted by exact Hid.
  rewrite select_event_row by assumption.
  apply Z.ltb_ge in Hn. rewrite Hn.
  unfold insert_booking.
  rewrite parameters_accepted by (rewrite Hid, Hkint; reflexivity).
  replace (INTEGER_MAX <=? bookings_id_seq s) with false
    by (symmetry; apply Z.leb_gt; exact Hroom).
  rewrite no_booking_insert by exact Hb.
  replace (event_exists (Events.id e) s) with true
    by (symmetry; apply existsb_exists; exists e; split; auto; apply Z.eqb_refl).
  rewrite Hu. simpl.
  unfold take_seats.
  rewrite parameters_accepted by (rewrite Hid, Hkint; reflexivity).
  rewrite (update_available_seats_row (fun n => n - seats)
             (with_bookings _ _ s) e); simpl; auto using events_pkey.
  apply integer_range. apply Z.leb_gt in Hk. lia.
Qed.

End CreateBooking.

(** ** Scenario stores *)

Lemma run_reachable (rs : list request) (s : Store) :
  reachable s -> reachable (run rs s).
Proof.
  revert s. induction rs as [|r rs IH]; simpl; intros s Hs; auto.
  apply IH. constructor. exact Hs.
Qed.

Lemma run_constraints (rs : list request) : constraints (run rs empty_store).
Proof. apply reachable_constraints, run_reachable. constructor. Qed.

(** The scenario of the specification, run on the model: the event has five
    seats; Alice books three, two are left; Alice asks again and is answered
    [AlreadyBooked]; Bob asks for three and is answered [InsufficientSeats];
    Bob books two, none is left. *)
Example specification_scenario :
  available_seats_of 1 (run scenario_trace empty_store) = [5]
  /\ available_seats_of 1 (run booked_trace empty_store) = [2]
  /\ fst (post_api_bookings 1 1 1 (run booked_trace empty_store)) = AlreadyBooked
  /\ fst (post_api_bookings 2 1 3 (run booked_trace empty_store)) = InsufficientSeats
  /\ fst (post_api_bookings 2 1 2 (run booked_trace empty_store))
     = mkResponse 201 (JBooking (Bookings.mk 2 1 2 2))
  /\ available_seats_of 1 (snd (post_api_bookings 2 1 2 (run booked_trace empty_store)))
     = [0].
Proof. repeat split; reflexivity. Qed.

(** ** C6: the order of the checks of [POST /api/bookings] *)

(** C6 (as amended). Booking create performs its failure checks in a
    fixed order: a seat count [<= 0] is answered with [InvalidSeatCount]
    whatever the store holds and whatever the event id is; otherwise, for an
    event id that is an [INTEGER], an existing booking of the user on the
    event is answered with [AlreadyBooked]; otherwise a missing event with
    [EventNotFound]; otherwise an event with fewer available seats than asked
    for with [InsufficientSeats].  An event id that is no [INTEGER] (with a
    seat count [> 0]) is answered 500.  Each failure leaves the store as it
    was. *)
Theorem create_checks_in_order (s : Store) (req_user_id event_id seats : Z) :
  (seats <= 0 ->
   post_api_bookings req_user_id event_id seats s = (InvalidSeatCount, s))
  /\ (0 < seats -> integer event_id = true -> has_booking event_id req_user_id s ->
      post_api_bookings req_user_id event_id seats s = (AlreadyBooked, s))
  /\ (0 < seats -> integer event_id = true -> ~ has_booking event_id req_user_id s ->
      (forall e, In e (events s) -> Events.id e <> event_id) ->
      post_api_bookings req_user_id event_id seats s = (EventNotFound, s))
  /\ (forall e, constraints s ->
      0 < seats -> ~ has_booking event_id req_user_id s ->
      In e (events s) -> Events.id e = event_id ->
      Events.available_seats e < seats ->
      post_api_bookings req_user_id event_id seats s = (InsufficientSeats, s))
  /\ (0 < seats -> integer event_id = false ->
      post_api_bookings req_user_id event_id seats s
      = (error_json 500 "Failed to create booking", s)).
Proof.
  split; [|split; [|split; [|split]]].
  - apply create_invalid_seats.
  - apply create_already_booked.
  - apply create_event_not_found.
  - intros e Hc Hk Hb He Hid Hn. eapply create_insufficient_seats; eauto.
  - apply create_event_id_refused.
Qed.

Ltac no_such_booking :=
  let b := fresh "b" in
  let H := fresh "H" in
  intros [b [H ?]]; simpl in H;
  repeat (destruct H as [<- | H]; [simpl in *; lia|]); contradiction.

(** The five answers on the store of the scenario, after Alice booked. *)
Lemma create_checks_in_order_witness :
  post_api_bookings 1 1 0 (run booked_trace empty_store)
  = (InvalidSeatCount, run booked_trace empty_store)
  /\ post_api_bookings 1 1 1 (run booked_trace empty_store)
     = (AlreadyBooked, run booked_trace empty_store)
  /\ post_api_bookings 2 7 1 (run booked_trace empty_store)
     = (EventNotFound, run booked_trace empty_store)
  /\ post_api_bookings 2 1 3 (run booked_trace empty_store)
     = (InsufficientSeats, run booked_trace empty_store)
  /\ post_api_bookings 2 2147483648 1 (run booked_trace empty_store)
     = (error_json 500 "Failed to create booking", run booked_trace empty_store).
Proof.
  split; [|split; [|split; [|split]]].
  - apply (proj1 (create_checks_in_order _ 1 1 0)). lia.
  - apply (proj1 (proj2 (create_checks_in_order _ 1 1 1))); [lia|reflexivity|].
    exists (Bookings.mk 1 1 1 3). simpl. auto.
  - apply (proj1 (proj2 (proj2 (create_checks_in_order _ 2 7 1)))); [lia|reflexivity| |].
    + no_such_booking.
    + simpl. intros e [<- | []]. simpl. lia.
  - apply (proj1 (proj2 (proj2 (proj2 (create_checks_in_order _ 2 1 3))))
             (Events.mk 1 "Concert" None "2030-01-01" "Main hall" 2 1)).
    + apply run_constraints.
    + lia.
    + no_such_booking.
    + simpl. auto.
    + reflexivity.
    + simpl. lia.
  - apply (proj2 (proj2 (proj2 (proj2 (create_checks_in_order _ 2 2147483648 1)))));
      [lia|reflexivity].
Defined.

(** Against C6 as stated: the event [2147483648] does not exist and the
    requester holds no booking on it, yet a create with one seat is answered
    500, not [EventNotFound]: the number is no [INTEGER], and the first
    [SELECT] throws. *)
Lemma create_on_event_id_out_of_range :
  (forall e, In e (events (run booked_trace empty_store)) -> Events.id e <> 2147483648)
  /\ ~ has_booking 2147483648 2 (run booked_trace empty_store)
  /\ fst (post_api_bookings 2 2147483648 1 (run booked_trace empty_store))
     = error_json 500 "Failed to create booking"
  /\ error_json 500 "Failed to create booking" <> EventNotFound.
Proof.
  split; [|split; [|split]].
  - simpl. intros e [<- | []]. simpl. lia.
  - no_such_booking.
  - reflexivity.
  - discriminate.
Qed.

(** ** C1: seat accounting of [POST /api/bookings] *)

(** C1 (as amended). For every event [e] with [available_seats = N] and
    every user who holds no booking on [e]: creating a booking with
    [0 < k <= N] seats succeeds, while the sequence of the booking ids has
    an id left to give, inserts the booking row and leaves
    [available_seats = N - k]; creating one with [k > N] and [k > 0] fails
    with [InsufficientSeats] and leaves the store unchanged. *)
Theorem create_booking_seat_accounting (s : Store) (e : Events.row) (req_user_id k : Z) :
  constraints s -> In e (events s) ->
  user_exists req_user_id s = true ->
  ~ has_booking (Events.id e) req_user_id s ->
  (0 < k <= Events.available_seats e ->
   bookings_id_seq s < 2147483647 ->
   exists row s',
     post_api_bookings req_user_id (Events.id e) k s = (mkResponse 201 (JBooking row), s')
     /\ Bookings.event_id row = Events.id e
     /\ Bookings.user_id row = req_user_id
     /\ Bookings.seats row = k
     /\ bookings s' = bookings s ++ [row]
     /\ available_seats_of (Events.id e) s' = [Events.available_seats e - k])
  /\ (0 < k -> Events.available_seats e < k ->
      post_api_bookings req_user_id (Events.id e) k s = (InsufficientSeats, s)).
Proof.
  intros Hc He Hu Hb. split.
  - intros Hk Hroom. do 2 eexists. split.
    + apply (create_succeeds s req_user_id (Events.id e) k e); auto.
    + simpl. repeat (split; [reflexivity|]).
      unfold available_seats_of. simpl.
      rewrite (available_seats_of_update (fun n => n - k)).
      rewrite Z.eqb_refl, select_event_row by assumption.
      reflexivity.
  - intros Hk Hn. apply (create_insufficient_seats s req_user_id (Events.id e) k e); auto.
Qed.

(** Bob books two of the two seats left, and is refused three. *)
Lemma create_booking_seat_accounting_witness :
  (exists row s',
     post_api_bookings 2 1 2 (run booked_trace empty_store)
     = (mkResponse 201 (JBooking row), s')
     /\ Bookings.event_id row = 1
     /\ Bookings.user_id row = 2
     /\ Bookings.seats row = 2
     /\ bookings s' = bookings (run booked_trace empty_store) ++ [row]
     /\ available_seats_of 1 s' = [2 - 2])
  /\ post_api_bookings 2 1 3 (run booked_trace empty_store)
     = (InsufficientSeats, run booked_trace empty_store).
Proof.
  assert (H := create_booking_seat_accounting (run booked_trace empty_store)
                 (Events.mk 1 "Concert" None "2030-01-01" "Main hall" 2 1) 2).
  simpl Events.id in H. simpl Events.available_seats in H.
  split.
  - apply (H 2);
      [apply run_constraints | simpl; auto | reflexivity | no_such_booking | lia
      | simpl; lia].
  - apply (H 3); [apply run_constraints | simpl; auto | reflexivity | no_such_booking | lia | lia].
Defined.

(** Against C1 as stated: an event can be created with a negative
    [available_seats]; asking for [k = 0 > -1] seats on it is answered with
    [InvalidSeatCount], not with [InsufficientSeats].  And once the sequence
    of the booking ids has given out 2147483647, asking for one of the five
    seats of an event is answered 500: the [INSERT] has no id to draw. *)
Lemma create_zero_seats_on_negative_event :
  (available_seats_of 1 (run negative_trace empty_store) = [-1]
   /\ user_exists 1 (run negative_trace empty_store) = true
   /\ bookings (run negative_trace empty_store) = []
   /\ -1 < 0
   /\ post_api_bookings 1 1 0 (run negative_trace empty_store)
      = (InvalidSeatCount, run negative_trace empty_store)
   /\ InvalidSeatCount <> InsufficientSeats)
  /\ (constraints exhausted_store
      /\ available_seats_of 1 exhausted_store = [5]
      /\ user_exists 1 exhausted_store = true
      /\ bookings exhausted_store = []
      /\ 0 < 1 <= 5
      /\ post_api_bookings 1 1 1 exhausted_store
         = (error_json 500 "Failed to create booking", exhausted_store)).
Proof.
  split.
  - repeat split; try reflexivity. discriminate.
  - split; [|repeat split; try reflexivity; lia].
    constructor; simpl; repeat constructor; simpl; auto; try lia; try discriminate.
Qed.

(** ** Booked seats stay positive *)

Ltac by_cases_of_statement :=
  let s := fresh "s" in
  let H := fresh "H" in
  intros s H;
  unfold bookings_positive, insert_user, update_user, insert_event, update_event,
    take_seats, return_seats, rename_room, delete_event, delete_events_in_room,
    delete_events_where, select_users_by_email, select_event, select_available_seats,
    select_bookings_of, select_booking, delete_booking, delete_bookings_of_event,
    delete_bookings_in_room, event_parameters, parameters, update_available_seats,
    throw in *;
  repeat match goal with
         | |- context [if ?c then _ else _] => destruct c
         | |- context [match ?d with Some _ => _ | None => _ end] => destruct d
         end;
  simpl; auto using Forall_filter.

Create HintDb positive.

Lemma positive_insert_user (name email password : string) :
  preserves bookings_positive (insert_user name email password).
Proof. by_cases_of_statement. Qed.

Lemma positive_update_user (name email : string) (password : option string) (id : Z) :
  preserves bookings_positive (update_user name email password id).
Proof. by_cases_of_statement. Qed.

Lemma positive_insert_event (title : string) (description : option string)
  (date : option string) (location : string) (available_seats user_id : Z) :
  preserves bookings_positive
    (insert_event title description date location available_seats user_id).
Proof. by_cases_of_statement. Qed.

Lemma positive_update_event (title : string) (description : option string)
  (date : option string) (location : string) (available_seats id user_id : Z) :
  preserves bookings_positive
    (update_event title description date location available_seats id user_id).
Proof. by_cases_of_statement. Qed.

Lemma positive_take_seats (n id : Z) : preserves bookings_positive (take_seats n id).
Proof. by_cases_of_statement. Qed.

Lemma positive_return_seats (n id : Z) : preserves bookings_positive (return_seats n id).
Proof. by_cases_of_statement. Qed.

Lemma positive_rename_room (newName oldName : string) (user_id : Z) :
  preserves bookings_positive (rename_room newName oldName user_id).
Proof. by_cases_of_statement. Qed.

Lemma positive_delete_event (id user_id : Z) :
  preserves bookings_positive (delete_event id user_id).
Proof. by_cases_of_statement. Qed.

Lemma positive_delete_events_in_room (room : string) (user_id : Z) :
  preserves bookings_positive (delete_events_in_room room user_id).
Proof. by_cases_of_statement. Qed.

Lemma positive_select_users_by_email (email : string) :
  preserves bookings_positive (select_users_by_email email).
Proof. by_cases_of_statement. Qed.

Lemma positive_select_event (id : Z) : preserves bookings_positive (select_event id).
Proof. by_cases_of_statement. Qed.

Lemma positive_select_available_seats (id : Z) :
  preserves bookings_positive (select_available_seats id).
Proof. by_cases_of_statement. Qed.

Lemma positive_select_bookings_of (event_id user_id : Z) :
  preserves bookings_positive (select_bookings_of event_id user_id).
Proof. by_cases_of_statement. Qed.

Lemma positive_select_booking (id user_id : Z) :
  preserves bookings_positive (select_booking id user_id).
Proof. by_cases_of_statement. Qed.

Lemma positive_delete_booking (id user_id : Z) :
  preserves bookings_positive (delete_booking id user_id).
Proof. by_cases_of_statement. Qed.

Lemma positive_delete_bookings_of_event (event_id : Z) :
  preserves bookings_positive (delete_bookings_of_event event_id).
Proof. by_cases_of_statement. Qed.

Lemma positive_delete_bookings_in_room (room : string) (user_id : Z) :
  preserves bookings_positive (delete_bookings_in_room room user_id).
Proof. by_cases_of_statement. Qed.

Lemma positive_insert_booking (event_id user_id seats : Z) :
  0 < seats -> preserves bookings_positive (insert_booking event_id user_id seats).
Proof.
  intros Hk s H. unfold insert_booking, parameters, bookings_positive in *.
  repeat match goal with
         | |- context [if ?c then _ else _] => destruct c
         end; simpl; auto using Forall_snoc.
Qed.

Lemma positive_update_booking_seats (seats id : Z) :
  0 < seats -> preserves bookings_positive (update_booking_seats seats id).
Proof.
  intros Hk s H. unfold update_booking_seats, parameters, bookings_positive in *.
  destruct (integer seats && integer id); simpl; auto.
  apply Forall_update; auto.
Qed.

#[export] Hint Resolve
  positive_insert_user positive_update_user positive_insert_event positive_update_event
  positive_take_seats positive_return_seats positive_rename_room positive_delete_event
  positive_delete_events_in_room positive_select_users_by_email positive_select_event
  positive_select_available_seats positive_select_bookings_of positive_select_booking
  positive_delete_booking positive_delete_bookings_of_event
  positive_delete_bookings_in_room positive_insert_booking
  positive_update_booking_seats : positive.

(** Every handler of [server.js] keeps the booked seat counts positive,
    when the seat count it is given is a number. *)
Lemma handle_bookings_positive (r : request) (s : Store) :
  sends_text r = false ->
  bookings_positive s -> bookings_positive (snd (handle r s)).
Proof.
  destruct r; try discriminate; intros _; simpl; apply preserves_try_catch; split_body;
    try positive_seats; auto with positive.
Qed.

(** ** C2: available seats under the booking operations *)











(** ** C3: one booking per user and event *)

(** The [INSERT] alone keeps the pairs [(event_id, user_id)] distinct, in
    any store and whatever the handler checked before. *)
Lemma insert_booking_key (event_id user_id seats : Z) (s : Store) :
  NoDup (map booking_key (bookings s)) ->
  NoDup (map booking_key (bookings (snd (insert_booking event_id user_id seats s)))).
Proof.
  intros Hk. unfold insert_booking, parameters.
  destruct (integer event_id && integer seats); simpl; auto.
  destruct (INTEGER_MAX <=? bookings_id_seq s); simpl; auto.
  destruct (existsb _ (bookings s)) eqn:Hdup; simpl; auto.
  destruct (event_exists event_id s && user_exists user_id s); simpl; auto.
  apply NoDup_map_snoc; auto. simpl.
  eapply existsb_false_notin; [|exact Hdup].
  intros b Hb. unfold booking_key in Hb. inversion Hb.
  apply booking_of_true. auto.
Qed.

Lemma insert_booking_refused (event_id user_id seats : Z) (s : Store) :
  has_booking event_id user_id s ->
  (exists err, fst (insert_booking event_id user_id seats s) = inr err)
  /\ bookings (snd (insert_booking event_id user_id seats s)) = bookings s
  /\ (integer event_id = true -> integer seats = true ->
      bookings_id_seq s < 2147483647 ->
      fst (insert_booking event_id user_id seats s) = inr (PgError unique_violation)).
Proof.
  intros [b [Hb Hp]]. unfold insert_booking, parameters.
  replace (existsb (booking_of event_id user_id) (bookings s)) with true
    by (symmetry; apply existsb_exists; exists b; split; auto;
        apply booking_of_true; exact Hp).
  split; [|split].
  - destruct (integer event_id && integer seats); simpl; eauto.
    destruct (INTEGER_MAX <=? bookings_id_seq s); simpl; eauto.
  - destruct (integer event_id && integer seats); simpl; auto.
    destruct (INTEGER_MAX <=? bookings_id_seq s); simpl; auto.
  - intros -> -> Hroom. simpl.
    replace (INTEGER_MAX <=? bookings_id_seq s) with false
      by (symmetry; apply Z.leb_gt; exact Hroom).
    reflexivity.
Qed.

(** C3 (as amended). In every reachable store there is at most one booking
    row per [(event_id, user_id)] pair.  A second create for the same user
    and event always fails and adds no booking row: with [AlreadyBooked] when
    [seats > 0] (the event id of a stored booking is an [INTEGER]), with
    [InvalidSeatCount] when [seats <= 0] (that check comes first).  The
    uniqueness constraint enforces the invariant on its own: in any store
    the [INSERT] keeps the pairs distinct, and when the pair is already
    booked it is refused and adds no row, with a unique violation when its
    parameters are [INTEGER]s and the sequence has an id left to give (with
    the error of the parameter or of the sequence otherwise). *)
Theorem one_booking_per_user_and_event :
  (forall s, reachable s -> NoDup (map booking_key (bookings s)))
  /\ (forall s req_user_id event_id seats,
        has_booking event_id req_user_id s ->
        (0 < seats -> integer event_id = true ->
         post_api_bookings req_user_id event_id seats s = (AlreadyBooked, s))
        /\ (seats <= 0 ->
            post_api_bookings req_user_id event_id seats s = (InvalidSeatCount, s))
        /\ bookings (snd (post_api_bookings req_user_id event_id seats s)) = bookings s)
  /\ (forall s event_id user_id seats,
        (NoDup (map booking_key (bookings s)) ->
         NoDup (map booking_key
                  (bookings (snd (insert_booking event_id user_id seats s)))))
        /\ (has_booking event_id user_id s ->
            (exists err, fst (insert_booking event_id user_id seats s) = inr err)
            /\ bookings (snd (insert_booking event_id user_id seats s)) = bookings s
            /\ (integer event_id = true -> integer seats = true ->
                bookings_id_seq s < 2147483647 ->
                fst (insert_booking event_id user_id seats s)
                = inr (PgError unique_violation)))).
Proof.
  split; [|split].
  - intros s Hs. apply bookings_event_id_user_id_key, reachable_constraints, Hs.
  - intros s req_user_id event_id seats Hb.
    split; [|split].
    + intros Hk Hid. apply create_already_booked; assumption.
    + intros Hk. apply create_invalid_seats; assumption.
    + destruct (Z_lt_le_dec 0 seats) as [Hk | Hk].
      * destruct (integer event_id) eqn:Hid.
        -- rewrite create_already_booked by assumption. reflexivity.
        -- rewrite create_event_id_refused by assumption. reflexivity.
      * rewrite create_invalid_seats by assumption. reflexivity.
  - intros s event_id user_id seats. split.
    + apply insert_booking_key.
    + apply insert_booking_refused.
Qed.

(** Alice, who booked three seats, asks for two more. *)
Lemma one_booking_per_user_and_event_witness :
  NoDup (map booking_key (bookings (run booked_trace empty_store)))
  /\ post_api_bookings 1 1 2 (run booked_trace empty_store)
     = (AlreadyBooked, run booked_trace empty_store)
  /\ fst (insert_booking 1 1 2 (run booked_trace empty_store))
     = inr (PgError unique_violation).
Proof.
  destruct one_booking_per_user_and_event as [Hunique [Hcreate Hinsert]].
  assert (Hb : has_booking 1 1 (run booked_trace empty_store)).
  { exists (Bookings.mk 1 1 1 3). simpl. auto. }
  split; [|split].
  - apply Hunique. apply run_reachable. constructor.
  - apply (Hcreate _ 1 1 2 Hb); [lia | reflexivity].
  - apply (Hinsert _ 1 1 2); [exact Hb | reflexivity | reflexivity | simpl; lia].
Defined.

(** Against C3 as stated: Alice, who holds a booking on event 1, asks again
    with [seats = 0]; the answer is [InvalidSeatCount], not [AlreadyBooked].
    (And the [INSERT] alone, for the same pair and a seat count that is no
    [INTEGER], is refused for the seat count, before the constraint is
    looked at.) *)
Lemma second_create_with_zero_seats :
  map booking_key (bookings (run booked_trace empty_store)) = [(1, 1)]
  /\ post_api_bookings 1 1 0 (run booked_trace empty_store)
     = (InvalidSeatCount, run booked_trace empty_store)
  /\ InvalidSeatCount <> AlreadyBooked
  /\ fst (insert_booking 1 1 2147483648 (run booked_trace empty_store))
     = inr (PgError numeric_value_out_of_range).
Proof.
  split; [reflexivity|]. split; [reflexivity|]. split; [discriminate|reflexivity].
Qed.

(** ** C4: cancelling a booking *)

Lemma pkey_row {A : Type} (id : A -> Z) (l : list A) (a b : A) :
  NoDup (map id l) -> In a l -> In b l -> id a = id b -> a = b.
Proof.
  induction l as [|x l IH]; simpl; intros Hnd Ha Hb Hid; [contradiction|].
  inversion Hnd as [|? ? Hnotin Hrest]; subst.
  destruct Ha as [-> | Ha], Hb as [-> | Hb]; auto.
  - exfalso. apply Hnotin. rewrite Hid. apply in_map. exact Hb.
  - exfalso. apply Hnotin. rewrite <- Hid. apply in_map. exact Ha.
Qed.

Lemma booking_event_row (s : Store) (b : Bookings.row) :
  constraints s -> In b (bookings s) ->
  exists e, In e (events s) /\ Events.id e = Bookings.event_id b.
Proof.
  intros Hc Hb.
  pose proof (bookings_event_id_fkey s Hc) as Hfk.
  rewrite Forall_forall in Hfk. specialize (Hfk b Hb).
  apply existsb_exists in Hfk. destruct Hfk as [e [He Hid]].
  exists e. split; auto. apply Z.eqb_eq. exact Hid.
Qed.

Lemma update_available_seats_overflow (f : Z -> Z) (s : Store) (e : Events.row) :
  In e (events s) -> integer (f (Events.available_seats e)) = false ->
  update_available_seats f (Events.id e) s
  = (inr (PgError numeric_value_out_of_range), s).
Proof.
  intros He Hover. unfold update_available_seats.
  replace (forallb _ (events s)) with false; [reflexivity|].
  symmetry. apply not_true_is_false. intros Hall.
  rewrite forallb_forall in Hall. specialize (Hall e He).
  rewrite Z.eqb_refl, Hover in Hall. discriminate.
Qed.

Lemma cancel_not_found (id req_user_id : Z) (s : Store) :
  integer id = true ->
  (forall b, In b (bookings s) ->
             ~ (Bookings.id b = id /\ Bookings.user_id b = req_user_id)) ->
  delete_api_bookings id req_user_id s = (BookingNotFoundOrForbidden, s).
Proof.
  intros Hid Hnone. unfold delete_api_bookings, try_catch, bind, select_booking.
  rewrite parameters_accepted by exact Hid.
  rewrite filter_none; [reflexivity|].
  intros b Hb. destruct (booking_is id req_user_id b) eqn:Hp; auto.
  apply booking_is_true in Hp. elim (Hnone b Hb Hp).
Qed.

Lemma cancel_reaches_update (s : Store) (b : Bookings.row) :
  constraints s -> In b (bookings s) ->
  delete_api_bookings (Bookings.id b) (Bookings.user_id b) s =
  match update_available_seats (fun n => n + Bookings.seats b) (Bookings.event_id b)
          (without_booking b s) with
  | (inl _, s') => (mkResponse 200 (JMessage "Booking cancelled successfully"), s')
  | (inr _, s') => (error_json 500 "Failed to cancel booking", s')
  end.
Proof.
  intros Hc Hb. destruct (booking_typed s b Hc Hb) as [Hid [Heid Hseats]].
  unfold delete_api_bookings, try_catch, bind, select_booking, delete_booking, return_seats,
    parameters.
  rewrite Hid.
  rewrite select_booking_row by assumption.
  rewrite Hseats, Heid. cbn [andb].
  unfold without_booking.
  destruct (update_available_seats _ _ _) as [[[] | err] s']; reflexivity.
Qed.

Lemma cancel_succeeds (s : Store) (b : Bookings.row) (e : Events.row) :
  constraints s -> In b (bookings s) ->
  In e (events s) -> Events.id e = Bookings.event_id b ->
  integer (Events.available_seats e + Bookings.seats b) = true ->
  delete_api_bookings (Bookings.id b) (Bookings.user_id b) s =
  (mkResponse 200 (JMessage "Booking cancelled successfully"),
   with_available_seats (fun n => n + Bookings.seats b) (Bookings.event_id b)
     (without_booking b s)).
Proof.
  intros Hc Hb He Hid Hfits. rewrite cancel_reaches_update by assumption.
  rewrite <- Hid.
  rewrite (update_available_seats_row (fun n => n + Bookings.seats b)
             (without_booking b s) e); simpl; auto using events_pkey.
Qed.

(** When the seats of the booking do not fit the column any more, the
    booking is deleted and the [UPDATE] of the event throws. *)
Lemma cancel_overflows (s : Store) (b : Bookings.row) (e : Events.row) :
  constraints s -> In b (bookings s) ->
  In e (events s) -> Events.id e = Bookings.event_id b ->
  integer (Events.available_seats e + Bookings.seats b) = false ->
  delete_api_bookings (Bookings.id b) (Bookings.user_id b) s =
  (error_json 500 "Failed to cancel booking", without_booking b s).
Proof.
  intros Hc Hb He Hid Hover. rewrite cancel_reaches_update by assumption.
  rewrite <- Hid.
  rewrite (update_available_seats_overflow (fun n => n + Bookings.seats b)
             (without_booking b s) e); simpl; auto.
Qed.

Lemma without_booking_rows (s : Store) (b : Bookings.row) :
  constraints s -> In b (bookings s) ->
  forall x, In x (bookings (without_booking b s)) <-> In x (bookings s) /\ x <> b.
Proof.
  intros Hc Hb x. simpl. rewrite filter_In, negb_true_iff. split.
  - intros [Hx Hp]. split; auto. intros ->.
    assert (booking_is (Bookings.id b) (Bookings.user_id b) b = true)
      by (apply booking_is_true; auto).
    congruence.
  - intros [Hx Hneq]. split; auto.
    destruct (booking_is _ _ x) eqn:Hp; auto.
    apply booking_is_true in Hp. exfalso. apply Hneq.
    apply (pkey_row Bookings.id (bookings s)); auto using bookings_pkey. tauto.
Qed.

(** C4 (as amended). For every booking [b] of the requesting user, with
    [k] seats on the event [e], such that [available_seats + k] is an
    [INTEGER]: cancelling it succeeds, deletes that row and no other, and
    increases the [available_seats] of [e] by exactly [k].  If no booking
    matches both the id, an [INTEGER], and the user, the cancel fails with
    [NotFoundOrForbidden] and the store is unchanged. *)
Theorem cancel_restores_seats :
  (forall s b, constraints s -> In b (bookings s) ->
     exists e,
       In e (events s) /\ Events.id e = Bookings.event_id b
       /\ (integer (Events.available_seats e + Bookings.seats b) = true ->
           exists s',
             delete_api_bookings (Bookings.id b) (Bookings.user_id b) s
             = (mkResponse 200 (JMessage "Booking cancelled successfully"), s')
             /\ (forall x, In x (bookings s') <-> In x (bookings s) /\ x <> b)
             /\ available_seats_of (Events.id e) s'
                = [Events.available_seats e + Bookings.seats b]))
  /\ (forall s id req_user_id,
        integer id = true ->
        (forall b, In b (bookings s) ->
                   ~ (Bookings.id b = id /\ Bookings.user_id b = req_user_id)) ->
        delete_api_bookings id req_user_id s = (BookingNotFoundOrForbidden, s)).
Proof.
  split.
  - intros s b Hc Hb.
    destruct (booking_event_row s b Hc Hb) as [e [He Hid]].
    exists e. split; [exact He|]. split; [exact Hid|].
    intros Hfits. eexists.
    split; [apply (cancel_succeeds s b e); assumption|]. split.
    + apply without_booking_rows; assumption.
    + unfold available_seats_of. simpl.
      rewrite (available_seats_of_update (fun n => n + Bookings.seats b)).
      rewrite Hid, Z.eqb_refl, <- Hid, select_event_row by assumption.
      reflexivity.
  - intros s id req_user_id. apply cancel_not_found.
Qed.

(** Alice cancels her three seats: the event is back to five; Bob, who does
    not own the booking, is answered that it was not found. *)
Lemma cancel_restores_seats_witness :
  (exists e,
     In e (events (run booked_trace empty_store)) /\ Events.id e = 1
     /\ (integer (Events.available_seats e + 3) = true ->
         exists s',
           delete_api_bookings 1 1 (run booked_trace empty_store)
           = (mkResponse 200 (JMessage "Booking cancelled successfully"), s')
           /\ (forall x, In x (bookings s') <->
                         In x (bookings (run booked_trace empty_store))
                         /\ x <> Bookings.mk 1 1 1 3)
           /\ available_seats_of (Events.id e) s' = [Events.available_seats e + 3]))
  /\ delete_api_bookings 1 2 (run booked_trace empty_store)
     = (BookingNotFoundOrForbidden, run booked_trace empty_store).
Proof.
  split.
  - apply (proj1 cancel_restores_seats (run booked_trace empty_store)
             (Bookings.mk 1 1 1 3)).
    + apply run_constraints.
    + simpl. auto.
  - apply (proj2 cancel_restores_seats); [reflexivity|].
    simpl. intros b [<- | []]. simpl. lia.
Defined.

(** Against C4 as stated.  In the scenario the owner sets the event to
    2147483647 available seats after Alice booked three; Alice cancels: the
    booking row is deleted, the [UPDATE] of the event throws, the answer is
    500 and the event is left with 2147483647 seats, not three more.  And a
    cancel of the booking [2147483648], which matches no row, is answered
    500, not [NotFoundOrForbidden]. *)
Lemma cancel_on_full_event :
  (reachable (run full_trace empty_store)
   /\ bookings (run full_trace empty_store) = [Bookings.mk 1 1 1 3]
   /\ available_seats_of 1 (run full_trace empty_store) = [2147483647]
   /\ fst (delete_api_bookings 1 1 (run full_trace empty_store))
      = error_json 500 "Failed to cancel booking"
   /\ bookings (snd (delete_api_bookings 1 1 (run full_trace empty_store))) = []
   /\ available_seats_of 1 (snd (delete_api_bookings 1 1 (run full_trace empty_store)))
      = [2147483647])
  /\ (fst (delete_api_bookings 2147483648 1 (run booked_trace empty_store))
      = error_json 500 "Failed to cancel booking"
      /\ error_json 500 "Failed to cancel booking" <> BookingNotFoundOrForbidden).
Proof.
  split; [split; [apply run_reachable; constructor|]|].
  - repeat split; reflexivity.
  - split; [reflexivity|discriminate].
Qed.

(** ** C5: changing the seat count of a booking *)

Lemma update_fixed {A : Type} (p : A -> bool) (f : A -> A) (l : list A) :
  (forall a, In a l -> p a = true -> f a = a) ->
  map (fun a => if p a then f a else a) l = l.
Proof.
  induction l as [|a l IH]; simpl; intros H; auto.
  rewrite IH by auto. destruct (p a) eqn:Hp; auto.
  rewrite H; auto.
Qed.

Lemma select_booking_by_id (s : Store) (b : Bookings.row) :
  constraints s -> In b (bookings s) ->
  filter (fun x => Bookings.id x =? Bookings.id b) (bookings s) = [b].
Proof.
  intros Hc Hb. apply (filter_key Bookings.id); auto using bookings_pkey.
  - apply Z.eqb_refl.
  - intros x _ Hx. apply Z.eqb_eq. exact Hx.
Qed.

Lemma update_reaches_update (s : Store) (b : Bookings.row) (e : Events.row) (seats : Z) :
  constraints s -> In b (bookings s) ->
  In e (events s) -> Events.id e = Bookings.event_id b ->
  0 < seats -> seats - Bookings.seats b <= Events.available_seats e ->
  integer seats = true ->
  put_api_bookings (Bookings.id b) (Bookings.user_id b) seats s =
  match update_available_seats (fun n => n - (seats - Bookings.seats b))
          (Bookings.event_id b) (with_seats_of_booking seats (Bookings.id b) s) with
  | (inl _, s') => (mkResponse 200 (JBooking (Bookings.set_seats seats b)), s')
  | (inr _, s') => (error_json 500 "Failed to update booking", s')
  end.
Proof.
  intros Hc Hb He Hid Hk Hn Hseats.
  destruct (booking_typed s b Hc Hb) as [Hbid [Heid Hcur]].
  destruct (event_typed s e Hc He) as [_ [_ [_ Havail]]].
  apply integer_range in Hcur, Havail. pose proof Hseats as Hrange.
  apply integer_range in Hrange.
  assert (Hdiff : integer (seats - Bookings.seats b) = true) by (apply integer_range; lia).
  unfold put_api_bookings, try_catch, bind, select_booking, select_available_seats,
    update_booking_seats, take_seats, parameters.
  rewrite seats_check. apply Z.leb_gt in Hk. rewrite Hk.
  rewrite Hbid, Hseats. cbn [andb].
  rewrite select_booking_row by assumption.
  rewrite Heid, Hdiff. cbn [andb].
  rewrite <- Hid, available_seats_of_row by assumption.
  apply Z.ltb_ge in Hn. rewrite Hn.
  rewrite select_booking_by_id by assumption.
  unfold with_seats_of_booking. cbn [map].
  destruct (update_available_seats _ _ _) as [[[] | err] s']; reflexivity.
Qed.

Lemma update_succeeds (s : Store) (b : Bookings.row) (e : Events.row) (seats : Z) :
  constraints s -> In b (bookings s) ->
  In e (events s) -> Events.id e = Bookings.event_id b ->
  0 < seats -> seats - Bookings.seats b <= Events.available_seats e ->
  integer seats = true ->
  integer (Events.available_seats e - (seats - Bookings.seats b)) = true ->
  put_api_bookings (Bookings.id b) (Bookings.user_id b) seats s =
  (mkResponse 200 (JBooking (Bookings.set_seats seats b)),
   with_available_seats (fun n => n - (seats - Bookings.seats b)) (Bookings.event_id b)
     (with_seats_of_booking seats (Bookings.id b) s)).
Proof.
  intros Hc Hb He Hid Hk Hn Hseats Hfits.
  rewrite (update_reaches_update s b e) by assumption.
  rewrite <- Hid.
  rewrite (update_available_seats_row (fun n => n - (seats - Bookings.seats b))
             (with_seats_of_booking seats (Bookings.id b) s) e);
    simpl; auto using events_pkey.
Qed.

(** Setting a booking to the seat count it already has changes nothing. *)
Lemma update_same_seats (s : Store) (b : Bookings.row) (e : Events.row) :
  constraints s -> In b (bookings s) ->
  In e (events s) -> Events.id e = Bookings.event_id b ->
  0 < Bookings.seats b -> 0 <= Events.available_seats e ->
  put_api_bookings (Bookings.id b) (Bookings.user_id b) (Bookings.seats b) s =
  (mkResponse 200 (JBooking b), s).
Proof.
  intros Hc Hb He Hid Hk Hn.
  destruct (booking_typed s b Hc Hb) as [_ [_ Hcur]].
  destruct (event_typed s e Hc He) as [_ [_ [_ Havail]]].
  rewrite (update_succeeds s b e); auto; try lia.
  - f_equal.
    + destruct b; reflexivity.
    + unfold with_available_seats, with_seats_of_booking. simpl.
      rewrite !update_fixed.
      * destruct s; reflexivity.
      * intros x Hx Hp. apply Z.eqb_eq in Hp.
        rewrite (pkey_row Bookings.id (bookings s) x b); auto using bookings_pkey.
        destruct b; reflexivity.
      * intros x Hx Hp. destruct x; unfold Events.set_available_seats; simpl.
        f_equal. lia.
  - replace (Events.available_seats e - (Bookings.seats b - Bookings.seats b))
      with (Events.available_seats e) by lia.
    exact Havail.
Qed.

(** What a successful create leaves behind. *)
Lemma create_result (s s' : Store) (req_user_id event_id seats : Z) (b : Bookings.row) :
  constraints s ->
  post_api_bookings req_user_id event_id seats s = (mkResponse 201 (JBooking b), s') ->
  In b (bookings s')
  /\ Bookings.user_id b = req_user_id /\ Bookings.event_id b = event_id
  /\ Bookings.seats b = seats /\ 0 < seats
  /\ exists e, In e (events s') /\ Events.id e = event_id
               /\ 0 <= Events.available_seats e.
Proof.
  intros Hc. unfold post_api_bookings, try_catch, bind, select_bookings_of, select_event,
    insert_booking, take_seats, update_available_seats, parameters.
  rewrite seats_check.
  destruct (seats <=? 0) eqn:Hk; [discriminate|].
  destruct (integer event_id); [|discriminate].
  destruct (map Bookings.id _); [|discriminate]. simpl.
  destruct (filter _ (events s)) as [|e0 rest] eqn:Hsel; [discriminate|].
  destruct (Events.available_seats e0 <? seats) eqn:Hlt; [discriminate|].
  destruct (integer seats); [|discriminate]. simpl.
  destruct (INTEGER_MAX <=? bookings_id_seq s); [discriminate|].
  destruct (existsb _ (bookings s)); [discriminate|].
  destruct (event_exists event_id s && user_exists req_user_id s); [|discriminate].
  simpl.
  destruct (forallb _ (events s)); [|discriminate].
  simpl. intros H. inversion H; subst; clear H. simpl.
  apply Z.leb_gt in Hk. apply Z.ltb_ge in Hlt.
  split; [apply in_or_app; right; left; reflexivity|].
  repeat (split; [reflexivity || assumption|]).
  apply filter_head in Hsel. destruct Hsel as [He0 Hid0]. apply Z.eqb_eq in Hid0.
  exists (Events.set_available_seats (Events.available_seats e0 - seats) e0).
  split; [|split].
  - apply in_map_iff. exists e0. split; auto.
    rewrite Hid0, Z.eqb_refl. reflexivity.
  - exact Hid0.
  - simpl. lia.
Qed.

(** C5 (as amended). For every booking [b] with [a] seats, matched by id
    and user, and every [seats > 0] such that the event has
    [available_seats >= seats - a], when [seats] and
    [available_seats - (seats - a)] are [INTEGER]s: the update succeeds, sets
    the booking's seats to [seats], leaves the other bookings alone and
    changes the event's [available_seats] by exactly [a - seats].  Round
    trip: after a create with [k] seats, updating the new booking to [k]
    succeeds and leaves the store identical. *)
Theorem update_adjusts_seats :
  (forall s b e seats,
     constraints s -> In b (bookings s) ->
     In e (events s) -> Events.id e = Bookings.event_id b ->
     0 < seats -> seats - Bookings.seats b <= Events.available_seats e ->
     integer seats = true ->
     integer (Events.available_seats e - (seats - Bookings.seats b)) = true ->
     exists s',
       put_api_bookings (Bookings.id b) (Bookings.user_id b) seats s
       = (mkResponse 200 (JBooking (Bookings.set_seats seats b)), s')
       /\ In (Bookings.set_seats seats b) (bookings s')
       /\ (forall x, In x (bookings s) -> x <> b -> In x (bookings s'))
       /\ List.length (bookings s') = List.length (bookings s)
       /\ available_seats_of (Events.id e) s'
          = [Events.available_seats e + (Bookings.seats b - seats)])
  /\ (forall s s1 req_user_id event_id k b,
        constraints s ->
        post_api_bookings req_user_id event_id k s = (mkResponse 201 (JBooking b), s1) ->
        put_api_bookings (Bookings.id b) req_user_id k s1
        = (mkResponse 200 (JBooking b), s1)).
Proof.
  split.
  - intros s b e seats Hc Hb He Hid Hk Hn Hseats Hfits.
    eexists. split; [apply (update_succeeds s b e); assumption|].
    simpl. split; [|split; [|split]].
    + apply in_map_iff. exists b. rewrite Z.eqb_refl. auto.
    + intros x Hx Hneq. apply in_map_iff. exists x. split; auto.
      destruct (Z.eqb_spec (Bookings.id x) (Bookings.id b)) as [Heq | _]; auto.
      elim Hneq. apply (pkey_row Bookings.id (bookings s)); auto using bookings_pkey.
    + apply List.length_map.
    + unfold available_seats_of. simpl.
      rewrite (available_seats_of_update (fun n => n - (seats - Bookings.seats b))).
      rewrite Hid, Z.eqb_refl, <- Hid, select_event_row by assumption.
      simpl. f_equal. lia.
  - intros s s1 req_user_id event_id k b Hc Hcreate.
    assert (Hc1 : constraints s1).
    { replace s1 with (snd (handle (PostBookings req_user_id event_id k) s))
        by (simpl; rewrite Hcreate; reflexivity).
      apply handle_constraints. exact Hc. }
    destruct (create_result _ _ _ _ _ _ Hc Hcreate)
      as [Hb [Hu [He [Hseats [Hk [e [Hin [Hid Hn]]]]]]]].
    subst req_user_id k.
    apply (update_same_seats s1 b e); auto. congruence.
Qed.

(** Alice changes her three seats to five (the event has two left), and a
    create followed by an update to the same count. *)
Lemma update_adjusts_seats_witness :
  (exists s',
     put_api_bookings 1 1 5 (run booked_trace empty_store)
     = (mkResponse 200 (JBooking (Bookings.mk 1 1 1 5)), s')
     /\ In (Bookings.mk 1 1 1 5) (bookings s')
     /\ (forall x, In x (bookings (run booked_trace empty_store)) ->
                   x <> Bookings.mk 1 1 1 3 -> In x (bookings s'))
     /\ List.length (bookings s') = List.length (bookings (run booked_trace empty_store))
     /\ available_seats_of 1 s' = [2 + (3 - 5)])
  /\ put_api_bookings 1 1 3 (run booked_trace empty_store)
     = (mkResponse 200 (JBooking (Bookings.mk 1 1 1 3)), run booked_trace empty_store).
Proof.
  split.
  - apply (proj1 update_adjusts_seats (run booked_trace empty_store)
             (Bookings.mk 1 1 1 3)
             (Events.mk 1 "Concert" None "2030-01-01" "Main hall" 2 1) 5).
    + apply run_constraints.
    + simpl. auto.
    + simpl. auto.
    + reflexivity.
    + lia.
    + simpl. lia.
    + reflexivity.
    + reflexivity.
  - apply (proj2 update_adjusts_seats (run scenario_trace empty_store)
             (run booked_trace empty_store) 1 1 3 (Bookings.mk 1 1 1 3)).
    + apply run_constraints.
    + reflexivity.
Defined.

(** Against C5 as stated.  In the scenario the owner sets the event to
    2147483647 available seats after Alice booked three; Alice changes her
    booking to two seats (the event has [available_seats >= 2 - 3]): the
    booking is set to two seats, the [UPDATE] of the event throws, the answer
    is 500 and the event is left with 2147483647 seats, not one more. *)
Lemma update_on_full_event :
  reachable (run full_trace empty_store)
  /\ bookings (run full_trace empty_store) = [Bookings.mk 1 1 1 3]
  /\ available_seats_of 1 (run full_trace empty_store) = [2147483647]
  /\ 2 - 3 <= 2147483647
  /\ fst (put_api_bookings 1 1 2 (run full_trace empty_store))
     = error_json 500 "Failed to update booking"
  /\ bookings (snd (put_api_bookings 1 1 2 (run full_trace empty_store)))
     = [Bookings.mk 1 1 1 2]
  /\ available_seats_of 1 (snd (put_api_bookings 1 1 2 (run full_trace empty_store)))
     = [2147483647].
Proof.
  split; [apply run_reachable; constructor|].
  repeat split; try reflexivity. lia.
Qed.

(** ** C7: deleting an event *)

Lemma filter_negb_none (p : Events.row -> bool) (l : list Events.row) :
  filter p l = [] -> filter (fun e => negb (p e)) l = l.
Proof.
  intros H. induction l as [|e l IH]; simpl in *; auto.
  destruct (p e); [discriminate|]. simpl. rewrite IH; auto.
Qed.

(** What [DELETE /api/events/:id] does when it answers 200: under the
    constraints of the schema the event is gone and no booking references it. *)
Lemma delete_event_cascades (id req_user_id : Z) (s : Store) :
  constraints s ->
  status (fst (delete_api_events id req_user_id s)) = 200 ->
  (forall e, In e (events (snd (delete_api_events id req_user_id s))) -> Events.id e <> id)
  /\ (forall b, In b (bookings (snd (delete_api_events id req_user_id s))) ->
                Bookings.event_id b <> id).
Proof.
  intros Hc. unfold delete_api_events, try_catch, bind, delete_bookings_of_event,
    delete_event, delete_events_where, parameters.
  destruct (integer id); simpl; [|discriminate].
  destruct (referenced _ _); simpl; [discriminate|].
  destruct (filter (event_owned id req_user_id) (events s)) as [|e0 rest] eqn:Hsel;
    simpl; [discriminate|].
  intros _. split.
  - intros e He Hid. apply filter_In in He. destruct He as [He Hp].
    apply filter_head in Hsel. destruct Hsel as [He0 Hp0].
    unfold event_owned in Hp0. apply andb_true_iff in Hp0. destruct Hp0 as [Hid0 Hu0].
    apply Z.eqb_eq in Hid0.
    assert (e = e0).
    { apply (pkey_row Events.id (events s)); auto using events_pkey. congruence. }
    subst e0. unfold event_owned in Hp. rewrite Hu0 in Hp.
    apply Z.eqb_eq in Hid. rewrite Hid in Hp. discriminate.
  - intros b Hb Hid. apply filter_In in Hb. destruct Hb as [_ Hp].
    apply Z.eqb_eq in Hid. rewrite Hid in Hp. discriminate.
Qed.

(** What it does when no event matches both the id and the owner: the answer
    is [NotFoundOrForbidden], the events are untouched, and every booking of
    the event [id] has been deleted all the same. *)
Lemma delete_event_not_owned (id req_user_id : Z) (s : Store) :
  integer id = true ->
  (forall e, In e (events s) ->
             ~ (Events.id e = id /\ Events.user_id e = req_user_id)) ->
  fst (delete_api_events id req_user_id s) = EventNotFoundOrForbidden
  /\ events (snd (delete_api_events id req_user_id s)) = events s
  /\ bookings (snd (delete_api_events id req_user_id s))
     = filter (fun b => negb (Bookings.event_id b =? id)) (bookings s).
Proof.
  intros Hint Hnone.
  assert (Hsel : filter (event_owned id req_user_id) (events s) = []).
  { apply filter_none. intros e He.
    destruct (event_owned id req_user_id e) eqn:Hp; auto.
    unfold event_owned in Hp. apply andb_true_iff in Hp. rewrite !Z.eqb_eq in Hp.
    elim (Hnone e He Hp). }
  unfold delete_api_events, try_catch, bind, delete_bookings_of_event, delete_event,
    delete_events_where, parameters.
  rewrite Hint.
  simpl. rewrite Hsel. unfold referenced. simpl.
  replace (existsb (fun _ : Bookings.row => false) _) with false.
  - simpl. rewrite filter_negb_none by exact Hsel. auto.
  - symmetry. apply not_true_is_false. intros H. apply existsb_exists in H.
    destruct H as [b [_ H]]. discriminate.
Qed.

(** The sibling route [DELETE /api/rooms/:name] scopes its first [DELETE] to
    the events of the requester: when no event matches, nothing is deleted. *)
Lemma delete_room_not_owned (req_user_id : Z) (roomName : string) (s : Store) :
  (forall e, In e (events s) ->
             ~ (Events.location e = roomName /\ Events.user_id e = req_user_id)) ->
  fst (delete_api_rooms req_user_id roomName s)
  = error_json 404 "Room not found or not authorized"
  /\ events (snd (delete_api_rooms req_user_id roomName s)) = events s
  /\ bookings (snd (delete_api_rooms req_user_id roomName s)) = bookings s.
Proof.
  intros Hnone.
  assert (Hsel : filter (event_in_room roomName req_user_id) (events s) = []).
  { apply filter_none. intros e He.
    destruct (event_in_room roomName req_user_id e) eqn:Hp; auto.
    unfold event_in_room in Hp. apply andb_true_iff in Hp.
    rewrite String.eqb_eq, Z.eqb_eq in Hp.
    elim (Hnone e He Hp). }
  unfold delete_api_rooms, try_catch, bind, delete_bookings_in_room,
    delete_events_in_room, delete_events_where.
  simpl. rewrite Hsel. unfold referenced. simpl.
  assert (Hkeep : filter (fun _ : Bookings.row => true) (bookings s) = bookings s).
  { induction (bookings s) as [|b l IH]; simpl; congruence. }
  rewrite Hkeep.
  replace (existsb (fun _ : Bookings.row => false) _) with false.
  - simpl. rewrite filter_negb_none by exact Hsel. auto.
  - symmetry. apply not_true_is_false. intros H. apply existsb_exists in H.
    destruct H as [b [_ H]]. discriminate.
Qed.

(** C7 (the code departs from it). In the scenario Alice owns event 1
    and holds the one booking on it.  Bob, who does not own the event, asks
    to delete it: the answer is [NotFoundOrForbidden] and the event is still
    there, yet Alice's booking is gone, and its three seats have not been
    returned to the event. *)
Theorem delete_event_by_non_owner_drops_bookings :
  map booking_key (bookings (run booked_trace empty_store)) = [(1, 1)]
  /\ map Events.user_id (events (run booked_trace empty_store)) = [1]
  /\ fst (delete_api_events 1 2 (run booked_trace empty_store)) = EventNotFoundOrForbidden
  /\ events (snd (delete_api_events 1 2 (run booked_trace empty_store)))
     = events (run booked_trace empty_store)
  /\ bookings (snd (delete_api_events 1 2 (run booked_trace empty_store))) = []
  /\ available_seats_of 1 (snd (delete_api_events 1 2 (run booked_trace empty_store))) = [2].
Proof.
  repeat split; reflexivity.
Qed.

(** ** C8: the two variants of [POST /api/bookings] *)

(** C8 (as amended). For every create-booking request with [seats > 0]
    and every store, the handlers of the two route files return the same
    result and perform the same state change.  They differ on [seats <= 0]:
    [server.js] answers [InvalidSeatCount] and leaves the store alone, a check
    the simpler variant does not make. *)
Theorem create_variants_agree (req_user_id event_id seats : Z) (s : Store) :
  (0 < seats ->
   post_api_bookings req_user_id event_id seats s
   = post_api_bookings_simple req_user_id event_id seats s)
  /\ (seats <= 0 ->
      post_api_bookings req_user_id event_id seats s = (InvalidSeatCount, s)).
Proof.
  split.
  - intros Hk. unfold post_api_bookings, post_api_bookings_simple.
    rewrite seats_check. apply Z.leb_gt in Hk. rewrite Hk. reflexivity.
  - apply create_invalid_seats.
Qed.

(** Bob asks for two seats, then for none, on the store of the scenario. *)
Lemma create_variants_agree_witness :
  post_api_bookings 2 1 2 (run booked_trace empty_store)
  = post_api_bookings_simple 2 1 2 (run booked_trace empty_store)
  /\ post_api_bookings 2 1 0 (run booked_trace empty_store)
     = (InvalidSeatCount, run booked_trace empty_store).
Proof.
  split.
  - apply (proj1 (create_variants_agree 2 1 2 _)). lia.
  - apply (proj2 (create_variants_agree 2 1 0 _)). lia.
Defined.

(** Against C8 as stated: Bob asks for [-2] seats on event 1 of the scenario
    (two seats available).  [server.js] refuses and changes nothing; the
    simpler variant inserts a booking of [-2] seats and raises the event's
    [available_seats] to four. *)
Lemma create_variants_differ :
  post_api_bookings 2 1 (-2) (run booked_trace empty_store)
  = (InvalidSeatCount, run booked_trace empty_store)
  /\ fst (post_api_bookings_simple 2 1 (-2) (run booked_trace empty_store))
     = mkResponse 201 (JBooking (Bookings.mk 2 1 2 (-2)))
  /\ map Bookings.seats
       (bookings (snd (post_api_bookings_simple 2 1 (-2) (run booked_trace empty_store))))
     = [3; -2]
  /\ available_seats_of 1 (run booked_trace empty_store) = [2]
  /\ available_seats_of 1
       (snd (post_api_bookings_simple 2 1 (-2) (run booked_trace empty_store)))
     = [4].
Proof.
  repeat split; reflexivity.
Qed.

(** ** C9: login *)

Lemma bits_pos_bits (p : positive) : bits_pos (pos_bits p) = p.
Proof. induction p; simpl; congruence. Qed.

Lemma split_dot_bits (p : positive) (rest : string) :
  split_dot (String.append (pos_bits p) (String "." rest)) = Some (pos_bits p, rest).
Proof.
  induction p as [p IH | p IH |]; simpl; try rewrite IH; reflexivity.
Qed.

Lemma demo_verify_sign (payload : claims) (secret expiresIn : string) :
  demo_verify (demo_sign payload secret expiresIn) secret = Some payload.
Proof.
  destruct payload as [id email]. unfold demo_verify, demo_sign. simpl.
  destruct id as [|p|p]; simpl; try rewrite split_dot_bits; simpl;
    rewrite ?bits_pos_bits; reflexivity.
Qed.

(** Under [UNIQUE (email)], [SELECT * FROM users WHERE email = $1] returns
    the one user that holds the email. *)
Lemma select_user_row (s : Store) (u : Users.row) :
  constraints s -> In u (users s) ->
  filter (fun x => String.eqb (Users.email x) (Users.email u)) (users s) = [u].
Proof.
  intros Hc Hu. apply (filter_key Users.email); auto using users_email_key.
  - apply String.eqb_refl.
  - intros x _ Hx. apply String.eqb_eq. exact Hx.
Qed.

Section Login.

Variable JWT_SECRET : string.
Variable bcrypt_compare : string -> string -> bool.
Variable jwt_sign : claims -> string -> string -> string.
Variable jwt_verify : string -> string -> option claims.

(** A token signed with a secret verifies, under that secret, to its payload. *)
Hypothesis jwt_verify_sign :
  forall payload secret expiresIn,
    jwt_verify (jwt_sign payload secret expiresIn) secret = Some payload.

Lemma login_unknown_email (email password : string) (s : Store) :
  (forall u, In u (users s) -> Users.email u <> email) ->
  post_api_login JWT_SECRET bcrypt_compare jwt_sign email password s
  = (InvalidCredentials, s).
Proof.
  intros Hnone. unfold post_api_login, try_catch, bind, select_users_by_email.
  rewrite filter_none; [reflexivity|].
  intros u Hu. apply String.eqb_neq. auto.
Qed.

Lemma login_wrong_password (u : Users.row) (password : string) (s : Store) :
  constraints s -> In u (users s) ->
  bcrypt_compare password (Users.password u) = false ->
  post_api_login JWT_SECRET bcrypt_compare jwt_sign (Users.email u) password s
  = (InvalidCredentials, s).
Proof.
  intros Hc Hu Hp. unfold post_api_login, try_catch, bind, select_users_by_email.
  rewrite select_user_row by assumption. rewrite Hp. reflexivity.
Qed.

(** C9. Login with the email of a stored user and a password that
    [bcrypt.compare] accepts against the stored hash returns a token that
    verifies to that user's id and email.  A login with an unknown email and
    a login with a known email and a mismatching password get the same
    response, [InvalidCredentials], and neither changes the store. *)
Theorem login_claims_and_errors :
  (forall s u password,
     constraints s -> In u (users s) ->
     bcrypt_compare password (Users.password u) = true ->
     exists token,
       post_api_login JWT_SECRET bcrypt_compare jwt_sign (Users.email u) password s
       = (mkResponse 200 (JLogin token (Users.id u) (Users.name u) (Users.email u)), s)
       /\ jwt_verify token JWT_SECRET = Some (mkClaims (Users.id u) (Users.email u)))
  /\ (forall s email1 password1 u password2,
        constraints s ->
        (forall x, In x (users s) -> Users.email x <> email1) ->
        In u (users s) ->
        bcrypt_compare password2 (Users.password u) = false ->
        post_api_login JWT_SECRET bcrypt_compare jwt_sign email1 password1 s
        = post_api_login JWT_SECRET bcrypt_compare jwt_sign (Users.email u) password2 s
        /\ post_api_login JWT_SECRET bcrypt_compare jwt_sign email1 password1 s
           = (InvalidCredentials, s)).
Proof.
  split.
  - intros s u password Hc Hu Hp. eexists. split.
    + unfold post_api_login, try_catch, bind, select_users_by_email.
      rewrite select_user_row by assumption. rewrite Hp. reflexivity.
    + apply jwt_verify_sign.
  - intros s email1 password1 u password2 Hc Hnone Hu Hp.
    rewrite login_unknown_email by assumption.
    rewrite login_wrong_password by assumption.
    auto.
Qed.

End Login.

(** Alice logs in with her password; a stranger and Alice with a wrong
    password get the same answer. *)
Lemma login_claims_and_errors_witness :
  (exists token,
     post_api_login "secret" demo_compare demo_sign "alice@example.org" "alice"
       (run scenario_trace empty_store)
     = (mkResponse 200 (JLogin token 1 "Alice" "alice@example.org"),
        run scenario_trace empty_store)
     /\ demo_verify token "secret" = Some (mkClaims 1 "alice@example.org"))
  /\ post_api_login "secret" demo_compare demo_sign "carol@example.org" "carol"
       (run scenario_trace empty_store)
     = post_api_login "secret" demo_compare demo_sign "alice@example.org" "guess"
         (run scenario_trace empty_store).
Proof.
  pose proof (login_claims_and_errors "secret" demo_compare demo_sign demo_verify
                demo_verify_sign) as [Hok Herr].
  split.
  - apply (Hok (run scenario_trace empty_store)
             (Users.mk 1 "Alice" "alice@example.org" "$2a$10$alice") "alice").
    + apply run_constraints.
    + simpl. auto.
    + reflexivity.
  - apply (Herr (run scenario_trace empty_store) "carol@example.org" "carol"
             (Users.mk 1 "Alice" "alice@example.org" "$2a$10$alice") "guess").
    + apply run_constraints.
    + simpl. intros x [<- | [<- | []]]; simpl; discriminate.
    + simpl. auto.
    + reflexivity.
Defined.

(** ** C10: what a profile update without a password leaves alone *)



Lemma select_user_by_id (s : Store) (u : Users.row) :
  constraints s -> In u (users s) ->
  filter (fun x => Users.id x =? Users.id u) (users s) = [u].
Proof.
  intros Hc Hu. apply (filter_key Users.id); auto using users_pkey.
  - apply Z.eqb_refl.
  - intros x _ Hx. apply Z.eqb_eq. exact Hx.
Qed.

(** The store after [PUT /api/profile] is the store after its one statement. *)
Lemma put_api_profile_store (req_user_id : Z) (name email : string)
  (password : option string) (hashedPassword : string) (s : Store) :
  snd (put_api_profile req_user_id name email password hashedPassword s)
  = snd (update_user name email
           (if truthy_field password then Some hashedPassword else None) req_user_id s).
Proof.
  unfold put_api_profile, try_catch, bind.
  destruct (update_user _ _ _ _ s) as [[rows | e] s']; simpl; [destruct rows|]; reflexivity.
Qed.

Lemma store_eta (s : Store) :
  mkStore (users s) (events s) (bookings s) (users_id_seq s) (events_id_seq s)
    (bookings_id_seq s) = s.
Proof. destruct s; reflexivity. Qed.




(** * Further properties of the handlers *)

(** ** The schema holds in every reachable store *)

(** X1. Every store that the mutating routes of [server.js] can produce
    from the empty database satisfies the constraints [initializeDatabase]
    declares: the primary keys, [UNIQUE (email)],
    [UNIQUE (event_id, user_id)], the three foreign keys, and the types of
    the columns. *)
Theorem reachable_stores_satisfy_schema (s : Store) :
  reachable s -> constraints s.
Proof.
  induction 1 as [|r s Hs IH].
  - apply constraints_empty_store.
  - apply handle_constraints. exact IH.
Qed.

Lemma reachable_stores_satisfy_schema_witness :
  constraints (run booked_trace empty_store).
Proof.
  apply reachable_stores_satisfy_schema. apply run_reachable. constructor.
Defined.

Lemma run_bookings_positive (rs : list request) (s : Store) :
  forallb (fun r => negb (sends_text r)) rs = true ->
  bookings_positive s -> bookings_positive (run rs s).
Proof.
  revert s. induction rs as [|r rs IH]; simpl; intros s Hrs Hs; auto.
  apply andb_true_iff in Hrs. destruct Hrs as [Hr Hrs].
  apply IH; auto. apply handle_bookings_positive; auto.
  apply negb_true_iff. exact Hr.
Qed.

(** X2. In every store that requests with numeric seat counts produce from
    the empty database, each booking holds at least one seat: create and
    update refuse a number [<= 0], and nothing else writes [bookings.seats]. *)
Theorem reachable_bookings_hold_seats (rs : list request) (b : Bookings.row) :
  forallb (fun r => negb (sends_text r)) rs = true ->
  In b (bookings (run rs empty_store)) -> 0 < Bookings.seats b.
Proof.
  intros Hrs Hb.
  assert (Hpos : bookings_positive (run rs empty_store)).
  { apply run_bookings_positive; [exact Hrs | constructor]. }
  unfold bookings_positive in Hpos. rewrite Forall_forall in Hpos. auto.
Qed.

Lemma reachable_bookings_hold_seats_witness :
  0 < Bookings.seats (Bookings.mk 1 1 1 3).
Proof.
  apply (reachable_bookings_hold_seats booked_trace).
  - reflexivity.
  - simpl. auto.
Defined.

(** ** Registration *)

Lemma fits_three (a b c : string) :
  fits_100 a && fits_100 b && fits_100 c = true ->
  varchar_100 a && varchar_100 b && varchar_100 c = true
  /\ stored_100 a = a /\ stored_100 b = b /\ stored_100 c = c.
Proof.
  intros H. apply andb_true_iff in H. destruct H as [H Hc].
  apply andb_true_iff in H. destruct H as [Ha Hb].
  destruct (fits_varchar a Ha) as [-> ->].
  destruct (fits_varchar b Hb) as [-> ->].
  destruct (fits_varchar c Hc) as [-> ->]. auto.
Qed.

Lemma register_taken (name email hashedPassword : string) (s : Store) :
  fits_100 name && fits_100 email && fits_100 hashedPassword = true ->
  users_id_seq s < 2147483647 ->
  (exists u, In u (users s) /\ Users.email u = email) ->
  post_api_register name email hashedPassword s
  = (DuplicateEmail, with_users (users s) (users_id_seq s + 1) s).
Proof.
  intros Hfit Hroom [u [Hu Hemail]].
  destruct (fits_three _ _ _ Hfit) as [Hok [Hname [Hmail Hhash]]].
  unfold post_api_register, try_catch, bind, insert_user, parameters.
  rewrite Hok, Hname, Hmail, Hhash.
  replace (INTEGER_MAX <=? users_id_seq s) with false
    by (symmetry; apply Z.leb_gt; exact Hroom).
  cbv beta zeta. cbn [Users.email].
  replace (existsb _ (users s)) with true; [reflexivity|].
  symmetry. apply existsb_exists. exists u. split; auto.
  apply String.eqb_eq. exact Hemail.
Qed.

Lemma register_fresh (name email hashedPassword : string) (s : Store) :
  fits_100 name && fits_100 email && fits_100 hashedPassword = true ->
  users_id_seq s < 2147483647 ->
  (forall u, In u (users s) -> Users.email u <> email) ->
  post_api_register name email hashedPassword s
  = (mkResponse 201 (JUser (users_id_seq s + 1) name email),
     with_users (users s ++ [Users.mk (users_id_seq s + 1) name email hashedPassword])
       (users_id_seq s + 1) s).
Proof.
  intros Hfit Hroom Hfree.
  destruct (fits_three _ _ _ Hfit) as [Hok [Hname [Hmail Hhash]]].
  unfold post_api_register, try_catch, bind, insert_user, parameters.
  rewrite Hok, Hname, Hmail, Hhash.
  replace (INTEGER_MAX <=? users_id_seq s) with false
    by (symmetry; apply Z.leb_gt; exact Hroom).
  cbv beta zeta. cbn [Users.email].
  replace (existsb _ (users s)) with false; [reflexivity|].
  symmetry. apply not_true_is_false. intros H.
  apply existsb_exists in H. destruct H as [u [Hu Hemail]].
  apply String.eqb_eq in Hemail. exact (Hfree u Hu Hemail).
Qed.

(** X3. A registration whose name, email or hash the columns do not take
    (more than a hundred characters, not all spaces after the hundredth) is
    answered 500 and leaves the rows of the three tables as they were.  With
    a name, an email and a hash of at most a hundred characters, while the
    sequence of the user ids has an id left to give: registering an email
    that a stored user holds is answered with 400 [Email already exists] and
    adds no row to any table; registering a new email is answered with 201
    and the new user's id, name and email, and appends that user with the
    hash it was given. *)
Theorem register_keeps_emails_unique (name email hashedPassword : string) (s : Store) :
  (varchar_100 name && varchar_100 email && varchar_100 hashedPassword = false ->
   fst (post_api_register name email hashedPassword s)
   = error_json 500 "Registration failed"
   /\ users (snd (post_api_register name email hashedPassword s)) = users s
   /\ events (snd (post_api_register name email hashedPassword s)) = events s
   /\ bookings (snd (post_api_register name email hashedPassword s)) = bookings s)
  /\ (fits_100 name && fits_100 email && fits_100 hashedPassword = true ->
      users_id_seq s < 2147483647 ->
      ((exists u, In u (users s) /\ Users.email u = email) ->
       fst (post_api_register name email hashedPassword s) = DuplicateEmail
       /\ users (snd (post_api_register name email hashedPassword s)) = users s
       /\ events (snd (post_api_register name email hashedPassword s)) = events s
       /\ bookings (snd (post_api_register name email hashedPassword s)) = bookings s)
      /\ ((forall u, In u (users s) -> Users.email u <> email) ->
          fst (post_api_register name email hashedPassword s)
          = mkResponse 201 (JUser (users_id_seq s + 1) name email)
          /\ users (snd (post_api_register name email hashedPassword s))
             = users s ++ [Users.mk (users_id_seq s + 1) name email hashedPassword])).
Proof.
  split.
  - intros Hlong. unfold post_api_register, try_catch, bind, insert_user, parameters.
    rewrite Hlong. simpl. auto.
  - intros Hfit Hroom. split.
    + intros Htaken. rewrite register_taken by assumption. simpl. auto.
    + intros Hfree. rewrite register_fresh by assumption. simpl. auto.
Qed.

(** Alice's email is taken; Carol's is not; a name of 101 characters. *)
Lemma register_keeps_emails_unique_witness :
  fst (post_api_register "Eve" "alice@example.org" "$2a$10$eve"
         (run scenario_trace empty_store)) = DuplicateEmail
  /\ fst (post_api_register "Carol" "carol@example.org" "$2a$10$carol"
            (run scenario_trace empty_store))
     = mkResponse 201 (JUser 3 "Carol" "carol@example.org")
  /\ fst (post_api_register text_of_101_characters "carol@example.org" "$2a$10$carol"
            (run scenario_trace empty_store))
     = error_json 500 "Registration failed".
Proof.
  split; [|split].
  - apply (proj2 (register_keeps_emails_unique "Eve" "alice@example.org" "$2a$10$eve"
                    (run scenario_trace empty_store)));
      [reflexivity | simpl; lia |].
    exists (Users.mk 1 "Alice" "alice@example.org" "$2a$10$alice"). simpl. auto.
  - apply (proj2 (register_keeps_emails_unique "Carol" "carol@example.org" "$2a$10$carol"
                    (run scenario_trace empty_store)));
      [reflexivity | simpl; lia |].
    simpl. intros u [<- | [<- | []]]; simpl; discriminate.
  - apply (proj1 (register_keeps_emails_unique text_of_101_characters
                    "carol@example.org" "$2a$10$carol" (run scenario_trace empty_store))).
    reflexivity.
Defined.

(** ** From registration to an authenticated request *)

Lemma split_space_word (w rest : string) :
  no_space w = true ->
  split_space (String.append w (String " "%char rest)) = w :: split_space rest.
Proof.
  induction w as [|c w IH]; simpl; intros Hw; auto.
  apply andb_true_iff in Hw. destruct Hw as [Hc Hw].
  apply negb_true_iff in Hc. rewrite Hc, IH by exact Hw. reflexivity.
Qed.

Lemma split_space_last (w : string) :
  no_space w = true -> split_space w = [w].
Proof.
  induction w as [|c w IH]; simpl; intros Hw; auto.
  apply andb_true_iff in Hw. destruct Hw as [Hc Hw].
  apply negb_true_iff in Hc. rewrite Hc, IH by exact Hw. reflexivity.
Qed.

Lemma falsy_string_empty (t : string) : falsy_string t = true -> t = "".
Proof. unfold falsy_string. apply String.eqb_eq. Qed.

Lemma truthy_string (t : string) : t <> "" -> falsy_string t = false.
Proof. unfold falsy_string. apply String.eqb_neq. Qed.

Section Tokens.

Variable JWT_SECRET : string.
Variable bcrypt_compare : string -> string -> bool.
Variable jwt_sign : claims -> string -> string -> string.
Variable jwt_verify : string -> string -> option claims.

Hypothesis jwt_verify_sign :
  forall payload secret expiresIn,
    jwt_verify (jwt_sign payload secret expiresIn) secret = Some payload.

Lemma login_accepted (u : Users.row) (password : string) (s : Store) :
  constraints s -> In u (users s) ->
  bcrypt_compare password (Users.password u) = true ->
  post_api_login JWT_SECRET bcrypt_compare jwt_sign (Users.email u) password s
  = (mkResponse 200
       (JLogin (jwt_sign (mkClaims (Users.id u) (Users.email u)) JWT_SECRET "1h")
          (Users.id u) (Users.name u) (Users.email u)), s).
Proof.
  intros Hc Hu Hp. unfold post_api_login, try_catch, bind, select_users_by_email.
  rewrite select_user_row by assumption. rewrite Hp. reflexivity.
Qed.

(** X4. A user who has just registered with a new email (name, email and
    hash of at most a hundred characters, while the sequence of the user ids
    has an id left to give) can log in: with a password that [bcrypt.compare]
    accepts against the stored hash, login answers 200 with the id that
    registration returned, and its token verifies to that id and the email. *)
Theorem register_then_login (name email hashedPassword password : string) (s : Store) :
  constraints s ->
  fits_100 name && fits_100 email && fits_100 hashedPassword = true ->
  users_id_seq s < 2147483647 ->
  (forall u, In u (users s) -> Users.email u <> email) ->
  bcrypt_compare password hashedPassword = true ->
  fst (post_api_register name email hashedPassword s)
  = mkResponse 201 (JUser (users_id_seq s + 1) name email)
  /\ exists token,
       post_api_login JWT_SECRET bcrypt_compare jwt_sign email password
         (snd (post_api_register name email hashedPassword s))
       = (mkResponse 200 (JLogin token (users_id_seq s + 1) name email),
          snd (post_api_register name email hashedPassword s))
       /\ jwt_verify token JWT_SECRET = Some (mkClaims (users_id_seq s + 1) email).
Proof.
  intros Hc Hfit Hroom Hfree Hp.
  assert (Hc1 : constraints (snd (post_api_register name email hashedPassword s))).
  { apply (handle_constraints (PostRegister name email hashedPassword)). exact Hc. }
  rewrite register_fresh in * by assumption. simpl in *.
  split; [reflexivity|]. eexists. split.
  - apply (login_accepted (Users.mk (users_id_seq s + 1) name email hashedPassword));
      [exact Hc1 | simpl; apply in_or_app; right; left; reflexivity | exact Hp].
  - apply jwt_verify_sign.
Qed.

Lemma authenticateToken_second_word (scheme token : string) :
  no_space scheme = true -> no_space token = true -> token <> "" ->
  authenticateToken JWT_SECRET jwt_verify
    (Some (String.append scheme (String " "%char token)))
  = match jwt_verify token JWT_SECRET with
    | None => SendStatus 403
    | Some user => Next user
    end.
Proof.
  intros Hs Ht Hne. unfold authenticateToken.
  replace (falsy_string (String.append scheme (String " "%char token))) with false.
  - rewrite split_space_word, split_space_last by assumption. simpl.
    rewrite truthy_string by exact Hne. reflexivity.
  - symmetry. apply truthy_string. destruct scheme; discriminate.
Qed.

(** X5. [authenticateToken] answers 401 when the request has no
    [authorization] header, and it calls [next()] only with the claims that
    [jwt.verify] returned for the second word of the header.  For a header
    made of one word, a space and a non-empty word, the second word alone
    decides: 403 when it does not verify, [next()] with its claims when it
    does; the first word is not looked at. *)
Theorem authenticateToken_verdicts :
  authenticateToken JWT_SECRET jwt_verify None = SendStatus 401
  /\ (forall authHeader user,
        authenticateToken JWT_SECRET jwt_verify (Some authHeader) = Next user ->
        exists token,
          nth_error (split_space authHeader) 1 = Some token
          /\ jwt_verify token JWT_SECRET = Some user)
  /\ (forall scheme token,
        no_space scheme = true -> no_space token = true -> token <> "" ->
        authenticateToken JWT_SECRET jwt_verify
          (Some (String.append scheme (String " "%char token)))
        = match jwt_verify token JWT_SECRET with
          | None => SendStatus 403
          | Some user => Next user
          end).
Proof.
  split; [reflexivity|]. split.
  - intros authHeader user. unfold authenticateToken.
    destruct (falsy_string authHeader) eqn:Hh.
    + rewrite Hh. discriminate.
    + destruct (nth_error (split_space authHeader) 1) as [token|]; [|discriminate].
      destruct (falsy_string token); [discriminate|].
      destruct (jwt_verify token JWT_SECRET) as [user'|] eqn:Hv; [|discriminate].
      intros H. inversion H; subst. exists token. auto.
  - apply authenticateToken_second_word.
Qed.

(** X6. The token that a successful login returns, sent back as
    [Bearer <token>], passes [authenticateToken] with the id and the email of
    the user who logged in (a token being one non-empty word). *)
Theorem login_token_authenticates (u : Users.row) (password : string) (s : Store) :
  constraints s -> In u (users s) ->
  bcrypt_compare password (Users.password u) = true ->
  no_space (jwt_sign (mkClaims (Users.id u) (Users.email u)) JWT_SECRET "1h") = true ->
  jwt_sign (mkClaims (Users.id u) (Users.email u)) JWT_SECRET "1h" <> "" ->
  exists token,
    fst (post_api_login JWT_SECRET bcrypt_compare jwt_sign (Users.email u) password s)
    = mkResponse 200 (JLogin token (Users.id u) (Users.name u) (Users.email u))
    /\ authenticateToken JWT_SECRET jwt_verify
         (Some (String.append "Bearer" (String " "%char token)))
       = Next (mkClaims (Users.id u) (Users.email u)).
Proof.
  intros Hc Hu Hp Hword Hne. eexists. split.
  - rewrite login_accepted by assumption. reflexivity.
  - rewrite (authenticateToken_second_word "Bearer" _ eq_refl Hword Hne).
    rewrite jwt_verify_sign. reflexivity.
Qed.

End Tokens.

(** Carol registers and logs in with the reference primitives. *)
Lemma register_then_login_witness :
  fst (post_api_register "Carol" "carol@example.org" "$2a$10$carol"
         (run scenario_trace empty_store))
  = mkResponse 201 (JUser (2 + 1) "Carol" "carol@example.org")
  /\ exists token,
       post_api_login "secret" demo_compare demo_sign "carol@example.org" "carol"
         (snd (post_api_register "Carol" "carol@example.org" "$2a$10$carol"
                 (run scenario_trace empty_store)))
       = (mkResponse 200 (JLogin token (2 + 1) "Carol" "carol@example.org"),
          snd (post_api_register "Carol" "carol@example.org" "$2a$10$carol"
                 (run scenario_trace empty_store)))
       /\ demo_verify token "secret" = Some (mkClaims (2 + 1) "carol@example.org").
Proof.
  apply (register_then_login "secret" demo_compare demo_sign demo_verify demo_verify_sign
           "Carol" "carol@example.org" "$2a$10$carol" "carol"
           (run scenario_trace empty_store)).
  - apply run_constraints.
  - reflexivity.
  - simpl. lia.
  - simpl. intros u [<- | [<- | []]]; simpl; discriminate.
  - reflexivity.
Defined.

(** A header without a second word, and headers whose second word does and
    does not verify. *)
Lemma authenticateToken_verdicts_witness :
  authenticateToken "secret" demo_verify None = SendStatus 401
  /\ (exists token,
        nth_error (split_space "Bearer p.alice@example.org") 1 = Some token
        /\ demo_verify token "secret" = Some (mkClaims 1 "alice@example.org"))
  /\ authenticateToken "secret" demo_verify (Some "Token garbage") = SendStatus 403.
Proof.
  destruct (authenticateToken_verdicts "secret" demo_verify) as [Hnone [Hnext Hword]].
  split; [exact Hnone|]. split.
  - apply Hnext. reflexivity.
  - apply (Hword "Token" "garbage"); [reflexivity | reflexivity | discriminate].
Defined.

(** Alice logs in and sends her token back. *)
Lemma login_token_authenticates_witness :
  exists token,
    fst (post_api_login "secret" demo_compare demo_sign "alice@example.org" "alice"
           (run scenario_trace empty_store))
    = mkResponse 200 (JLogin token 1 "Alice" "alice@example.org")
    /\ authenticateToken "secret" demo_verify
         (Some (String.append "Bearer" (String " "%char token)))
       = Next (mkClaims 1 "alice@example.org").
Proof.
  apply (login_token_authenticates "secret" demo_compare demo_sign demo_verify
           demo_verify_sign
           (Users.mk 1 "Alice" "alice@example.org" "$2a$10$alice") "alice"
           (run scenario_trace empty_store)).
  - apply run_constraints.
  - simpl. auto.
  - reflexivity.
  - reflexivity.
  - discriminate.
Defined.

(** ** Seat accounting *)

Lemma sum_app (l1 l2 : list Z) :
  fold_right Z.add 0 (l1 ++ l2) = fold_right Z.add 0 l1 + fold_right Z.add 0 l2.
Proof. induction l1 as [|n l1 IH]; simpl; lia. Qed.

Lemma filter_negb_all {A : Type} (p : A -> bool) (l : list A) :
  (forall y, In y l -> p y = false) -> filter (fun x => negb (p x)) l = l.
Proof.
  induction l as [|y l IH]; simpl; intros H; auto.
  rewrite (H y) by auto. simpl. rewrite IH; auto.
Qed.

(** The sum of a column over all rows but the one deleted by its key. *)
Lemma sum_delete_row {A : Type} (key : A -> Z) (g : A -> Z) (q p : A -> bool)
  (l : list A) (b : A) :
  NoDup (map key l) -> In b l ->
  (forall x, In x l -> p x = true <-> key x = key b) ->
  fold_right Z.add 0 (map g (filter q (filter (fun x => negb (p x)) l)))
  = fold_right Z.add 0 (map g (filter q l)) - (if q b then g b else 0).
Proof.
  induction l as [|x l IH]; simpl; intros Hnd Hb Hp; [contradiction|].
  inversion Hnd as [|? ? Hnotin Hrest]; subst.
  destruct Hb as [-> | Hb].
  - replace (p b) with true by (symmetry; apply Hp; auto). simpl.
    rewrite filter_negb_all.
    + destruct (q b); simpl; lia.
    + intros y Hy. destruct (p y) eqn:Hpy; auto.
      exfalso. apply Hnotin. apply Hp in Hpy; auto. rewrite <- Hpy. apply in_map. exact Hy.
  - replace (p x) with false.
    + simpl. destruct (q x); simpl; rewrite IH; auto; lia.
    + symmetry. apply not_true_is_false. intros Hpx. apply Hp in Hpx; auto.
      apply Hnotin. rewrite Hpx. apply in_map. exact Hb.
Qed.

(** The sum of a column after an update of the one row that holds a key. *)
Lemma sum_update_row {A : Type} (key : A -> Z) (g : A -> Z) (q p : A -> bool)
  (f : A -> A) (l : list A) (b : A) :
  NoDup (map key l) -> In b l ->
  (forall x, In x l -> p x = true <-> key x = key b) ->
  (forall x, q (f x) = q x) ->
  fold_right Z.add 0 (map g (filter q (map (fun x => if p x then f x else x) l)))
  = fold_right Z.add 0 (map g (filter q l)) + (if q b then g (f b) - g b else 0).
Proof.
  induction l as [|x l IH]; simpl; intros Hnd Hb Hp Hq; [contradiction|].
  inversion Hnd as [|? ? Hnotin Hrest]; subst.
  destruct Hb as [-> | Hb].
  - replace (p b) with true by (symmetry; apply Hp; auto).
    rewrite Hq. rewrite update_fixed.
    + destruct (q b); simpl; lia.
    + intros y Hy Hpy. exfalso. apply Hnotin. apply Hp in Hpy; auto.
      rewrite <- Hpy. apply in_map. exact Hy.
  - replace (p x) with false.
    + destruct (q x); simpl; rewrite IH; auto; lia.
    + symmetry. apply not_true_is_false. intros Hpx. apply Hp in Hpx; auto.
      apply Hnotin. rewrite Hpx. apply in_map. exact Hb.
Qed.

Lemma available_seats_of_one (s : Store) (id n : Z) (rest : list Z) :
  constraints s -> available_seats_of id s = n :: rest -> rest = [].
Proof.
  intros Hc. unfold available_seats_of.
  destruct (filter _ (events s)) as [|e0 es] eqn:Hsel; [discriminate|].
  pose proof (filter_head _ _ _ _ Hsel) as [He0 Hid]. apply Z.eqb_eq in Hid. subst id.
  rewrite (select_event_row s e0 Hc He0) in Hsel.
  inversion Hsel; subst. simpl. intros H. inversion H. reflexivity.
Qed.

(** The seats an event offers after [n] of them moved, out or back in. *)
Lemma available_total_shift (f : Z -> Z) (id eid n : Z) (s s' : Store) :
  constraints s -> available_seats_of id s = [n] ->
  events s' = map (fun e => if Events.id e =? id
                            then Events.set_available_seats (f (Events.available_seats e)) e
                            else e) (events s) ->
  fold_right Z.add 0 (available_seats_of eid s')
  = fold_right Z.add 0 (available_seats_of eid s) + (if eid =? id then f n - n else 0).
Proof.
  intros Hc Hn Hs'. unfold available_seats_of at 1. rewrite Hs'.
  rewrite available_seats_of_update.
  destruct (Z.eqb_spec eid id) as [-> | Hneq].
  - fold (available_seats_of id s). rewrite Hn. simpl. lia.
  - rewrite map_id. unfold available_seats_of. lia.
Qed.

(** A branch of a handler that is answered 500, in a statement about the
    requests that are not. *)
Ltac answered_500 :=
  let H := fresh "H" in
  simpl; intros H; exfalso; apply H; reflexivity.

Lemma create_moves_seats (event_id req_user_id seats eid : Z) (s : Store) (e0 : Events.row)
  (rest : list Events.row) :
  constraints s ->
  filter (fun e => Events.id e =? event_id) (events s) = e0 :: rest ->
  seats_total eid
    (with_available_seats (fun n => n - seats) event_id
       (with_bookings
          (bookings s ++ [Bookings.mk (bookings_id_seq s + 1) event_id req_user_id seats])
          (bookings_id_seq s + 1) s))
  = seats_total eid s.
Proof.
  intros Hc Hsel.
  pose proof (filter_head _ _ _ _ Hsel) as [He0 Hid]. apply Z.eqb_eq in Hid. subst event_id.
  unfold seats_total, booked_seats. simpl.
  rewrite (available_total_shift (fun n => n - seats) (Events.id e0) eid
             (Events.available_seats e0) s)
    by auto using available_seats_of_row.
  rewrite filter_app, map_app, sum_app. simpl.
  rewrite (Z.eqb_sym (Events.id e0) eid).
  destruct (eid =? Events.id e0); simpl; lia.
Qed.

Lemma create_conserves_seats (req_user_id event_id seats eid : Z) (s : Store) :
  constraints s ->
  status (fst (post_api_bookings req_user_id event_id seats s)) <> 500 ->
  seats_total eid (snd (post_api_bookings req_user_id event_id seats s)) = seats_total eid s.
Proof.
  intros Hc. unfold post_api_bookings, try_catch, bind, select_bookings_of, select_event,
    insert_booking, take_seats, update_available_seats, parameters.
  destruct (falsy_number seats || (seats <=? 0)); simpl; auto.
  destruct (integer event_id); [|answered_500]. simpl.
  destruct (map Bookings.id _); simpl; auto.
  destruct (filter _ (events s)) as [|e0 rest] eqn:Hsel; simpl; auto.
  destruct (Events.available_seats e0 <? seats); simpl; auto.
  destruct (integer seats); [|answered_500]. simpl.
  destruct (INTEGER_MAX <=? bookings_id_seq s); [answered_500|].
  destruct (existsb _ (bookings s)); [answered_500|].
  destruct (event_exists event_id s && user_exists req_user_id s); [|answered_500].
  simpl. destruct (forallb _ (events s)); [|answered_500].
  simpl. intros _. apply (create_moves_seats event_id req_user_id seats eid s e0 rest); auto.
Qed.

Lemma create_text_conserves_seats (req_user_id event_id reading eid : Z) (s : Store) :
  constraints s ->
  status (fst (post_api_bookings_text req_user_id event_id reading s)) <> 500 ->
  seats_total eid (snd (post_api_bookings_text req_user_id event_id reading s))
  = seats_total eid s.
Proof.
  intros Hc. unfold post_api_bookings_text, try_catch, bind, select_bookings_of,
    select_event, insert_booking, take_seats, update_available_seats, parameters.
  destruct (integer event_id); [|answered_500]. simpl.
  destruct (map Bookings.id _); simpl; auto.
  destruct (filter _ (events s)) as [|e0 rest] eqn:Hsel; simpl; auto.
  destruct (integer reading); [|answered_500]. simpl.
  destruct (INTEGER_MAX <=? bookings_id_seq s); [answered_500|].
  destruct (existsb _ (bookings s)); [answered_500|].
  destruct (event_exists event_id s && user_exists req_user_id s); [|answered_500].
  simpl. destruct (forallb _ (events s)); [|answered_500].
  simpl. intros _. apply (create_moves_seats event_id req_user_id reading eid s e0 rest); auto.
Qed.

Lemma update_conserves_seats (id req_user_id seats eid : Z) (s : Store) :
  constraints s ->
  status (fst (put_api_bookings id req_user_id seats s)) <> 500 ->
  seats_total eid (snd (put_api_bookings id req_user_id seats s)) = seats_total eid s.
Proof.
  intros Hc.
  unfold put_api_bookings, try_catch, bind, select_booking, select_available_seats,
    update_booking_seats, take_seats, update_available_seats, parameters.
  destruct (falsy_number seats || (seats <=? 0)); simpl; auto.
  destruct (integer id); [|answered_500]. simpl.
  destruct (filter _ (bookings s)) as [|b0 rest] eqn:Hb; simpl; auto.
  destruct (integer (Bookings.event_id b0)); [|answered_500]. simpl.
  destruct (available_seats_of (Bookings.event_id b0) s) as [|n0 ns] eqn:Hsel;
    [answered_500|]. simpl.
  destruct (n0 <? seats - Bookings.seats b0); simpl; auto.
  destruct (integer seats); [|answered_500]. simpl.
  destruct (integer (seats - Bookings.seats b0)); [|answered_500]. simpl.
  destruct (forallb _ (events s)); [|answered_500].
  pose proof (available_seats_of_one s _ _ _ Hc Hsel). subst ns.
  pose proof (filter_head _ _ _ _ Hb) as [Hb0 Hmatch].
  apply booking_is_true in Hmatch. destruct Hmatch as [Hid _]. subst id.
  assert (Hgoal :
    seats_total eid
      (with_available_seats (fun n => n - (seats - Bookings.seats b0))
         (Bookings.event_id b0) (with_seats_of_booking seats (Bookings.id b0) s))
    = seats_total eid s).
  { unfold seats_total at 1, booked_seats at 1. simpl.
    rewrite (available_total_shift (fun n => n - (seats - Bookings.seats b0))
               (Bookings.event_id b0) eid n0 s) by auto.
    rewrite (sum_update_row Bookings.id Bookings.seats _ _ _ _ b0);
      auto using bookings_pkey.
    - unfold seats_total, booked_seats. simpl.
      rewrite (Z.eqb_sym (Bookings.event_id b0) eid).
      destruct (eid =? Bookings.event_id b0); lia.
    - intros x _. apply Z.eqb_eq. }
  destruct (map _ (filter _ (bookings s))); simpl; intros _; exact Hgoal.
Qed.

Lemma update_text_conserves_seats (id req_user_id reading eid : Z) (s : Store) :
  status (fst (put_api_bookings_text id req_user_id reading s)) <> 500 ->
  seats_total eid (snd (put_api_bookings_text id req_user_id reading s)) = seats_total eid s.
Proof.
  unfold put_api_bookings_text, try_catch, bind, select_booking, select_available_seats,
    update_booking_seats, parameters, throw.
  destruct (integer id); [|answered_500]. simpl.
  destruct (filter _ (bookings s)) as [|b0 rest]; simpl; auto.
  destruct (integer (Bookings.event_id b0)); [|answered_500]. simpl.
  destruct (available_seats_of (Bookings.event_id b0) s); [answered_500|].
  destruct (integer reading); answered_500.
Qed.

Lemma cancel_conserves_seats (id req_user_id eid : Z) (s : Store) :
  constraints s ->
  status (fst (delete_api_bookings id req_user_id s)) <> 500 ->
  seats_total eid (snd (delete_api_bookings id req_user_id s)) = seats_total eid s.
Proof.
  intros Hc. unfold delete_api_bookings, try_catch, bind, select_booking, delete_booking,
    return_seats, update_available_seats, parameters.
  destruct (integer id); [|answered_500]. simpl.
  destruct (filter _ (bookings s)) as [|b0 rest] eqn:Hb; simpl; auto.
  destruct (integer (Bookings.seats b0) && integer (Bookings.event_id b0));
    [|answered_500]. simpl.
  destruct (forallb _ (events s)); [|answered_500]. simpl. intros _.
  pose proof (filter_head _ _ _ _ Hb) as [Hb0 Hmatch].
  apply booking_is_true in Hmatch. destruct Hmatch as [Hid Hu]. subst id req_user_id.
  destruct (booking_event_row s b0 Hc Hb0) as [e [He Heid]].
  unfold seats_total, booked_seats. simpl.
  rewrite (available_total_shift (fun n => n + Bookings.seats b0)
             (Bookings.event_id b0) eid (Events.available_seats e) s)
    by (auto; rewrite <- Heid; apply available_seats_of_row; auto).
  rewrite (sum_delete_row Bookings.id Bookings.seats _ _ _ b0); auto using bookings_pkey.
  - rewrite (Z.eqb_sym (Bookings.event_id b0) eid).
    destruct (eid =? Bookings.event_id b0); lia.
  - intros x Hx. rewrite booking_is_true. split; [tauto|].
    intros Hkey. split; auto.
    rewrite (pkey_row Bookings.id (bookings s) x b0); auto using bookings_pkey.
Qed.

(** X7. The booking operations only move seats between an event and its
    bookings: for every event id, the event's [available_seats] plus the seats
    of all bookings on it is the same before and after a create, an update or
    a cancel that is not answered 500, whether it succeeds or is refused.  (A
    request that is answered 500 can have written the booking and not the
    event.) *)
Theorem booking_operations_conserve_seats (r : request) (eid : Z) (s : Store) :
  constraints s -> is_booking_request r = true ->
  status (fst (handle r s)) <> 500 ->
  seats_total eid (snd (handle r s)) = seats_total eid s.
Proof.
  intros Hc Hr. destruct r; try discriminate Hr; simpl.
  - apply create_conserves_seats. exact Hc.
  - apply update_conserves_seats. exact Hc.
  - apply cancel_conserves_seats. exact Hc.
  - apply create_text_conserves_seats. exact Hc.
  - apply update_text_conserves_seats.
Qed.

(** Alice raises her booking from three seats to four: five in all before
    and after. *)
Lemma booking_operations_conserve_seats_witness :
  seats_total 1 (snd (handle (PutBookings 1 1 4) (run booked_trace empty_store)))
  = seats_total 1 (run booked_trace empty_store).
Proof.
  apply booking_operations_conserve_seats.
  - apply run_constraints.
  - reflexivity.
  - simpl. discriminate.
Defined.

(** ** Create, then cancel *)

Lemma create_store (s s1 : Store) (req_user_id event_id seats : Z) (b : Bookings.row) :
  post_api_bookings req_user_id event_id seats s = (mkResponse 201 (JBooking b), s1) ->
  b = Bookings.mk (bookings_id_seq s + 1) event_id req_user_id seats
  /\ s1 = with_available_seats (fun n => n - seats) event_id
            (with_bookings (bookings s ++ [b]) (bookings_id_seq s + 1) s)
  /\ exists e0, In e0 (events s) /\ Events.id e0 = event_id.
Proof.
  unfold post_api_bookings, try_catch, bind, select_bookings_of, select_event,
    insert_booking, take_seats, update_available_seats, parameters.
  destruct (falsy_number seats || (seats <=? 0)); [discriminate|].
  destruct (integer event_id); [|discriminate]. simpl.
  destruct (map Bookings.id _); [|discriminate]. simpl.
  destruct (filter _ (events s)) as [|e0 rest] eqn:Hsel; [discriminate|].
  destruct (Events.available_seats e0 <? seats); [discriminate|].
  destruct (integer seats); [|discriminate]. simpl.
  destruct (INTEGER_MAX <=? bookings_id_seq s); [discriminate|].
  destruct (existsb _ (bookings s)); [discriminate|].
  destruct (event_exists event_id s && user_exists req_user_id s); [|discriminate].
  simpl. destruct (forallb _ (events s)); [|discriminate].
  simpl. intros H. inversion H; subst. split; [reflexivity|]. split; [reflexivity|].
  apply filter_head in Hsel. destruct Hsel as [He0 Hid]. apply Z.eqb_eq in Hid.
  exists e0. auto.
Qed.

Lemma give_back (n id : Z) (l : list Events.row) :
  map (fun e => if Events.id e =? id
                then Events.set_available_seats (Events.available_seats e + n) e
                else e)
    (map (fun e => if Events.id e =? id
                   then Events.set_available_seats (Events.available_seats e - n) e
                   else e) l)
  = l.
Proof.
  rewrite map_map. rewrite <- (map_id l) at 2. apply map_ext.
  intros e. destruct (Events.id e =? id) eqn:Hid; simpl; rewrite Hid; auto.
  destruct e; unfold Events.set_available_seats; simpl. f_equal. lia.
Qed.

(** X8. Cancelling a booking right after it was created undoes the
    create: the cancel succeeds, and the three tables are what they were
    before the create (only the id of the booking stays used). *)
Theorem create_then_cancel (s s1 : Store) (req_user_id event_id seats : Z)
  (b : Bookings.row) :
  constraints s ->
  post_api_bookings req_user_id event_id seats s = (mkResponse 201 (JBooking b), s1) ->
  exists s2,
    delete_api_bookings (Bookings.id b) req_user_id s1
    = (mkResponse 200 (JMessage "Booking cancelled successfully"), s2)
    /\ users s2 = users s /\ events s2 = events s /\ bookings s2 = bookings s
    /\ bookings_id_seq s2 = bookings_id_seq s + 1.
Proof.
  intros Hc Hcreate.
  assert (Hc1 : constraints s1).
  { replace s1 with (snd (handle (PostBookings req_user_id event_id seats) s))
      by (simpl; rewrite Hcreate; reflexivity).
    apply handle_constraints. exact Hc. }
  destruct (create_store _ _ _ _ _ _ Hcreate) as [Hb [Hs1 [e0 [He0 Hid0]]]].
  assert (Hin : In b (bookings s1)).
  { rewrite Hs1. simpl. apply in_or_app. right. left. reflexivity. }
  assert (Hu : Bookings.user_id b = req_user_id) by (rewrite Hb; reflexivity).
  assert (Hseats : Bookings.seats b = seats) by (rewrite Hb; reflexivity).
  assert (Heid : Bookings.event_id b = event_id) by (rewrite Hb; reflexivity).
  assert (He1 : In (Events.set_available_seats (Events.available_seats e0 - seats) e0)
                  (events s1)).
  { rewrite Hs1. simpl. apply in_map_iff. exists e0. split; auto.
    rewrite Hid0, Z.eqb_refl. reflexivity. }
  eexists. split.
  - rewrite <- Hu.
    apply (cancel_succeeds s1 b _ Hc1 Hin He1); [simpl; congruence|].
    simpl. rewrite Hseats.
    replace (Events.available_seats e0 - seats + seats) with (Events.available_seats e0)
      by lia.
    apply (event_typed s e0 Hc He0).
  - rewrite Hs1. simpl. split; [reflexivity|]. split; [|split; [|reflexivity]].
    + rewrite Hb. simpl. apply give_back.
    + rewrite filter_app. simpl.
      replace (booking_is (Bookings.id b) (Bookings.user_id b) b) with true
        by (symmetry; apply booking_is_true; auto).
      simpl. rewrite app_nil_r. apply filter_negb_all.
      intros x Hx. apply not_true_is_false. intros Hp.
      apply booking_is_true in Hp. destruct Hp as [Hid _].
      pose proof (bookings_id_drawn s Hc) as Hdrawn.
      rewrite Forall_forall in Hdrawn. specialize (Hdrawn x Hx).
      rewrite Hb in Hid. simpl in Hid. lia.
Qed.

(** Bob books the two seats left, then cancels. *)
Lemma create_then_cancel_witness :
  exists s2,
    delete_api_bookings 2 2 (snd (post_api_bookings 2 1 2 (run booked_trace empty_store)))
    = (mkResponse 200 (JMessage "Booking cancelled successfully"), s2)
    /\ users s2 = users (run booked_trace empty_store)
    /\ events s2 = events (run booked_trace empty_store)
    /\ bookings s2 = bookings (run booked_trace empty_store)
    /\ bookings_id_seq s2 = bookings_id_seq (run booked_trace empty_store) + 1.
Proof.
  apply (create_then_cancel (run booked_trace empty_store)
           (snd (post_api_bookings 2 1 2 (run booked_trace empty_store)))
           2 1 2 (Bookings.mk 2 1 2 2)).
  - apply run_constraints.
  - reflexivity.
Defined.

(** ** Deleting events and rooms as their owner *)

Lemma not_referenced (victims : list Events.row) (s : Store) :
  (forall b e, In b (bookings s) -> In e victims -> Events.id e <> Bookings.event_id b) ->
  referenced victims s = false.
Proof.
  intros H. unfold referenced. apply not_true_is_false. intros Href.
  apply existsb_exists in Href. destruct Href as [b [Hb Hex]].
  apply existsb_exists in Hex. destruct Hex as [e [He Hid]].
  apply Z.eqb_eq in Hid. exact (H b e Hb He Hid).
Qed.

Lemma event_owned_true (id user_id : Z) (e : Events.row) :
  event_owned id user_id e = true <-> Events.id e = id /\ Events.user_id e = user_id.
Proof. unfold event_owned. rewrite andb_true_iff, !Z.eqb_eq. tauto. Qed.

Lemma event_in_room_true (room : string) (user_id : Z) (e : Events.row) :
  event_in_room room user_id e = true
  <-> Events.location e = room /\ Events.user_id e = user_id.
Proof. unfold event_in_room. rewrite andb_true_iff, String.eqb_eq, Z.eqb_eq. tauto. Qed.

Lemma filter_some {A : Type} (p : A -> bool) (l : list A) (a : A) :
  In a l -> p a = true -> exists x rest, filter p l = x :: rest.
Proof.
  intros Ha Hp. destruct (filter p l) as [|x rest] eqn:Hsel; eauto.
  rewrite (filter_nil p l Hsel a Ha) in Hp. discriminate.
Qed.

(** X9. [DELETE /api/events/:id] by the owner of the event (a stored
    row, whose id is an [INTEGER]) always succeeds: the bookings of the event
    are deleted first, so the foreign key never stops the delete; afterwards
    the event is gone, exactly the bookings on it are gone, and every other
    event, booking and user is as before. *)
Theorem delete_event_by_owner (s : Store) (e : Events.row) :
  In e (events s) -> integer (Events.id e) = true ->
  fst (delete_api_events (Events.id e) (Events.user_id e) s)
  = mkResponse 200 (JMessage "Event and associated bookings deleted successfully")
  /\ (forall x, In x (events (snd (delete_api_events (Events.id e) (Events.user_id e) s)))
                <-> In x (events s)
                    /\ ~ (Events.id x = Events.id e /\ Events.user_id x = Events.user_id e))
  /\ (forall b, In b (bookings (snd (delete_api_events (Events.id e) (Events.user_id e) s)))
                <-> In b (bookings s) /\ Bookings.event_id b <> Events.id e)
  /\ users (snd (delete_api_events (Events.id e) (Events.user_id e) s)) = users s.
Proof.
  intros He Hint.
  unfold delete_api_events, try_catch, bind, delete_event, delete_events_where,
    delete_bookings_of_event, parameters.
  rewrite Hint.
  simpl. rewrite not_referenced.
  - destruct (filter_some (event_owned (Events.id e) (Events.user_id e)) (events s) e He)
      as [x [rest Hsel]]; [apply event_owned_true; auto|].
    rewrite Hsel. simpl. split; [reflexivity|]. split; [|split; [|reflexivity]].
    + intros y. rewrite filter_In, negb_true_iff, <- not_true_iff_false, event_owned_true.
      tauto.
    + intros b. rewrite filter_In, negb_true_iff, Z.eqb_neq. tauto.
  - simpl. intros b x Hb Hx Hid.
    apply filter_In in Hb. destruct Hb as [_ Hb].
    apply filter_In in Hx. destruct Hx as [_ Hx]. apply event_owned_true in Hx.
    apply negb_true_iff, Z.eqb_neq in Hb. apply Hb. rewrite <- Hid. tauto.
Qed.

(** Alice deletes her event: her booking on it goes with it. *)
Lemma delete_event_by_owner_witness :
  fst (delete_api_events 1 1 (run booked_trace empty_store))
  = mkResponse 200 (JMessage "Event and associated bookings deleted successfully")
  /\ events (snd (delete_api_events 1 1 (run booked_trace empty_store))) = []
  /\ bookings (snd (delete_api_events 1 1 (run booked_trace empty_store))) = [].
Proof.
  destruct (delete_event_by_owner (run booked_trace empty_store)
              (Events.mk 1 "Concert" None "2030-01-01" "Main hall" 2 1))
    as [Hok _].
  - simpl. auto.
  - reflexivity.
  - split; [exact Hok|]. split; reflexivity.
Defined.

Lemma delete_api_rooms_store (req_user_id : Z) (roomName : string) (s : Store) :
  snd (delete_api_rooms req_user_id roomName s)
  = snd (delete_events_in_room roomName req_user_id
           (snd (delete_bookings_in_room roomName req_user_id s))).
Proof.
  unfold delete_api_rooms, try_catch, bind.
  change (delete_bookings_in_room roomName req_user_id s)
    with (@inl unit error tt, snd (delete_bookings_in_room roomName req_user_id s)).
  cbv iota.
  destruct (delete_events_in_room roomName req_user_id _) as [[rows | err] s2];
    simpl; [destruct rows|]; reflexivity.
Qed.

Lemma delete_room_owned (req_user_id : Z) (roomName : string) (s : Store) :
  (exists e, In e (events s)
             /\ Events.location e = roomName /\ Events.user_id e = req_user_id) ->
  fst (delete_api_rooms req_user_id roomName s)
  = mkResponse 200 (JMessage "Room and all associated events deleted successfully")
  /\ (forall x, In x (events (snd (delete_api_rooms req_user_id roomName s)))
                <-> In x (events s)
                    /\ ~ (Events.location x = roomName /\ Events.user_id x = req_user_id))
  /\ (forall b, In b (bookings (snd (delete_api_rooms req_user_id roomName s)))
                <-> In b (bookings s)
                    /\ ~ (exists e, In e (events s)
                                    /\ Events.id e = Bookings.event_id b
                                    /\ Events.location e = roomName
                                    /\ Events.user_id e = req_user_id)).
Proof.
  intros [e [He Hroom]].
  assert (Hfree :
    referenced (filter (event_in_room roomName req_user_id) (events s))
      (snd (delete_bookings_in_room roomName req_user_id s)) = false).
  { apply not_referenced. simpl. intros b x Hb Hx Hid.
    apply filter_In in Hb. destruct Hb as [_ Hb].
    apply negb_true_iff, not_true_iff_false in Hb. apply Hb.
    apply existsb_exists. exists (Events.id x). split.
    - apply in_map. exact Hx.
    - apply Z.eqb_eq. congruence. }
  split; [|rewrite delete_api_rooms_store;
           unfold delete_events_in_room, delete_events_where;
           change (events (snd (delete_bookings_in_room roomName req_user_id s)))
             with (events s);
           rewrite Hfree; split].
  - unfold delete_api_rooms, try_catch, bind.
    change (delete_bookings_in_room roomName req_user_id s)
      with (@inl unit error tt, snd (delete_bookings_in_room roomName req_user_id s)).
    cbv iota. unfold delete_events_in_room, delete_events_where.
    change (events (snd (delete_bookings_in_room roomName req_user_id s)))
      with (events s).
    rewrite Hfree.
    destruct (filter_some (event_in_room roomName req_user_id) (events s) e He)
      as [x [rest Hsel]]; [apply event_in_room_true; auto|].
    rewrite Hsel. reflexivity.
  - intros y. cbn [snd events with_events].
    rewrite filter_In, negb_true_iff, <- not_true_iff_false, event_in_room_true.
    tauto.
  - intros b. cbn [snd bookings with_events delete_bookings_in_room with_bookings].
    rewrite filter_In.
    split; intros [Hb Hnone]; split; auto.
    + apply negb_true_iff, not_true_iff_false in Hnone.
      intros [x' [Hx' [Hid Hin]]]. apply Hnone.
      apply existsb_exists. exists (Events.id x'). split.
      * apply in_map. apply filter_In. split; auto. apply event_in_room_true. exact Hin.
      * apply Z.eqb_eq. congruence.
    + apply negb_true_iff, not_true_iff_false. intros Hex.
      apply existsb_exists in Hex. destruct Hex as [i [Hi Heq]].
      apply Z.eqb_eq in Heq. apply in_map_iff in Hi.
      destruct Hi as [x' [Hid Hx']]. apply filter_In in Hx'. destruct Hx' as [Hx' Hin].
      apply event_in_room_true in Hin.
      apply Hnone. exists x'. split; auto. split; [congruence|exact Hin].
Qed.

(** X10. [DELETE /api/rooms/:name] touches only the requester's events
    at that location.  When the requester has none there, the answer is 404
    and no event or booking is deleted.  When there is one, the delete
    succeeds: exactly the requester's events at the location are gone, with
    exactly the bookings on them; events of other users at the same location
    stay. *)
Theorem delete_room_scoped_to_owner (req_user_id : Z) (roomName : string) (s : Store) :
  ((forall e, In e (events s) ->
              ~ (Events.location e = roomName /\ Events.user_id e = req_user_id)) ->
   fst (delete_api_rooms req_user_id roomName s)
   = error_json 404 "Room not found or not authorized"
   /\ events (snd (delete_api_rooms req_user_id roomName s)) = events s
   /\ bookings (snd (delete_api_rooms req_user_id roomName s)) = bookings s)
  /\ ((exists e, In e (events s)
                 /\ Events.location e = roomName /\ Events.user_id e = req_user_id) ->
      fst (delete_api_rooms req_user_id roomName s)
      = mkResponse 200 (JMessage "Room and all associated events deleted successfully")
      /\ (forall x, In x (events (snd (delete_api_rooms req_user_id roomName s)))
                    <-> In x (events s)
                        /\ ~ (Events.location x = roomName
                              /\ Events.user_id x = req_user_id))
      /\ (forall b, In b (bookings (snd (delete_api_rooms req_user_id roomName s)))
                    <-> In b (bookings s)
                        /\ ~ (exists e, In e (events s)
                                        /\ Events.id e = Bookings.event_id b
                                        /\ Events.location e = roomName
                                        /\ Events.user_id e = req_user_id))).
Proof.
  split.
  - apply delete_room_not_owned.
  - apply delete_room_owned.
Qed.

(** Bob has no event in the main hall; Alice has one. *)
Lemma delete_room_scoped_to_owner_witness :
  bookings (snd (delete_api_rooms 2 "Main hall" (run booked_trace empty_store)))
  = bookings (run booked_trace empty_store)
  /\ fst (delete_api_rooms 1 "Main hall" (run booked_trace empty_store))
     = mkResponse 200 (JMessage "Room and all associated events deleted successfully").
Proof.
  split.
  - apply (proj1 (delete_room_scoped_to_owner 2 "Main hall" (run booked_trace empty_store))).
    simpl. intros e [<- | []]. simpl. intros [_ H]. discriminate.
  - destruct (proj2 (delete_room_scoped_to_owner 1 "Main hall"
                       (run booked_trace empty_store))) as [Hok _]; [|exact Hok].
    exists (Events.mk 1 "Concert" None "2030-01-01" "Main hall" 2 1). simpl. auto.
Defined.

(** ** Renaming a room *)


Lemma rename_none (req_user_id : Z) (oldName newName : string) (l : list Events.row) :
  (forall e, In e l -> ~ (Events.location e = oldName /\ Events.user_id e = req_user_id)) ->
  filter (event_in_room oldName req_user_id) l = []
  /\ map (fun e => if event_in_room oldName req_user_id e
                   then Events.set_location newName e else e) l = l.
Proof.
  intros Hnone.
  assert (Hp : forall e, In e l -> event_in_room oldName req_user_id e = false).
  { intros e He. apply not_true_is_false. intros Hp.
    apply event_in_room_true in Hp. exact (Hnone e He Hp). }
  split.
  - apply filter_none. exact Hp.
  - apply update_fixed. intros e He Htrue. rewrite (Hp e He) in Htrue. discriminate.
Qed.

(** X11. [POST /api/rooms] answers 400 and changes nothing when either
    name is empty.  With two names that are not empty: when the requester has
    an event at [oldName] and the column does not take [newName] (more than
    a hundred characters, not all spaces after the hundredth), it answers 500
    and changes nothing; when [newName] has at most a hundred characters, it
    answers 404, changing nothing, if the requester has no event at
    [oldName], and otherwise it answers 200 and moves every event of the
    requester at [oldName] to [newName]; the events of other users and the
    bookings are as before, and no event changes its id, owner or
    [available_seats]. *)
Theorem rename_room_moves_own_events (req_user_id : Z) (oldName newName : string)
  (s : Store) :
  (oldName = "" \/ newName = "" ->
   post_api_rooms req_user_id oldName newName s
   = (error_json 400 "Both oldName and newName are required", s))
  /\ (oldName <> "" -> newName <> "" -> varchar_100 newName = false ->
      (exists e, In e (events s)
                 /\ Events.location e = oldName /\ Events.user_id e = req_user_id) ->
      post_api_rooms req_user_id oldName newName s
      = (error_json 500 "Failed to update room", s))
  /\ (oldName <> "" -> newName <> "" -> fits_100 newName = true ->
      (forall e, In e (events s) ->
                 ~ (Events.location e = oldName /\ Events.user_id e = req_user_id)) ->
      post_api_rooms req_user_id oldName newName s
      = (error_json 404 "No rooms found with that name or not authorized", s))
  /\ (oldName <> "" -> newName <> "" -> fits_100 newName = true ->
      (exists e, In e (events s)
                 /\ Events.location e = oldName /\ Events.user_id e = req_user_id) ->
      fst (post_api_rooms req_user_id oldName newName s)
      = mkResponse 200 (JRoomUpdated "Room updated successfully" newName)
      /\ (forall e, In e (events s) ->
                    Events.location e = oldName -> Events.user_id e = req_user_id ->
                    In (Events.set_location newName e)
                      (events (snd (post_api_rooms req_user_id oldName newName s))))
      /\ (forall e, In e (events s) ->
                    ~ (Events.location e = oldName /\ Events.user_id e = req_user_id) ->
                    In e (events (snd (post_api_rooms req_user_id oldName newName s))))
      /\ map (fun e => (Events.id e, Events.user_id e, Events.available_seats e))
           (events (snd (post_api_rooms req_user_id oldName newName s)))
         = map (fun e => (Events.id e, Events.user_id e, Events.available_seats e))
             (events s)
      /\ bookings (snd (post_api_rooms req_user_id oldName newName s)) = bookings s).
Proof.
  unfold post_api_rooms, try_catch, bind, rename_room, parameters.
  split; [|split; [|split]].
  - intros [-> | ->]; simpl; rewrite ?orb_true_r; reflexivity.
  - intros Hold Hnew Hlong _.
    rewrite !truthy_string by assumption. simpl. rewrite Hlong. reflexivity.
  - intros Hold Hnew Hfit Hnone.
    destruct (fits_varchar newName Hfit) as [Hok Hname].
    rewrite !truthy_string by assumption. simpl. rewrite Hok, Hname.
    destruct (rename_none req_user_id oldName newName (events s) Hnone) as [Hsel Hmap].
    rewrite Hsel, Hmap. simpl. unfold with_events. rewrite store_eta. reflexivity.
  - intros Hold Hnew Hfit [e [He Hroom]].
    destruct (fits_varchar newName Hfit) as [Hok Hname].
    rewrite !truthy_string by assumption. simpl. rewrite Hok, Hname.
    destruct (filter_some (event_in_room oldName req_user_id) (events s) e He)
      as [x [rest Hsel]]; [apply event_in_room_true; exact Hroom|].
    rewrite Hsel. simpl.
    split; [reflexivity|]. split; [|split; [|split; [|reflexivity]]].
    + intros y Hy Hloc Hown. apply in_map_iff. exists y. split; auto.
      replace (event_in_room oldName req_user_id y) with true; auto.
      symmetry. apply event_in_room_true. auto.
    + intros y Hy Hnot. apply in_map_iff. exists y. split; auto.
      replace (event_in_room oldName req_user_id y) with false; auto.
      symmetry. apply not_true_is_false. intros Hp.
      apply event_in_room_true in Hp. exact (Hnot Hp).
    + apply (map_key_update
               (fun e => (Events.id e, Events.user_id e, Events.available_seats e))).
      reflexivity.
Qed.

(** Alice renames the main hall; Bob, who has no event there, cannot; and
    a new name of 101 characters. *)
Lemma rename_room_moves_own_events_witness :
  post_api_rooms 1 "Main hall" "" (run booked_trace empty_store)
  = (error_json 400 "Both oldName and newName are required", run booked_trace empty_store)
  /\ post_api_rooms 1 "Main hall" text_of_101_characters (run booked_trace empty_store)
     = (error_json 500 "Failed to update room", run booked_trace empty_store)
  /\ post_api_rooms 2 "Main hall" "Garden" (run booked_trace empty_store)
     = (error_json 404 "No rooms found with that name or not authorized",
        run booked_trace empty_store)
  /\ fst (post_api_rooms 1 "Main hall" "Garden" (run booked_trace empty_store))
     = mkResponse 200 (JRoomUpdated "Room updated successfully" "Garden").
Proof.
  destruct (rename_room_moves_own_events 1 "Main hall" "" (run booked_trace empty_store))
    as [Hempty _].
  destruct (rename_room_moves_own_events 1 "Main hall" text_of_101_characters
              (run booked_trace empty_store)) as [_ [Hlong _]].
  destruct (rename_room_moves_own_events 2 "Main hall" "Garden"
              (run booked_trace empty_store)) as [_ [_ [Hnone _]]].
  destruct (rename_room_moves_own_events 1 "Main hall" "Garden"
              (run booked_trace empty_store)) as [_ [_ [_ Hmove]]].
  split; [|split; [|split]].
  - apply Hempty. right. reflexivity.
  - apply Hlong; try discriminate; [reflexivity|].
    exists (Events.mk 1 "Concert" None "2030-01-01" "Main hall" 2 1). simpl. auto.
  - apply Hnone; try discriminate; [reflexivity|].
    simpl. intros e [<- | []]. simpl. intros [_ H]. discriminate.
  - destruct Hmove as [Hok _]; try discriminate; [reflexivity| |exact Hok].
    exists (Events.mk 1 "Concert" None "2030-01-01" "Main hall" 2 1). simpl. auto.
Defined.

Lemma rename_back (req_user_id : Z) (oldName newName : string) (l : list Events.row) :
  (forall e, In e l -> ~ (Events.location e = newName /\ Events.user_id e = req_user_id)) ->
  map (fun e => if event_in_room newName req_user_id e
                then Events.set_location oldName e else e)
    (map (fun e => if event_in_room oldName req_user_id e
                   then Events.set_location newName e else e) l)
  = l.
Proof.
  intros Hnone. rewrite map_map. rewrite <- (map_id l) at 2. apply map_ext_in.
  intros e He.
  destruct (event_in_room oldName req_user_id e) eqn:Hold.
  - apply event_in_room_true in Hold. destruct Hold as [Hloc Hown].
    replace (event_in_room newName req_user_id (Events.set_location newName e)) with true.
    + destruct e; unfold Events.set_location; simpl in *. subst. reflexivity.
    + symmetry. apply event_in_room_true. simpl. auto.
  - replace (event_in_room newName req_user_id e) with false; auto.
    symmetry. apply not_true_is_false. intros Hp.
    apply event_in_room_true in Hp. exact (Hnone e He Hp).
Qed.

(** X12. Renaming a room to a name of at most a hundred characters and
    renaming it back restores the store, when the requester had an event at
    the old name and none at the new one: both requests answer 200 and the
    store after the second is the store before the first. *)
Theorem rename_room_round_trip (req_user_id : Z) (oldName newName : string) (s : Store) :
  constraints s ->
  oldName <> "" -> newName <> "" -> fits_100 newName = true ->
  (exists e, In e (events s)
             /\ Events.location e = oldName /\ Events.user_id e = req_user_id) ->
  (forall e, In e (events s) ->
             ~ (Events.location e = newName /\ Events.user_id e = req_user_id)) ->
  fst (post_api_rooms req_user_id oldName newName s)
  = mkResponse 200 (JRoomUpdated "Room updated successfully" newName)
  /\ post_api_rooms req_user_id newName oldName
       (snd (post_api_rooms req_user_id oldName newName s))
     = (mkResponse 200 (JRoomUpdated "Room updated successfully" oldName), s).
Proof.
  intros Hc Hold Hnew Hfit [e [He [Hloc Hown]]] Hnone.
  assert (Hfit' : fits_100 oldName = true).
  { rewrite <- Hloc. apply (event_typed s e Hc He). }
  destruct (fits_varchar newName Hfit) as [Hok Hname].
  destruct (fits_varchar oldName Hfit') as [Hok' Hname'].
  unfold post_api_rooms, try_catch, bind, rename_room, parameters.
  rewrite !truthy_string by assumption. simpl. rewrite Hok, Hok', Hname, Hname'.
  destruct (filter_some (event_in_room oldName req_user_id) (events s) e He)
    as [x [rest Hsel]]; [apply event_in_room_true; auto|].
  rewrite Hsel. simpl. split; [reflexivity|].
  rewrite rename_back by exact Hnone.
  destruct (filter_some (event_in_room newName req_user_id)
              (map (fun e0 => if event_in_room oldName req_user_id e0
                              then Events.set_location newName e0 else e0) (events s))
              (Events.set_location newName e)) as [y [rest' Hsel']].
  - apply in_map_iff. exists e. split; auto.
    replace (event_in_room oldName req_user_id e) with true; auto.
    symmetry. apply event_in_room_true. auto.
  - apply event_in_room_true. simpl. auto.
  - rewrite Hsel'. simpl. destruct s; reflexivity.
Qed.

(** Alice moves her event to the garden and back. *)
Lemma rename_room_round_trip_witness :
  fst (post_api_rooms 1 "Main hall" "Garden" (run booked_trace empty_store))
  = mkResponse 200 (JRoomUpdated "Room updated successfully" "Garden")
  /\ post_api_rooms 1 "Garden" "Main hall"
       (snd (post_api_rooms 1 "Main hall" "Garden" (run booked_trace empty_store)))
     = (mkResponse 200 (JRoomUpdated "Room updated successfully" "Main hall"),
        run booked_trace empty_store).
Proof.
  apply rename_room_round_trip; try discriminate.
  - apply run_constraints.
  - reflexivity.
  - exists (Events.mk 1 "Concert" None "2030-01-01" "Main hall" 2 1). simpl. auto.
  - simpl. intros e [<- | []]. simpl. intros [H _]. discriminate.
Defined.

(** ** Creating and updating events *)

Lemma event_parameters_accepted {A : Type} (title date location : string)
  (available_seats : Z) (q : string -> Query A) (s : Store) :
  integer available_seats = true ->
  varchar_100 title && varchar_100 location = true ->
  event_parameters title (Some date) location available_seats q s = q date s.
Proof.
  intros Hn Ht. unfold event_parameters, parameters. rewrite Hn, Ht. reflexivity.
Qed.

Lemma event_parameters_refused {A : Type} (title : string) (date : option string)
  (location : string) (available_seats : Z) (q : string -> Query A) (s : Store) :
  date = None \/ integer available_seats = false
  \/ varchar_100 title && varchar_100 location = false ->
  exists code,
    event_parameters title date location available_seats q s = (inr (PgError code), s).
Proof.
  unfold event_parameters, parameters, throw.
  intros [-> | H]; [eauto|].
  destruct date as [d|]; [|eauto].
  destruct (integer available_seats); [|eauto].
  destruct H as [H | H]; [discriminate|]. rewrite H. eauto.
Qed.

Lemma fits_two (a b : string) :
  fits_100 a && fits_100 b = true ->
  varchar_100 a && varchar_100 b = true /\ stored_100 a = a /\ stored_100 b = b.
Proof.
  intros H. apply andb_true_iff in H. destruct H as [Ha Hb].
  destruct (fits_varchar a Ha) as [-> ->].
  destruct (fits_varchar b Hb) as [-> ->]. auto.
Qed.

(** X13. [PUT /api/events/:id] changes an event only for its owner.  A
    date that the store does not read, or an [available_seats] or an id that
    is no [INTEGER], is answered 500 and changes nothing; so is, for the
    owner of the event, a title or location that the column does not take
    (more than a hundred characters, not all spaces after the hundredth).
    With a date that the store reads, [INTEGER]s and a title and location of
    at most a hundred characters: when no event has both the id and the
    requester as owner, the answer is 404 and the store is unchanged; for the
    owner it answers 200 with the event as updated: the timestamp read from
    the date and the other fields as supplied (so [available_seats] is
    overwritten whatever the bookings hold), the id and the owner are kept,
    and the other events, the bookings and the users are as before. *)
Theorem update_event_by_owner_only (id req_user_id : Z) (title : string)
  (description : option string) (date : option string) (location : string)
  (available_seats : Z) (s : Store) :
  (date = None \/ integer available_seats = false \/ integer id = false ->
   put_api_events id req_user_id title description date location available_seats s
   = (error_json 500 "Failed to update event", s))
  /\ (varchar_100 title && varchar_100 location = false ->
      (exists e, In e (events s) /\ Events.id e = id /\ Events.user_id e = req_user_id) ->
      put_api_events id req_user_id title description date location available_seats s
      = (error_json 500 "Failed to update event", s))
  /\ (forall d,
        date = Some d -> integer available_seats = true ->
        fits_100 title && fits_100 location = true -> integer id = true ->
        ((forall e, In e (events s) ->
                    ~ (Events.id e = id /\ Events.user_id e = req_user_id)) ->
         put_api_events id req_user_id title description date location available_seats s
         = (EventNotFoundOrForbidden, s))
        /\ (forall e, constraints s -> In e (events s) ->
              Events.id e = id -> Events.user_id e = req_user_id ->
              fst (put_api_events id req_user_id title description date location
                     available_seats s)
              = mkResponse 200
                  (JEvent (Events.mk id title description d location available_seats
                             req_user_id))
              /\ (forall x,
                    In x (events (snd (put_api_events id req_user_id title description
                                         date location available_seats s)))
                    <-> x = Events.mk id title description d location available_seats
                              req_user_id
                        \/ (In x (events s) /\ x <> e))
              /\ bookings (snd (put_api_events id req_user_id title description date
                                  location available_seats s)) = bookings s
              /\ users (snd (put_api_events id req_user_id title description date
                               location available_seats s)) = users s)).
Proof.
  assert (Hrefused : date = None \/ integer available_seats = false
                     \/ varchar_100 title && varchar_100 location = false
                     \/ integer id = false ->
                     put_api_events id req_user_id title description date location
                       available_seats s
                     = (error_json 500 "Failed to update event", s)).
  { unfold put_api_events, try_catch, bind, update_event. intros Hrefused.
    assert (Hcases : (date = None \/ integer available_seats = false
                      \/ varchar_100 title && varchar_100 location = false)
                     \/ (exists d, date = Some d /\ integer available_seats = true
                                   /\ varchar_100 title && varchar_100 location = true
                                   /\ integer id = false)).
    { destruct date as [d|]; [|auto].
      destruct (integer available_seats) eqn:Hn; [|auto].
      destruct (varchar_100 title && varchar_100 location) eqn:Ht; [|auto].
      right. exists d. repeat split; auto.
      destruct Hrefused as [H | [H | [H | H]]]; (discriminate || exact H). }
    destruct Hcases as [H | [d [-> [Hn [Ht Hid]]]]].
    + match goal with
      | |- context [event_parameters ?a ?b ?c ?d ?q s] =>
          destruct (event_parameters_refused a b c d q s H) as [code ->]
      end.
      reflexivity.
    + rewrite event_parameters_accepted by assumption.
      rewrite parameters_refused by exact Hid. reflexivity. }
  split; [|split].
  - intros H. apply Hrefused. tauto.
  - intros H _. apply Hrefused. tauto.
  - clear Hrefused. unfold put_api_events, try_catch, bind, update_event.
    intros d -> Hn Hshort Hint.
    destruct (fits_two _ _ Hshort) as [Ht [Htitle Hlocation]].
    rewrite event_parameters_accepted by assumption.
    rewrite parameters_accepted by exact Hint.
    rewrite Htitle, Hlocation. split.
    + intros Hnone.
      assert (Hp : forall e, In e (events s) -> event_owned id req_user_id e = false).
      { intros e He. apply not_true_is_false. intros Hp.
        apply event_owned_true in Hp. exact (Hnone e He Hp). }
      rewrite (filter_none _ _ Hp). simpl.
      rewrite update_fixed.
      * unfold with_events. rewrite store_eta. reflexivity.
      * intros e He Htrue. rewrite (Hp e He) in Htrue. discriminate.
    + intros e Hc He Hid Hown. subst id req_user_id.
      assert (Hsel : filter (event_owned (Events.id e) (Events.user_id e)) (events s) = [e]).
      { apply (filter_key Events.id); auto using events_pkey.
        - apply event_owned_true. auto.
        - intros x _ Hx. apply event_owned_true in Hx. tauto. }
      rewrite Hsel. simpl. split; [reflexivity|]. split; [|split; reflexivity].
      intros x. rewrite in_map_iff. split.
      * intros [y [Hy Hin]].
        destruct (event_owned (Events.id e) (Events.user_id e) y) eqn:Hp.
        -- apply event_owned_true in Hp. destruct Hp as [Hp1 Hp2].
           left. rewrite <- Hy, Hp1, Hp2. reflexivity.
        -- right. subst x. split; auto. intros ->.
           assert (event_owned (Events.id e) (Events.user_id e) e = true)
             by (apply event_owned_true; auto).
           congruence.
      * intros [-> | [Hx Hneq]].
        -- exists e. split; auto.
           replace (event_owned (Events.id e) (Events.user_id e) e) with true
             by (symmetry; apply event_owned_true; auto).
           reflexivity.
        -- exists x. split; auto.
           replace (event_owned (Events.id e) (Events.user_id e) x) with false; auto.
           symmetry. apply not_true_is_false. intros Hp.
           apply event_owned_true in Hp. apply Hneq.
           apply (pkey_row Events.id (events s)); auto using events_pkey. tauto.
Qed.

(** Bob cannot change Alice's event; Alice sets its seats to ten, her
    booking of three notwithstanding; 2147483648 seats are refused, and so is
    a title of 101 characters. *)
Lemma update_event_by_owner_only_witness :
  put_api_events 1 2 "Party" None (Some "2031-01-01") "Garden" 10
    (run booked_trace empty_store)
  = (EventNotFoundOrForbidden, run booked_trace empty_store)
  /\ fst (put_api_events 1 1 "Party" None (Some "2031-01-01") "Garden" 10
            (run booked_trace empty_store))
     = mkResponse 200 (JEvent (Events.mk 1 "Party" None "2031-01-01" "Garden" 10 1))
  /\ put_api_events 1 1 "Party" None (Some "2031-01-01") "Garden" 2147483648
       (run booked_trace empty_store)
     = (error_json 500 "Failed to update event", run booked_trace empty_store)
  /\ put_api_events 1 1 text_of_101_characters None (Some "2031-01-01") "Garden" 10
       (run booked_trace empty_store)
     = (error_json 500 "Failed to update event", run booked_trace empty_store).
Proof.
  split; [|split; [|split]].
  - destruct (proj2 (proj2 (update_event_by_owner_only 1 2 "Party" None
                              (Some "2031-01-01") "Garden" 10
                              (run booked_trace empty_store)))
                "2031-01-01" eq_refl eq_refl eq_refl eq_refl) as [Hnone _].
    apply Hnone. simpl. intros e [<- | []]. simpl. lia.
  - destruct (proj2 (proj2 (update_event_by_owner_only 1 1 "Party" None
                              (Some "2031-01-01") "Garden" 10
                              (run booked_trace empty_store)))
                "2031-01-01" eq_refl eq_refl eq_refl eq_refl) as [_ Hown].
    destruct (Hown (Events.mk 1 "Concert" None "2030-01-01" "Main hall" 2 1))
      as [Hok _].
    + apply run_constraints.
    + simpl. auto.
    + reflexivity.
    + reflexivity.
    + exact Hok.
  - apply (proj1 (update_event_by_owner_only 1 1 "Party" None (Some "2031-01-01")
                    "Garden" 2147483648 (run booked_trace empty_store))).
    right. left. reflexivity.
  - destruct (update_event_by_owner_only 1 1 text_of_101_characters None
                (Some "2031-01-01") "Garden" 10 (run booked_trace empty_store))
      as [_ [Hlong _]].
    apply Hlong; [reflexivity|].
    exists (Events.mk 1 "Concert" None "2030-01-01" "Main hall" 2 1). simpl. auto.
Defined.

(** X14. A [POST /api/events] with a date that the store does not read or
    an [available_seats] that is no [INTEGER] is answered 500 and changes
    nothing; one with a title or location that the column does not take (more
    than a hundred characters, not all spaces after the hundredth) is
    answered 500 and leaves the rows of the three tables as they were.  With
    a date that the store reads, an [INTEGER] and a title and location of at
    most a hundred characters, while the sequence of the event ids has an id
    left to give:
    sent by a stored user it answers 201 and appends an event that the
    requester owns, with the timestamp read from the date and the other
    fields as supplied ([available_seats] is not validated further: a
    negative number is stored as it is) and an id that no stored event holds;
    for a requester who is not a stored user the insert is refused by the
    foreign key: the answer is 500 and no table changes. *)
Theorem create_event_as_supplied (req_user_id : Z) (title : string)
  (description : option string) (date : option string) (location : string)
  (available_seats : Z) (s : Store) :
  (date = None \/ integer available_seats = false ->
   post_api_events req_user_id title description date location available_seats s
   = (error_json 500 "Failed to create event", s))
  /\ (varchar_100 title && varchar_100 location = false ->
      fst (post_api_events req_user_id title description date location
             available_seats s)
      = error_json 500 "Failed to create event"
      /\ events (snd (post_api_events req_user_id title description date location
                        available_seats s)) = events s
      /\ users (snd (post_api_events req_user_id title description date location
                       available_seats s)) = users s
      /\ bookings (snd (post_api_events req_user_id title description date
                          location available_seats s)) = bookings s)
  /\ (forall d,
        date = Some d -> integer available_seats = true ->
        fits_100 title && fits_100 location = true ->
        events_id_seq s < 2147483647 ->
        (user_exists req_user_id s = true ->
         fst (post_api_events req_user_id title description date location
                available_seats s)
         = mkResponse 201
             (JEvent (Events.mk (events_id_seq s + 1) title description d location
                        available_seats req_user_id))
         /\ events (snd (post_api_events req_user_id title description date location
                           available_seats s))
            = events s ++ [Events.mk (events_id_seq s + 1) title description d location
                             available_seats req_user_id]
         /\ (constraints s ->
             forall e, In e (events s) -> Events.id e <> events_id_seq s + 1))
        /\ (user_exists req_user_id s = false ->
            fst (post_api_events req_user_id title description date location
                   available_seats s)
            = error_json 500 "Failed to create event"
            /\ events (snd (post_api_events req_user_id title description date location
                              available_seats s)) = events s
            /\ users (snd (post_api_events req_user_id title description date location
                             available_seats s)) = users s
            /\ bookings (snd (post_api_events req_user_id title description date
                                location available_seats s)) = bookings s)).
Proof.
  assert (Hrefused : date = None \/ integer available_seats = false
                     \/ varchar_100 title && varchar_100 location = false ->
                     post_api_events req_user_id title description date location
                       available_seats s
                     = (error_json 500 "Failed to create event", s)).
  { unfold post_api_events, try_catch, bind, insert_event. intros Hrefused.
    match goal with
    | |- context [event_parameters ?a ?b ?c ?d ?q s] =>
        destruct (event_parameters_refused a b c d q s Hrefused) as [code ->]
    end.
    reflexivity. }
  split; [|split].
  - intros H. apply Hrefused. tauto.
  - intros H. rewrite Hrefused by tauto. simpl. auto.
  - clear Hrefused. unfold post_api_events, try_catch, bind, insert_event.
    intros d -> Hn Hshort Hroom.
    destruct (fits_two _ _ Hshort) as [Ht [Htitle Hlocation]].
    rewrite event_parameters_accepted by assumption.
    rewrite Htitle, Hlocation.
    replace (INTEGER_MAX <=? events_id_seq s) with false
      by (symmetry; apply Z.leb_gt; exact Hroom).
    split; intros Hu; rewrite Hu.
    + simpl. split; [reflexivity|]. split; [reflexivity|].
      intros Hc e He.
      pose proof (events_id_drawn s Hc) as Hdrawn.
      rewrite Forall_forall in Hdrawn. specialize (Hdrawn e He). simpl in Hdrawn. lia.
    + simpl. auto.
Qed.

(** Alice creates an event with minus one seats; an unknown user cannot
    create any; a text that is no date is refused. *)
Lemma create_event_as_supplied_witness :
  fst (post_api_events 1 "Void" None (Some "2030-06-01") "Cellar" (-1)
         (run booked_trace empty_store))
  = mkResponse 201 (JEvent (Events.mk (1 + 1) "Void" None "2030-06-01" "Cellar" (-1) 1))
  /\ fst (post_api_events 9 "Void" None (Some "2030-06-01") "Cellar" 5
            (run booked_trace empty_store))
     = error_json 500 "Failed to create event"
  /\ post_api_events 1 "Void" None None "Cellar" 5 (run booked_trace empty_store)
     = (error_json 500 "Failed to create event", run booked_trace empty_store).
Proof.
  split; [|split].
  - destruct (proj2 (proj2 (create_event_as_supplied 1 "Void" None (Some "2030-06-01")
                              "Cellar" (-1) (run booked_trace empty_store)))
                "2030-06-01" eq_refl eq_refl eq_refl) as [Hstored _]; [simpl; lia|].
    destruct Hstored as [Hok _]; [reflexivity | exact Hok].
  - destruct (proj2 (proj2 (create_event_as_supplied 9 "Void" None (Some "2030-06-01")
                              "Cellar" 5 (run booked_trace empty_store)))
                "2030-06-01" eq_refl eq_refl eq_refl) as [_ Hmissing]; [simpl; lia|].
    destruct Hmissing as [Hno _]; [reflexivity | exact Hno].
  - apply (proj1 (create_event_as_supplied 1 "Void" None None "Cellar" 5
                    (run booked_trace empty_store))).
    left. reflexivity.
Defined.

(** ** Who can change what *)

Ltac by_cases_of_handler :=
  repeat match goal with
         | |- context [if ?c then _ else _] => destruct c eqn:?
         | |- context [match ?l with [] => _ | _ :: _ => _ end] => destruct l eqn:?
         end;
  simpl.

(** X15. A create, update or cancel sent by one user leaves every
    booking of every other user exactly as it was. *)
Theorem booking_requests_leave_other_users_bookings (r : request) (s : Store)
  (b : Bookings.row) :
  constraints s -> is_booking_request r = true ->
  In b (bookings s) -> requester r <> Some (Bookings.user_id b) ->
  In b (bookings (snd (handle r s))).
Proof.
  intros Hc Hr Hb Hother.
  assert (Hkept : forall id req_user_id seats b0 rest,
    requester (PutBookings id req_user_id seats) <> Some (Bookings.user_id b) ->
    filter (booking_is id req_user_id) (bookings s) = b0 :: rest ->
    In b (map (fun x => if Bookings.id x =? id then Bookings.set_seats seats x else x)
            (bookings s))).
  { intros id req_user_id seats b0 rest Hreq Hsel.
    apply in_map_iff. exists b. split; auto.
    destruct (Z.eqb_spec (Bookings.id b) id) as [Hid | _]; auto.
    exfalso. apply Hreq.
    pose proof (filter_head _ _ _ _ Hsel) as [Hb0 Hmatch].
    apply booking_is_true in Hmatch. destruct Hmatch as [Hid0 Hu0].
    rewrite (pkey_row Bookings.id (bookings s) b b0); auto using bookings_pkey;
      simpl; congruence. }
  assert (Hrest : forall id req_user_id,
    requester (DeleteBookings id req_user_id) <> Some (Bookings.user_id b) ->
    In b (filter (fun x => negb (booking_is id req_user_id x)) (bookings s))).
  { intros id req_user_id Hreq. apply filter_In. split; auto.
    apply negb_true_iff, not_true_is_false. intros Hp.
    apply booking_is_true in Hp. apply Hreq. simpl. f_equal. symmetry. tauto. }
  destruct r; try discriminate Hr; simpl in *.
  - unfold post_api_bookings, try_catch, bind, select_bookings_of, select_event,
      insert_booking, take_seats, update_available_seats, parameters.
    by_cases_of_handler; auto using in_or_app.
  - specialize (Hkept id req_user_id seats).
    unfold put_api_bookings, try_catch, bind, select_booking, select_available_seats,
      update_booking_seats, take_seats, update_available_seats, parameters, throw.
    destruct (falsy_number seats || (seats <=? 0)); simpl; auto.
    destruct (integer id); simpl; auto.
    destruct (filter _ (bookings s)) as [|b0 rest] eqn:Hsel; simpl; auto.
    specialize (Hkept b0 rest Hother eq_refl).
    destruct (integer (Bookings.event_id b0)); simpl; auto.
    destruct (available_seats_of _ s) as [|n0 ns]; simpl; auto.
    destruct (n0 <? _); simpl; auto.
    destruct (integer seats); simpl; auto.
    destruct (integer (seats - Bookings.seats b0)); simpl; auto.
    destruct (forallb _ (events s)); simpl; auto.
    destruct (map _ (filter _ (bookings s))); exact Hkept.
  - specialize (Hrest id req_user_id Hother).
    unfold delete_api_bookings, try_catch, bind, select_booking, delete_booking,
      return_seats, update_available_seats, parameters.
    by_cases_of_handler; auto.
  - unfold post_api_bookings_text, try_catch, bind, select_bookings_of, select_event,
      insert_booking, take_seats, update_available_seats, parameters.
    by_cases_of_handler; auto using in_or_app.
  - specialize (Hkept id req_user_id reading).
    unfold put_api_bookings_text, try_catch, bind, select_booking, select_available_seats,
      update_booking_seats, parameters, throw.
    destruct (integer id); simpl; auto.
    destruct (filter _ (bookings s)) as [|b0 rest] eqn:Hsel; simpl; auto.
    specialize (Hkept b0 rest Hother eq_refl).
    destruct (integer (Bookings.event_id b0)); simpl; auto.
    destruct (available_seats_of _ s) as [|n0 ns]; simpl; auto.
    destruct (integer reading); simpl; auto.
Qed.

(** Bob's requests on Alice's booking, and a booking of his own, leave
    Alice's booking alone. *)
Lemma booking_requests_leave_other_users_bookings_witness :
  In (Bookings.mk 1 1 1 3)
    (bookings (snd (handle (DeleteBookings 1 2) (run booked_trace empty_store))))
  /\ In (Bookings.mk 1 1 1 3)
       (bookings (snd (handle (PutBookings 1 2 1) (run booked_trace empty_store))))
  /\ In (Bookings.mk 1 1 1 3)
       (bookings (snd (handle (PostBookings 2 1 2) (run booked_trace empty_store)))).
Proof.
  split; [|split];
    (apply booking_requests_leave_other_users_bookings;
     [apply run_constraints | reflexivity | simpl; auto | simpl; discriminate]).
Defined.

(** X16. The routes on events, rooms and users change an event only for
    its owner: a request sent by anyone else leaves the event exactly as it
    was.  The booking routes change events on behalf of any user, and then
    nothing but [available_seats]. *)
Theorem events_change_only_for_their_owner (r : request) (s : Store) :
  (is_booking_request r = false ->
   forall e, In e (events s) -> requester r <> Some (Events.user_id e) ->
             In e (events (snd (handle r s))))
  /\ (is_booking_request r = true ->
      map (Events.set_available_seats 0) (events (snd (handle r s)))
      = map (Events.set_available_seats 0) (events s)).
Proof.
  assert (Hseats : forall f id s1,
    events s1 = events s ->
    map (Events.set_available_seats 0) (events (snd (update_available_seats f id s1)))
    = map (Events.set_available_seats 0) (events s)).
  { intros f id s1 Hs1. unfold update_available_seats.
    destruct (forallb _ (events s1)); simpl; rewrite Hs1; auto.
    apply (map_key_update (Events.set_available_seats 0)). reflexivity. }
  split.
  - intros Hr e He Hother. destruct r; try discriminate Hr; simpl in *.
    + unfold post_api_register, try_catch, bind, insert_user, parameters.
      by_cases_of_handler; auto.
    + unfold put_api_profile, try_catch, bind, update_user, parameters.
      by_cases_of_handler; auto.
    + unfold post_api_rooms, try_catch, bind, rename_room, parameters.
      assert (Hkept : forall name,
                In e (map (fun x => if event_in_room oldName req_user_id x
                                    then Events.set_location name x else x)
                        (events s))).
      { intros name. apply in_map_iff. exists e. split; auto.
        replace (event_in_room oldName req_user_id e) with false; auto.
        symmetry. apply not_true_is_false. intros Hp.
        apply event_in_room_true in Hp. apply Hother. f_equal. symmetry. tauto. }
      destruct (falsy_string oldName || falsy_string newName); simpl; auto.
      destruct (varchar_100 newName); simpl; auto.
      destruct (map _ (filter _ (events s))); apply Hkept.
    + rewrite delete_api_rooms_store.
      unfold delete_events_in_room, delete_events_where.
      destruct (referenced _ _); simpl; auto.
      apply filter_In. split; auto.
      apply negb_true_iff, not_true_is_false. intros Hp.
      apply event_in_room_true in Hp. apply Hother. f_equal. symmetry. tauto.
    + unfold post_api_events, try_catch, bind, insert_event, event_parameters,
        parameters, throw.
      destruct date; simpl; auto.
      by_cases_of_handler; auto using in_or_app.
    + unfold put_api_events, try_catch, bind, update_event, event_parameters,
        parameters, throw.
      destruct date as [d|]; simpl; auto.
      assert (Hkept : forall title location,
        In e (map (fun x => if event_owned id req_user_id x
                            then Events.mk (Events.id x) title description d location
                                   available_seats (Events.user_id x)
                            else x) (events s))).
      { intros title0 location0. apply in_map_iff. exists e. split; auto.
        replace (event_owned id req_user_id e) with false; auto.
        symmetry. apply not_true_is_false. intros Hp.
        apply event_owned_true in Hp. apply Hother. f_equal. symmetry. tauto. }
      destruct (integer available_seats); simpl; auto.
      destruct (varchar_100 title && varchar_100 location); simpl; auto.
      destruct (integer id); simpl; auto.
      destruct (map _ (filter _ (events s))); apply Hkept.
    + unfold delete_api_events, try_catch, bind, delete_event, delete_events_where,
        delete_bookings_of_event, parameters.
      destruct (integer id); simpl; auto.
      destruct (referenced _ _); simpl; auto.
      assert (Hkept : In e (filter (fun x => negb (event_owned id req_user_id x))
                              (events s))).
      { apply filter_In. split; auto.
        apply negb_true_iff, not_true_is_false. intros Hp.
        apply event_owned_true in Hp. apply Hother. f_equal. symmetry. tauto. }
      destruct (filter (event_owned id req_user_id) (events s)); exact Hkept.
  - intros Hr. destruct r; try discriminate Hr; simpl.
    + unfold post_api_bookings, try_catch, bind, select_bookings_of, select_event,
        insert_booking, take_seats, parameters.
      destruct (falsy_number seats || (seats <=? 0)); simpl; auto.
      destruct (integer event_id); simpl; auto.
      destruct (map Bookings.id _); simpl; auto.
      destruct (filter _ (events s)); simpl; auto.
      destruct (_ <? seats); simpl; auto.
      destruct (integer seats); simpl; auto.
      destruct (INTEGER_MAX <=? bookings_id_seq s); simpl; auto.
      destruct (existsb _ (bookings s)); simpl; auto.
      destruct (event_exists event_id s && user_exists req_user_id s); simpl; auto.
      match goal with
      | |- context [update_available_seats ?f ?id ?s1] =>
          pose proof (Hseats f id s1 eq_refl) as Hup;
          destruct (update_available_seats f id s1) as [[[] | err] s2]
      end; exact Hup.
    + unfold put_api_bookings, try_catch, bind, select_booking, select_available_seats,
        update_booking_seats, take_seats, parameters, throw.
      destruct (falsy_number seats || (seats <=? 0)); simpl; auto.
      destruct (integer id); simpl; auto.
      destruct (filter _ (bookings s)) as [|b0 rest]; simpl; auto.
      destruct (integer (Bookings.event_id b0)); simpl; auto.
      destruct (available_seats_of _ s) as [|n0 ns]; simpl; auto.
      destruct (n0 <? _); simpl; auto.
      destruct (integer seats); simpl; auto.
      destruct (integer (seats - Bookings.seats b0)); simpl; auto.
      match goal with
      | |- context [update_available_seats ?f ?id ?s1] =>
          pose proof (Hseats f id s1 eq_refl) as Hup;
          destruct (update_available_seats f id s1) as [[[] | err] s2]
      end; [destruct (map _ (filter _ (bookings s)))|]; exact Hup.
    + unfold delete_api_bookings, try_catch, bind, select_booking, delete_booking,
        return_seats, parameters.
      destruct (integer id); simpl; auto.
      destruct (filter _ (bookings s)) as [|b0 rest]; simpl; auto.
      destruct (integer (Bookings.seats b0) && integer (Bookings.event_id b0));
        simpl; auto.
      match goal with
      | |- context [update_available_seats ?f ?id ?s1] =>
          pose proof (Hseats f id s1 eq_refl) as Hup;
          destruct (update_available_seats f id s1) as [[[] | err] s2]
      end; exact Hup.
    + unfold post_api_bookings_text, try_catch, bind, select_bookings_of, select_event,
        insert_booking, take_seats, parameters.
      destruct (integer event_id); simpl; auto.
      destruct (map Bookings.id _); simpl; auto.
      destruct (filter _ (events s)); simpl; auto.
      destruct (integer reading); simpl; auto.
      destruct (INTEGER_MAX <=? bookings_id_seq s); simpl; auto.
      destruct (existsb _ (bookings s)); simpl; auto.
      destruct (event_exists event_id s && user_exists req_user_id s); simpl; auto.
      match goal with
      | |- context [update_available_seats ?f ?id ?s1] =>
          pose proof (Hseats f id s1 eq_refl) as Hup;
          destruct (update_available_seats f id s1) as [[[] | err] s2]
      end; exact Hup.
    + unfold put_api_bookings_text, try_catch, bind, select_booking,
        select_available_seats, update_booking_seats, parameters, throw.
      destruct (integer id); simpl; auto.
      destruct (filter _ (bookings s)) as [|b0 rest]; simpl; auto.
      destruct (integer (Bookings.event_id b0)); simpl; auto.
      destruct (available_seats_of _ s) as [|n0 ns]; simpl; auto.
      destruct (integer reading); simpl; auto.
Qed.

(** Bob's requests on Alice's event leave it alone; his booking changes
    only its [available_seats]. *)
Lemma events_change_only_for_their_owner_witness :
  In (Events.mk 1 "Concert" None "2030-01-01" "Main hall" 2 1)
    (events (snd (handle (PutEvents 1 2 "Mine" None (Some "2030-01-01") "Main hall" 100)
                    (run booked_trace empty_store))))
  /\ In (Events.mk 1 "Concert" None "2030-01-01" "Main hall" 2 1)
       (events (snd (handle (DeleteEvents 1 2) (run booked_trace empty_store))))
  /\ map (Events.set_available_seats 0)
       (events (snd (handle (PostBookings 2 1 2) (run booked_trace empty_store))))
     = map (Events.set_available_seats 0) (events (run booked_trace empty_store)).
Proof.
  split; [|split].
  - apply (proj1 (events_change_only_for_their_owner _ _));
      [reflexivity | simpl; auto | simpl; discriminate].
  - apply (proj1 (events_change_only_for_their_owner _ _));
      [reflexivity | simpl; auto | simpl; discriminate].
  - apply (proj2 (events_change_only_for_their_owner _ _)). reflexivity.
Defined.

Ltac unfold_handlers :=
  unfold post_api_register, put_api_profile, post_api_rooms, delete_api_rooms,
    post_api_events, put_api_events, delete_api_events, post_api_bookings,
    put_api_bookings, delete_api_bookings, post_api_bookings_text,
    put_api_bookings_text, try_catch, bind,
    insert_user, update_user, insert_event, update_event, take_seats, return_seats,
    rename_room, delete_event, delete_events_in_room, delete_events_where,
    select_event, select_available_seats, select_bookings_of, select_booking,
    insert_booking, update_booking_seats, delete_booking, delete_bookings_of_event,
    delete_bookings_in_room, update_available_seats, event_parameters, parameters, throw.

(** A handler that writes no user leaves the [users] table as it was. *)
Ltac users_untouched :=
  unfold_handlers;
  repeat match goal with
         | |- context [if ?c then _ else _] => destruct c
         | |- context [match ?l with [] => _ | _ :: _ => _ end] => destruct l
         | |- context [match ?d with Some _ => _ | None => _ end] => destruct d
         end;
  reflexivity.

(** The [users] table after a request: untouched, or one row longer after a
    registration, or with the requester's row rewritten after a profile
    update. *)
Lemma users_after_request (r : request) (s : Store) :
  users (snd (handle r s)) = users s
  \/ (exists name email hashedPassword,
        r = PostRegister name email hashedPassword
        /\ users (snd (handle r s))
           = users s ++ [Users.mk (users_id_seq s + 1) (stored_100 name)
                           (stored_100 email) (stored_100 hashedPassword)])
  \/ (exists id name email password hashedPassword,
        r = PutProfile id name email password hashedPassword
        /\ users (snd (handle r s))
           = map (fun u => if Users.id u =? id
                           then Users.mk (Users.id u) (stored_100 name)
                                  (stored_100 email)
                                  (if truthy_field password
                                   then stored_100 hashedPassword
                                   else Users.password u)
                           else u) (users s)).
Proof.
  destruct r; simpl.
  - unfold post_api_register, try_catch, bind, insert_user, parameters.
    destruct (varchar_100 name && varchar_100 email && varchar_100 hashedPassword);
      simpl; auto.
    destruct (INTEGER_MAX <=? users_id_seq s); simpl; auto.
    destruct (existsb _ (users s)); simpl; auto.
    right. left. eauto.
  - rewrite put_api_profile_store. unfold update_user, parameters.
    destruct (varchar_100 name && varchar_100 email && _); simpl; auto.
    destruct (user_exists req_user_id s && _); simpl; auto.
    right. right. exists req_user_id, name, email, password, hashedPassword.
    split; auto. destruct (truthy_field password); reflexivity.
  - left. users_untouched.
  - left. rewrite delete_api_rooms_store. users_untouched.
  - left. users_untouched.
  - left. users_untouched.
  - left. users_untouched.
  - left. users_untouched.
  - left. unfold_handlers.
    destruct (falsy_number seats || (seats <=? 0)); simpl; auto.
    destruct (integer id); simpl; auto.
    destruct (filter _ (bookings s)) as [|b0 rest]; simpl; auto.
    destruct (integer (Bookings.event_id b0)); simpl; auto.
    destruct (available_seats_of _ s) as [|n0 ns]; simpl; auto.
    destruct (n0 <? _); simpl; auto.
    destruct (integer seats); simpl; auto.
    destruct (integer (seats - Bookings.seats b0)); simpl; auto.
    destruct (forallb _ (events s)); simpl; auto.
    destruct (map _ (filter _ (bookings s))); reflexivity.
  - left. users_untouched.
  - left. users_untouched.
  - left. users_untouched.
Qed.

(** X17. No request deletes a user or changes a user's id, and a user's
    row (name, email, password hash) can only be changed by a profile update
    sent by that user: every other request leaves the row exactly as it
    was. *)
Theorem users_rows_change_only_by_their_profile (r : request) (s : Store) :
  (forall u, In u (users s) ->
             (forall name email password hashedPassword,
                r <> PutProfile (Users.id u) name email password hashedPassword) ->
             In u (users (snd (handle r s))))
  /\ (exists added,
        map Users.id (users (snd (handle r s))) = map Users.id (users s) ++ added).
Proof.
  destruct (users_after_request r s)
    as [Hsame | [[name [email [h [Hr Hadd]]]] | [id [name [email [pw [h [Hr Hmap]]]]]]]].
  - rewrite Hsame. split; auto. exists []. rewrite app_nil_r. reflexivity.
  - rewrite Hadd. split.
    + intros u Hu _. apply in_or_app. auto.
    + eexists. rewrite map_app. reflexivity.
  - rewrite Hmap. split.
    + intros u Hu Hother. apply in_map_iff. exists u. split; auto.
      destruct (Z.eqb_spec (Users.id u) id) as [Hid | _]; auto.
      elim (Hother name email pw h). rewrite Hid. exact Hr.
    + exists []. rewrite app_nil_r.
      apply (map_key_update Users.id). reflexivity.
Qed.

(** Bob's profile update leaves Alice's row alone, and every user stays. *)
Lemma users_rows_change_only_by_their_profile_witness :
  In (Users.mk 1 "Alice" "alice@example.org" "$2a$10$alice")
    (users (snd (handle (PutProfile 2 "Bobby" "bobby@example.org" (Some "pw") "$2a$10$pw")
                   (run booked_trace empty_store)))).
Proof.
  apply (proj1 (users_rows_change_only_by_their_profile _ _)).
  - simpl. auto.
  - simpl. intros name email password hashedPassword H. discriminate H.
Defined.

(** ** One event, as its page shows it *)






(** ** Failures of a booking update, and a repeated cancel *)

(** X19. [PUT /api/bookings/:id] fails without changing the store: with
    [InvalidSeatCount] when [seats <= 0], whatever the booking; otherwise
    with 500 when the id is no [INTEGER]; otherwise with
    [NotFoundOrForbidden] when no booking has both the id and the requester
    as its user; otherwise with [InsufficientSeats] when the event has fewer
    seats available than the booking would gain. *)
Theorem update_booking_failures (id req_user_id seats : Z) (s : Store) :
  (seats <= 0 ->
   put_api_bookings id req_user_id seats s = (InvalidSeatCount, s))
  /\ (0 < seats -> integer id = false ->
      put_api_bookings id req_user_id seats s
      = (error_json 500 "Failed to update booking", s))
  /\ (0 < seats -> integer id = true ->
      (forall b, In b (bookings s) ->
                 ~ (Bookings.id b = id /\ Bookings.user_id b = req_user_id)) ->
      put_api_bookings id req_user_id seats s = (BookingNotFoundOrForbidden, s))
  /\ (forall b e, constraints s -> 0 < seats ->
        In b (bookings s) -> Bookings.id b = id -> Bookings.user_id b = req_user_id ->
        In e (events s) -> Events.id e = Bookings.event_id b ->
        Events.available_seats e < seats - Bookings.seats b ->
        put_api_bookings id req_user_id seats s = (InsufficientSeats, s)).
Proof.
  unfold put_api_bookings, try_catch, bind, select_booking, select_available_seats,
    parameters.
  rewrite seats_check. split; [|split; [|split]].
  - intros Hk. apply Z.leb_le in Hk. rewrite Hk. reflexivity.
  - intros Hk Hid. apply Z.leb_gt in Hk. rewrite Hk, Hid. reflexivity.
  - intros Hk Hid Hnone. apply Z.leb_gt in Hk. rewrite Hk, Hid.
    rewrite filter_none; [reflexivity|].
    intros b Hb. apply not_true_is_false. intros Hp.
    apply booking_is_true in Hp. exact (Hnone b Hb Hp).
  - intros b e Hc Hk Hb Hid Hu He Heid Hn. subst id req_user_id.
    destruct (booking_typed s b Hc Hb) as [Hbid [Hbeid _]].
    apply Z.leb_gt in Hk. rewrite Hk, Hbid.
    rewrite select_booking_row by assumption.
    rewrite Hbeid.
    rewrite <- Heid, available_seats_of_row by assumption.
    apply Z.ltb_lt in Hn. rewrite Hn. reflexivity.
Qed.

(** On the store of the scenario: no seats, Bob on Alice's booking, and six
    seats for Alice when two are left and she holds three. *)
Lemma update_booking_failures_witness :
  put_api_bookings 1 1 0 (run booked_trace empty_store)
  = (InvalidSeatCount, run booked_trace empty_store)
  /\ put_api_bookings 2147483648 1 1 (run booked_trace empty_store)
     = (error_json 500 "Failed to update booking", run booked_trace empty_store)
  /\ put_api_bookings 1 2 1 (run booked_trace empty_store)
     = (BookingNotFoundOrForbidden, run booked_trace empty_store)
  /\ put_api_bookings 1 1 6 (run booked_trace empty_store)
     = (InsufficientSeats, run booked_trace empty_store).
Proof.
  split; [|split; [|split]].
  - apply (proj1 (update_booking_failures 1 1 0 _)). lia.
  - apply (proj1 (proj2 (update_booking_failures 2147483648 1 1 _))); [lia|reflexivity].
  - apply (proj1 (proj2 (proj2 (update_booking_failures 1 2 1 _)))); [lia|reflexivity|].
    simpl. intros b [<- | []]. simpl. lia.
  - apply (proj2 (proj2 (proj2 (update_booking_failures 1 1 6 _)))
             (Bookings.mk 1 1 1 3)
             (Events.mk 1 "Concert" None "2030-01-01" "Main hall" 2 1));
      try reflexivity; try (simpl; auto; lia).
    apply run_constraints.
Defined.



(** ** Ids are not used twice *)

(** A handler never sets the sequence of the booking ids back. *)
Ltac sequence_kept :=
  unfold_handlers;
  repeat match goal with
         | |- context [if ?c then _ else _] => destruct c
         | |- context [match ?l with [] => _ | _ :: _ => _ end] => destruct l
         | |- context [match ?d with Some _ => _ | None => _ end] => destruct d
         end;
  simpl; lia.

Lemma handle_sequences (r : request) (s : Store) :
  bookings_id_seq s <= bookings_id_seq (snd (handle r s)).
Proof.
  destruct r; simpl.
  - sequence_kept.
  - rewrite put_api_profile_store. sequence_kept.
  - sequence_kept.
  - rewrite delete_api_rooms_store. sequence_kept.
  - sequence_kept.
  - sequence_kept.
  - sequence_kept.
  - sequence_kept.
  - unfold_handlers.
    destruct (falsy_number seats || (seats <=? 0)); simpl; try lia.
    destruct (integer id); simpl; try lia.
    destruct (filter _ (bookings s)) as [|b0 rest]; simpl; try lia.
    destruct (integer (Bookings.event_id b0)); simpl; try lia.
    destruct (available_seats_of _ s) as [|n0 ns]; simpl; try lia.
    destruct (n0 <? _); simpl; try lia.
    destruct (integer seats); simpl; try lia.
    destruct (integer (seats - Bookings.seats b0)); simpl; try lia.
    destruct (forallb _ (events s)); simpl; try lia.
    destruct (map _ (filter _ (bookings s))); simpl; lia.
  - sequence_kept.
  - sequence_kept.
  - sequence_kept.
Qed.

Lemma run_sequences (rs : list request) (s : Store) :
  bookings_id_seq s <= bookings_id_seq (run rs s).
Proof.
  revert s. induction rs as [|r rs IH]; simpl; intros s; [lia|].
  specialize (IH (snd (handle r s))).
  pose proof (handle_sequences r s). lia.
Qed.

(** X21. The id of a booking is never given out again: whatever
    requests are served in between (a cancel of the booking included), a
    booking created later gets an id greater than that of every booking the
    store held before. *)
Theorem booking_ids_are_not_reused (s s' : Store) (rs : list request)
  (req_user_id event_id seats : Z) (b0 b : Bookings.row) :
  constraints s -> In b0 (bookings s) ->
  post_api_bookings req_user_id event_id seats (run rs s)
  = (mkResponse 201 (JBooking b), s') ->
  Bookings.id b0 < Bookings.id b.
Proof.
  intros Hc Hb0 Hcreate.
  destruct (create_store _ _ _ _ _ _ Hcreate) as [Hb _].
  pose proof (bookings_id_drawn s Hc) as Hdrawn.
  rewrite Forall_forall in Hdrawn. specialize (Hdrawn b0 Hb0). simpl in Hdrawn.
  pose proof (run_sequences rs s). rewrite Hb. simpl. lia.
Qed.

(** Alice cancels booking 1 and books again: the new booking is number 2. *)
Lemma booking_ids_are_not_reused_witness :
  Bookings.id (Bookings.mk 1 1 1 3) < Bookings.id (Bookings.mk 2 1 1 1).
Proof.
  apply (booking_ids_are_not_reused (run booked_trace empty_store)
           (snd (post_api_bookings 1 1 1
                   (run [DeleteBookings 1 1] (run booked_trace empty_store))))
           [DeleteBookings 1 1] 1 1 1).
  - apply run_constraints.
  - simpl. auto.
  - reflexivity.
Defined.

(** ** A new password, and the simpler booking handler *)

Lemma profile_update_succeeds (u : Users.row) (name email : string)
  (password : option string) (hashedPassword : string) (s : Store) :
  constraints s -> In u (users s) ->
  fits_100 name && fits_100 email && fits_100 hashedPassword = true ->
  (forall x, In x (users s) -> Users.id x <> Users.id u -> Users.email x <> email) ->
  fst (put_api_profile (Users.id u) name email password hashedPassword s)
  = mkResponse 200 (JUser (Users.id u) name email)
  /\ In (Users.mk (Users.id u) name email
           (if truthy_field password then hashedPassword else Users.password u))
       (users (snd (put_api_profile (Users.id u) name email password hashedPassword s))).
Proof.
  intros Hc Hu Hshort Hfree.
  destruct (fits_three _ _ _ Hshort) as [Hfit [Hname [Hmail Hhash]]].
  assert (Hclash :
    user_exists (Users.id u) s
    && existsb (fun x => negb (Users.id x =? Users.id u) && String.eqb (Users.email x) email)
         (users s) = false).
  { apply andb_false_iff. right. apply not_true_is_false. intros Hex.
    apply existsb_exists in Hex. destruct Hex as [x [Hx Hp]].
    apply andb_true_iff in Hp. destruct Hp as [Hother Hsame].
    apply negb_true_iff, Z.eqb_neq in Hother. apply String.eqb_eq in Hsame.
    exact (Hfree x Hx Hother Hsame). }
  assert (Hok :
    varchar_100 name && varchar_100 email
    && match (if truthy_field password then Some hashedPassword else None) with
       | Some h => varchar_100 h
       | None => true
       end = true).
  { apply andb_true_iff in Hfit. destruct Hfit as [Hfit Hfit']. rewrite Hfit.
    destruct (truthy_field password); auto. }
  split.
  - unfold put_api_profile, try_catch, bind, update_user, parameters.
    rewrite Hok, Hname, Hmail, Hclash.
    rewrite select_user_by_id by assumption. reflexivity.
  - rewrite put_api_profile_store. unfold update_user, parameters.
    rewrite Hok, Hname, Hmail, Hclash. simpl.
    apply in_map_iff. exists u. rewrite Z.eqb_refl. split; auto.
    destruct (truthy_field password); rewrite ?Hhash; reflexivity.
Qed.

Section NewPassword.

Variable JWT_SECRET : string.
Variable bcrypt_compare : string -> string -> bool.
Variable jwt_sign : claims -> string -> string -> string.

(** X22. After a profile update that supplies a non-empty password (name,
    email and hash of at most a hundred characters), the
    user logs in with the new email and a password that [bcrypt.compare]
    accepts against the new hash, and gets the same id back; the hash stored
    before plays no part any more. *)
Theorem new_password_then_login (u : Users.row) (name email newPassword : string)
  (hashedPassword : string) (s : Store) :
  constraints s -> In u (users s) ->
  fits_100 name && fits_100 email && fits_100 hashedPassword = true ->
  (forall x, In x (users s) -> Users.id x <> Users.id u -> Users.email x <> email) ->
  newPassword <> "" ->
  bcrypt_compare newPassword hashedPassword = true ->
  fst (put_api_profile (Users.id u) name email (Some newPassword) hashedPassword s)
  = mkResponse 200 (JUser (Users.id u) name email)
  /\ fst (post_api_login JWT_SECRET bcrypt_compare jwt_sign email newPassword
            (snd (put_api_profile (Users.id u) name email (Some newPassword)
                    hashedPassword s)))
     = mkResponse 200
         (JLogin (jwt_sign (mkClaims (Users.id u) email) JWT_SECRET "1h")
            (Users.id u) name email).
Proof.
  intros Hc Hu Hfit Hfree Hne Hp.
  destruct (profile_update_succeeds u name email (Some newPassword) hashedPassword s
              Hc Hu Hfit Hfree) as [Hok Hrow].
  split; [exact Hok|].
  assert (Htruthy : truthy_field (Some newPassword) = true).
  { simpl. rewrite truthy_string by exact Hne. reflexivity. }
  rewrite Htruthy in Hrow.
  assert (Hc1 : constraints (snd (put_api_profile (Users.id u) name email
                                    (Some newPassword) hashedPassword s))).
  { apply (handle_constraints
             (PutProfile (Users.id u) name email (Some newPassword) hashedPassword)).
    exact Hc. }
  pose proof (login_accepted JWT_SECRET bcrypt_compare jwt_sign
                (Users.mk (Users.id u) name email hashedPassword) newPassword _
                Hc1 Hrow Hp) as Hlogin.
  cbn [Users.id Users.name Users.email] in Hlogin.
  rewrite Hlogin. reflexivity.
Qed.

End NewPassword.

(** Bob takes a new name, address and password, and logs in with them. *)
Lemma new_password_then_login_witness :
  fst (put_api_profile 2 "Robert" "robert@example.org" (Some "hunter2") "$2a$10$hunter2"
         (run booked_trace empty_store))
  = mkResponse 200 (JUser 2 "Robert" "robert@example.org")
  /\ fst (post_api_login "secret" demo_compare demo_sign "robert@example.org" "hunter2"
            (snd (put_api_profile 2 "Robert" "robert@example.org" (Some "hunter2")
                    "$2a$10$hunter2" (run booked_trace empty_store))))
     = mkResponse 200
         (JLogin (demo_sign (mkClaims 2 "robert@example.org") "secret" "1h")
            2 "Robert" "robert@example.org").
Proof.
  apply (new_password_then_login "secret" demo_compare demo_sign
           (Users.mk 2 "Bob" "bob@example.org" "$2a$10$bob")
           "Robert" "robert@example.org" "hunter2" "$2a$10$hunter2"
           (run booked_trace empty_store)).
  - apply run_constraints.
  - simpl. auto.
  - reflexivity.
  - simpl. intros x [<- | [<- | []]]; simpl; intros; (discriminate || lia).
  - discriminate.
  - reflexivity.
Defined.

Lemma simple_create_constraints (req_user_id event_id seats : Z) (s : Store) :
  constraints s ->
  constraints (snd (post_api_bookings_simple req_user_id event_id seats s)).
Proof.
  unfold post_api_bookings_simple. apply preserves_try_catch.
  split_body; auto with schema.
Qed.

(** X23. The create handler of the simpler route file, which accepts any
    seat count, still keeps the constraints of the schema and, unless it
    answers 500, still only moves seats between the event and its bookings:
    for every event id, the [available_seats] plus the booked seats are the
    same before and after.  What it does not keep is that bookings hold at
    least one seat: a request for [seats <= 0] (an [INTEGER]) on an event
    with [available_seats >= 0], by a stored user without a booking on it, is
    answered 201, stores the booking and adds the seats to the event, while
    the sequence has an id left to give and the event can take the seats. *)
Theorem simple_create_keeps_the_books (req_user_id event_id seats : Z) (s : Store) :
  constraints s ->
  constraints (snd (post_api_bookings_simple req_user_id event_id seats s))
  /\ (forall eid,
        status (fst (post_api_bookings_simple req_user_id event_id seats s)) <> 500 ->
        seats_total eid (snd (post_api_bookings_simple req_user_id event_id seats s))
        = seats_total eid s)
  /\ (forall e, In e (events s) -> Events.id e = event_id ->
        user_exists req_user_id s = true ->
        ~ has_booking event_id req_user_id s ->
        seats <= 0 -> 0 <= Events.available_seats e ->
        integer seats = true -> integer (Events.available_seats e - seats) = true ->
        bookings_id_seq s < 2147483647 ->
        let row := Bookings.mk (bookings_id_seq s + 1) event_id req_user_id seats in
        exists s',
          post_api_bookings_simple req_user_id event_id seats s
          = (mkResponse 201 (JBooking row), s')
          /\ bookings s' = bookings s ++ [row]
          /\ available_seats_of event_id s' = [Events.available_seats e - seats]).
Proof.
  intros Hc. split; [apply simple_create_constraints; exact Hc|]. split.
  - intros eid.
    unfold post_api_bookings_simple, try_catch, bind, select_bookings_of, select_event,
      insert_booking, take_seats, update_available_seats, parameters.
    destruct (integer event_id); [|answered_500]. simpl.
    destruct (map Bookings.id _); simpl; auto.
    destruct (filter _ (events s)) as [|e0 rest] eqn:Hsel; simpl; auto.
    destruct (Events.available_seats e0 <? seats); simpl; auto.
    destruct (integer seats); [|answered_500]. simpl.
    destruct (INTEGER_MAX <=? bookings_id_seq s); [answered_500|].
    destruct (existsb _ (bookings s)); [answered_500|].
    destruct (event_exists event_id s && user_exists req_user_id s); [|answered_500].
    simpl. destruct (forallb _ (events s)); [|answered_500].
    simpl. intros _.
    apply (create_moves_seats event_id req_user_id seats eid s e0 rest); auto.
  - intros e He Hid Hu Hb Hk Hn Hseats Hfits Hroom row. subst event_id.
    destruct (event_typed s e Hc He) as [Heid _].
    eexists. split; [|split].
    + unfold post_api_bookings_simple, try_catch, bind, select_bookings_of, select_event,
        insert_booking, take_seats, parameters.
      rewrite Heid, Hseats. simpl.
      rewrite no_booking_select by exact Hb. simpl.
      rewrite select_event_row by assumption.
      replace (Events.available_seats e <? seats) with false
        by (symmetry; apply Z.ltb_ge; lia).
      replace (INTEGER_MAX <=? bookings_id_seq s) with false
        by (symmetry; apply Z.leb_gt; exact Hroom).
      rewrite no_booking_insert by exact Hb.
      replace (event_exists (Events.id e) s) with true
        by (symmetry; apply existsb_exists; exists e; split; auto; apply Z.eqb_refl).
      rewrite Hu. simpl.
      rewrite (update_available_seats_row (fun n => n - seats)
                 (with_bookings _ _ s) e); simpl; auto using events_pkey.
    + reflexivity.
    + unfold available_seats_of. simpl.
      rewrite (available_seats_of_update (fun n => n - seats)).
      rewrite Z.eqb_refl, select_event_row by assumption.
      reflexivity.
Qed.

(** Bob asks the simpler handler for minus two seats. *)
Lemma simple_create_keeps_the_books_witness :
  seats_total 1 (snd (post_api_bookings_simple 2 1 (-2) (run booked_trace empty_store)))
  = seats_total 1 (run booked_trace empty_store)
  /\ exists s',
       post_api_bookings_simple 2 1 (-2) (run booked_trace empty_store)
       = (mkResponse 201 (JBooking (Bookings.mk (1 + 1) 1 2 (-2))), s')
       /\ bookings s' = bookings (run booked_trace empty_store)
                        ++ [Bookings.mk (1 + 1) 1 2 (-2)]
       /\ available_seats_of 1 s' = [2 - -2].
Proof.
  destruct (simple_create_keeps_the_books 2 1 (-2) (run booked_trace empty_store)
              (run_constraints booked_trace)) as [_ [Htotal Hok]].
  split; [apply Htotal; simpl; discriminate|].
  apply (Hok (Events.mk 1 "Concert" None "2030-01-01" "Main hall" 2 1)).
  - simpl. auto.
  - reflexivity.
  - reflexivity.
  - no_such_booking.
  - lia.
  - simpl. lia.
  - reflexivity.
  - reflexivity.
  - simpl. lia.
Defined.
